(** * The GitHub node: [Github.execute]

    A shallow embedding of [execute] of
    [packages/nodes-base/nodes/Github/Github.node.ts] and the properties of
    its routing, response reshaping and error policy.

    Layout: the JavaScript values and the runtime operations the routine
    relies on; the host interface ([IExecuteFunctions]); the store of item
    objects; the routine itself, statement by statement; then the theorems. *)

From Stdlib Require Import ZArith NArith Lia Bool Ascii String List.
From Stdlib Require Import DecimalString.
From Stdlib Require Strings.Byte.
From stdpp Require Import base list.
Import ListNotations.

Set Warnings "-register-all".
Local Open Scope string_scope.
Local Open Scope list_scope.

(** ** JavaScript values *)

(** The values a parameter or a parsed API response can hold. A number is
    given by an integer and stands for the Number value nearest to it, so the
    numbers of the model are the integral ones; strings are sequences of
    UTF-8 bytes; an object keeps its own keys in insertion order. *)
Inductive json : Type :=
| JUndefined
| JNull
| JBool (b : bool)
| JNum (n : Z)
| JStr (s : string)
| JArr (l : list json)
| JObj (o : list (string * json)).

Abbreviation IDataObject := (list (string * json)).

(** What is thrown: the node's own [NodeOperationError], an error of the
    host or of a GitHub call, or a [TypeError] of the runtime (its message
    is the engine's wording). *)
Inductive error : Type :=
| NodeOperationError (message : string)
| HostError (message : string)
| TypeError (message : string).

(** [error.message] *)
Definition message (e : error) : string :=
  match e with
  | NodeOperationError m | HostError m | TypeError m => m
  end.

(** A computation returns a value or throws. *)
Inductive outcome (A : Type) : Type :=
| Ok (a : A)
| Throw (e : error).
Arguments Ok {A} a.
Arguments Throw {A} e.

(** [Number::toString] on the Number value of an integer: the fewest digits
    that give the value back, written out in full below [1e21] and in
    exponent form from there on. *)
Module Number.

Definition decimal (n : Z) : string := NilZero.string_of_int (Z.to_int n).

(** The double nearest to a natural number, ties to even. *)
Definition to_double (n : Z) : Z :=
  let b := Z.log2 n in
  if (b <? 53)%Z then n
  else
    let u := (2 ^ (b - 52))%Z in
    let q := (n / u)%Z in
    let r := (n mod u)%Z in
    let q' := if (2 * r <? u)%Z then q
              else if (u <? 2 * r)%Z then (q + 1)%Z
              else if Z.even q then q else (q + 1)%Z in
    (q' * u)%Z.

(** The digits [s], their number [k] and the magnitude [n] such that
    [s * 10 ^ (n - k)] rounds to [x], with [k] as small as possible and, of
    two such [s], the one nearer to [x]. *)
Fixpoint shortest (fuel : nat) (k : Z) (x n : Z) : Z * Z * Z :=
  match fuel with
  | O => (x, n, n)
  | S fuel' =>
      let p := (10 ^ (n - k))%Z in
      let lo := (x / p)%Z in
      let hi := (lo + 1)%Z in
      let ok_lo := (to_double (lo * p) =? x)%Z in
      let ok_hi := (to_double (hi * p) =? x)%Z in
      let up := if (hi =? 10 ^ k)%Z then (1, 1, n + 1)%Z else (hi, k, n) in
      if ok_lo && ok_hi then
        let below := (x - lo * p)%Z in
        let above := (hi * p - x)%Z in
        if (below <? above)%Z then (lo, k, n)
        else if (above <? below)%Z then up
        else if Z.even lo then (lo, k, n) else up
      else if ok_lo then (lo, k, n)
      else if ok_hi then up
      else shortest fuel' (k + 1)%Z x n
  end.

Fixpoint zeros (n : nat) : string :=
  match n with
  | O => EmptyString
  | S n' => String "0" (zeros n')
  end.

Definition of_natural (m : Z) : string :=
  let x := to_double m in
  if (x <? 2 ^ 53)%Z then decimal x
  else if (2 ^ 1024 <=? x)%Z then "Infinity"
  else
    let n := Z.of_nat (String.length (decimal x)) in
    let '(s, k, n) := shortest 17 1 x n in
    let digits := decimal s in
    if (n <=? 21)%Z then digits ++ zeros (Z.to_nat (n - k))
    else
      match digits with
      | String d rest =>
          String d (if (k =? 1)%Z then EmptyString else String "." rest)
            ++ "e+" ++ decimal (n - 1)
      | EmptyString => EmptyString
      end.

Definition to_string (n : Z) : string :=
  if (n <? 0)%Z then "-" ++ of_natural (- n) else of_natural n.

End Number.

Module Js.

(** Own-property lookup and assignment on the key list of an object. *)
Fixpoint lookup {V : Type} (k : string) (o : list (string * V)) : option V :=
  match o with
  | [] => None
  | (k', v) :: r => if String.eqb k k' then Some v else lookup k r
  end.

Fixpoint assign {V : Type} (k : string) (v : V) (o : list (string * V))
  : list (string * V) :=
  match o with
  | [] => [(k, v)]
  | (k', v') :: r =>
      if String.eqb k k' then (k', v) :: r else (k', v') :: assign k v r
  end.

(** [v === 'literal'] *)
Definition is_str (v : json) (lit : string) : bool :=
  match v with
  | JStr s => String.eqb s lit
  | _ => false
  end.

(** [v === true], [v === false], [v === undefined] *)
Definition is_true (v : json) : bool :=
  match v with JBool true => true | _ => false end.
Definition is_false (v : json) : bool :=
  match v with JBool false => true | _ => false end.
Definition is_undefined (v : json) : bool :=
  match v with JUndefined => true | _ => false end.

(** [Array.isArray(v)] *)
Definition isArray (v : json) : bool :=
  match v with JArr _ => true | _ => false end.

(** The condition of [if (v)]. *)
Definition truthy (v : json) : bool :=
  match v with
  | JUndefined | JNull | JBool false => false
  | JNum n => negb (Z.eqb n 0)
  | JStr s => negb (String.eqb s "")
  | _ => true
  end.

Definition string_of_Z (n : Z) : string :=
  NilZero.string_of_int (Z.to_int n).

Fixpoint join (sep : string) (l : list string) : string :=
  match l with
  | [] => ""
  | [x] => x
  | x :: r => x ++ sep ++ join sep r
  end.

(** The string a template literal [`${v}`] interpolates. *)
Fixpoint to_string (v : json) : string :=
  match v with
  | JUndefined => "undefined"
  | JNull => "null"
  | JBool true => "true"
  | JBool false => "false"
  | JNum n => Number.to_string n
  | JStr s => s
  | JArr l =>
      join "," (List.map (fun x => match x with
                                   | JUndefined | JNull => ""
                                   | _ => to_string x
                                   end) l)
  | JObj _ => "[object Object]"
  end.

(** [v.k] and [v[k]] for the keys the routine writes out, none of which is
    a property of the Object, String, Number, Boolean or Array prototypes.
    The messages of a [TypeError] are those of the engine the package ran
    on when the file was written (V8 up to 9.2). *)
Definition get (k : string) (v : json) : outcome json :=
  match v with
  | JUndefined | JNull =>
      Throw (TypeError ("Cannot read property '" ++ k ++ "' of " ++ to_string v))
  | JObj o => Ok (match lookup k o with Some x => x | None => JUndefined end)
  | _ => Ok JUndefined
  end.

(** [v.k = x] in strict mode. A named property put on an array is not part
    of the array's JSON form, so the array is left as it is. *)
Definition set (k : string) (x : json) (v : json) : outcome json :=
  match v with
  | JObj o => Ok (JObj (assign k x o))
  | JArr l => Ok (JArr l)
  | JUndefined | JNull =>
      Throw (TypeError ("Cannot set property '" ++ k ++ "' of " ++ to_string v))
  | _ =>
      Throw (TypeError ("Cannot create property '" ++ k ++ "' on " ++ to_string v))
  end.

Fixpoint mapM {A B : Type} (f : A -> outcome B) (l : list A) : outcome (list B) :=
  match l with
  | [] => Ok []
  | x :: r =>
      match f x with
      | Throw e => Throw e
      | Ok y => match mapM f r with
                | Throw e => Throw e
                | Ok ys => Ok (y :: ys)
                end
      end
  end.

(** [(v as IDataObject[]).map((data) => data[k])], where [callee] is the
    expression [v] is written as, which the engine quotes when [v] has no
    [map]. *)
Definition map_prop (callee k : string) (v : json) : outcome json :=
  match v with
  | JArr l => match mapM (get k) l with
              | Ok ys => Ok (JArr ys)
              | Throw e => Throw e
              end
  | JUndefined | JNull =>
      Throw (TypeError ("Cannot read property 'map' of " ++ to_string v))
  | _ => Throw (TypeError (callee ++ ".map is not a function"))
  end.

Fixpoint index_keys {A : Type} (i : nat) (l : list A) : list (string * A) :=
  match l with
  | [] => []
  | x :: r => (string_of_Z (Z.of_nat i), x) :: index_keys (S i) r
  end.

Fixpoint chars (s : string) : list json :=
  match s with
  | EmptyString => []
  | String c r => JStr (String c EmptyString) :: chars r
  end.

(** The own enumerable properties [Object.assign] copies from a source
    (for a string, one per code unit). *)
Definition own_props (v : json) : IDataObject :=
  match v with
  | JObj o => o
  | JArr l => index_keys 0 l
  | JStr s => index_keys 0 (chars s)
  | _ => []
  end.

(** The names a plain object inherits from [Object.prototype]. *)
Definition inherited : list string :=
  [ "constructor"; "__defineGetter__"; "__defineSetter__"; "hasOwnProperty";
    "__lookupGetter__"; "__lookupSetter__"; "isPrototypeOf";
    "propertyIsEnumerable"; "toString"; "valueOf"; "__proto__";
    "toLocaleString" ].

(** [o[k] = v] on a plain object, for a key that is computed: a write under
    [__proto__] goes to the setter of [Object.prototype], which changes the
    prototype of [o] at most and adds no own key. The prototype is not part
    of the key list. *)
Definition put {V : Type} (k : string) (v : V) (o : list (string * V))
  : list (string * V) :=
  if String.eqb k "__proto__" then o else assign k v o.

Definition assign_all {V : Type} (target source : list (string * V))
  : list (string * V) :=
  fold_left (fun acc kv => put (fst kv) (snd kv) acc) source target.

(** [Object.assign(target, source)] on a target that is an object. *)
Definition object_assign (target : IDataObject) (source : json) : IDataObject :=
  assign_all target (own_props source).

(** [array.includes(s)] on an array of string literals. *)
Definition includes (l : list string) (s : string) : bool :=
  existsb (String.eqb s) l.

Definition dquote : string := String "034"%char EmptyString.

End Js.

(** ** Characters, URI escaping, case conversion, base64 *)

Module Chars.

Definition code (c : ascii) : N := N_of_ascii c.

Definition between (lo hi : ascii) (c : ascii) : bool :=
  (code lo <=? code c)%N && (code c <=? code hi)%N.

Definition is_upper : ascii -> bool := between "A" "Z".
Definition is_lower : ascii -> bool := between "a" "z".
Definition is_digit : ascii -> bool := between "0" "9".
Definition is_alnum (c : ascii) : bool := is_upper c || is_lower c || is_digit c.

Definition lower (c : ascii) : ascii :=
  if is_upper c then ascii_of_N (code c + 32) else c.
Definition upper (c : ascii) : ascii :=
  if is_lower c then ascii_of_N (code c - 32) else c.

Fixpoint mem (c : ascii) (s : string) : bool :=
  match s with
  | EmptyString => false
  | String d r => Ascii.eqb c d || mem c r
  end.

Fixpoint map (f : ascii -> ascii) (s : string) : string :=
  match s with
  | EmptyString => EmptyString
  | String c r => String (f c) (map f r)
  end.

Fixpoint rev_onto (s acc : string) : string :=
  match s with
  | EmptyString => acc
  | String c r => rev_onto r (String c acc)
  end.
Definition rev (s : string) : string := rev_onto s EmptyString.

End Chars.

(** [encodeURI]: every byte outside the unreserved and the reserved sets
    becomes [%XX]; the reserved characters [; / ? : @ & = + $ ,] and [#]
    stay as they are. *)
Module Uri.

Definition unescaped (c : ascii) : bool :=
  Chars.is_alnum c || Chars.mem c "-_.!~*'()" || Chars.mem c ";/?:@&=+$,#".

Definition hex_digit (n : N) : ascii :=
  match String.get (N.to_nat n) "0123456789ABCDEF" with
  | Some c => c
  | None => "0"%char
  end.

Definition escape (c : ascii) : string :=
  String "%" (String (hex_digit (Chars.code c / 16))
                (String (hex_digit (Chars.code c mod 16)) EmptyString)).

Fixpoint encodeURI (s : string) : string :=
  match s with
  | EmptyString => EmptyString
  | String c r =>
      if unescaped c then String c (encodeURI r) else escape c ++ encodeURI r
  end.

End Uri.

(** [snakeCase] of the change-case package: [noCase] with the delimiter [_]. *)
Module ChangeCase.

Definition NUL : ascii := "000"%char.

(** [input.replace(/([a-z0-9])([A-Z])/g, "$1\0$2")] *)
Fixpoint split_lower_upper (s : string) : string :=
  match s with
  | String a (String b _ as t) =>
      if (Chars.is_lower a || Chars.is_digit a) && Chars.is_upper b
      then String a (String NUL (split_lower_upper t))
      else String a (split_lower_upper t)
  | _ => s
  end.

(** [.replace(/([A-Z])([A-Z][a-z])/g, "$1\0$2")] *)
Fixpoint split_upper_word (s : string) : string :=
  match s with
  | String a (String b (String c _) as t) =>
      if Chars.is_upper a && Chars.is_upper b && Chars.is_lower c
      then String a (String NUL (split_upper_word t))
      else String a (split_upper_word t)
  | _ => s
  end.

(** [.replace(/[^A-Z0-9]+/gi, "\0")]: [in_run] says the previous character
    was already stripped. *)
Fixpoint strip (in_run : bool) (s : string) : string :=
  match s with
  | EmptyString => EmptyString
  | String c r =>
      if Chars.is_alnum c then String c (strip false r)
      else if in_run then strip true r
      else String NUL (strip true r)
  end.

Fixpoint trim_start (s : string) : string :=
  match s with
  | String c r => if Ascii.eqb c NUL then trim_start r else s
  | EmptyString => EmptyString
  end.

Definition trim (s : string) : string :=
  Chars.rev (trim_start (Chars.rev (trim_start s))).

(** [.split("\0").map(lowerCase).join(delimiter)] *)
Definition rejoin (delimiter : ascii) (s : string) : string :=
  Chars.map (fun c => if Ascii.eqb c NUL then delimiter else Chars.lower c) s.

Definition noCase (delimiter : ascii) (input : string) : string :=
  rejoin delimiter (trim (strip false (split_upper_word (split_lower_upper input)))).

Definition snakeCase (input : string) : string := noCase "_" input.

Definition toUpperCase (s : string) : string := Chars.map Chars.upper s.

End ChangeCase.

(** [Buffer.from(s, 'base64')] and [buffer.toString('base64')]. The decoder
    takes both alphabets, skips every other character and stops at the first
    [=]. *)
Module Base64.

Definition alphabet : string :=
  "ABCDEFGHIJKLMNOPQRSTUVWXYZabcdefghijklmnopqrstuvwxyz0123456789+/".

Definition digit (n : N) : ascii :=
  match String.get (N.to_nat n) alphabet with
  | Some c => c
  | None => "A"%char
  end.

Definition sextet (c : ascii) : option N :=
  let n := Chars.code c in
  if Chars.is_upper c then Some (n - 65)%N
  else if Chars.is_lower c then Some (n - 71)%N
  else if Chars.is_digit c then Some (n + 4)%N
  else if Chars.mem c "+-" then Some 62%N
  else if Chars.mem c "/_" then Some 63%N
  else None.

Fixpoint sextets (s : string) : list N :=
  match s with
  | EmptyString => []
  | String c r =>
      if Ascii.eqb c "=" then []
      else match sextet c with
           | Some n => n :: sextets r
           | None => sextets r
           end
  end.

Definition byte_of (n : N) : Byte.byte :=
  match Byte.of_N (n mod 256) with
  | Some b => b
  | None => Byte.x00
  end.

Fixpoint bytes_of_sextets (l : list N) : list Byte.byte :=
  match l with
  | a :: b :: c :: d :: r =>
      byte_of (N.lor (N.shiftl a 2) (N.shiftr b 4))
      :: byte_of (N.lor (N.shiftl (N.land b 15) 4) (N.shiftr c 2))
      :: byte_of (N.lor (N.shiftl (N.land c 3) 6) d)
      :: bytes_of_sextets r
  | [a; b; c] =>
      [byte_of (N.lor (N.shiftl a 2) (N.shiftr b 4));
       byte_of (N.lor (N.shiftl (N.land b 15) 4) (N.shiftr c 2))]
  | [a; b] => [byte_of (N.lor (N.shiftl a 2) (N.shiftr b 4))]
  | _ => []
  end.

Definition decode (s : string) : list Byte.byte := bytes_of_sextets (sextets s).

Fixpoint encode (l : list Byte.byte) : string :=
  match l with
  | x :: y :: z :: r =>
      let a := Byte.to_N x in let b := Byte.to_N y in let c := Byte.to_N z in
      String (digit (N.shiftr a 2))
        (String (digit (N.lor (N.shiftl (N.land a 3) 4) (N.shiftr b 4)))
           (String (digit (N.lor (N.shiftl (N.land b 15) 2) (N.shiftr c 6)))
              (String (digit (N.land c 63)) (encode r))))
  | [x; y] =>
      let a := Byte.to_N x in let b := Byte.to_N y in
      String (digit (N.shiftr a 2))
        (String (digit (N.lor (N.shiftl (N.land a 3) 4) (N.shiftr b 4)))
           (String (digit (N.shiftl (N.land b 15) 2)) "="))
  | [x] =>
      let a := Byte.to_N x in
      String (digit (N.shiftr a 2))
        (String (digit (N.shiftl (N.land a 3) 4)) "==")
  | [] => EmptyString
  end.

End Base64.

(** ** Items and the host *)

Abbreviation loc := nat.

(** [IBinaryData] of n8n-workflow; [data] is base64 text. *)
Record IBinaryData : Type := mkBinaryData {
  data : string;
  mimeType : string;
  fileName : option string
}.

(** [IBinaryKeyData]: attachment name to the attachment object. *)
Abbreviation IBinaryKeyData := (list (string * loc)).

(** [INodeExecutionData]: [binary] is [undefined] or a reference to a mapping. *)
Record INodeExecutionData : Type := mkItem {
  json_of : json;
  binary : option loc
}.

(** The objects items are made of. A location is an index; allocation appends,
    so an object, once allocated, keeps its location. *)
Record store : Type := mkStore {
  itemObjs : list INodeExecutionData;
  binaryMaps : list IBinaryKeyData;
  binaryObjs : list IBinaryData
}.

(** Which of the two request helpers of GenericFunctions.ts is called:
    [githubApiRequest] issues one HTTP request, [githubApiRequestAllItems]
    walks the pages. *)
Inductive helper : Type := SingleRequest | AllItems.

(** The four variables a request is built in: method, endpoint, body and
    query string. *)
Record request : Type := mkRequest {
  requestMethod : string;
  endpoint : string;
  body : json;
  qs : json
}.

(** A call of one of the two helpers. *)
Record call : Type := mkCall {
  via : helper;
  sent : request
}.

(** What [this] offers to [execute], and what the runtime does with values
    that are not of the type the source casts them to. *)
Record IExecuteFunctions : Type := mkHost {
  (** [this.getInputData()]: the item array and the objects behind it *)
  getInputData : store * list loc;
  (** [this.getNodeParameter(name, itemIndex, fallback?)] *)
  getNodeParameter : string -> nat -> option json -> outcome json;
  (** [this.continueOnFail()] *)
  continueOnFail : bool;
  (** [this.helpers.prepareBinaryData(buffer, filePath)] *)
  prepareBinaryData : list Byte.byte -> json -> outcome IBinaryData;
  (** the answer of the request helpers, given the calls made so far *)
  respond : list call -> call -> outcome json;
  (** [Buffer.from(v)] for a [v] that is not a string *)
  Buffer_from : json -> outcome (list Byte.byte);
  (** [ToLength(v)] for a [v] that is not a number *)
  ToLength : json -> nat
}.

(** What [execute] hands back: [[this.helpers.returnJsonArray(returnData)]] or
    [this.prepareOutputData(items)]. *)
Inductive output : Type :=
| ReturnJsonArray (returnData : list json)
| PrepareOutputData (items : list loc).

(** ** The state of a run *)

(** The store, the item array, [returnData], the [returnAll] variable (it is
    declared outside the loop) and the helper calls made so far. *)
Record state : Type := mkState {
  objects : store;
  items : list loc;
  returnData : list json;
  returnAll : json;
  trace : list call
}.

Definition with_objects (st : store) (s : state) : state :=
  mkState st (items s) (returnData s) (returnAll s) (trace s).
Definition with_items (l : list loc) (s : state) : state :=
  mkState (objects s) l (returnData s) (returnAll s) (trace s).
Definition with_returnData (l : list json) (s : state) : state :=
  mkState (objects s) (items s) l (returnAll s) (trace s).
Definition with_returnAll (v : json) (s : state) : state :=
  mkState (objects s) (items s) (returnData s) v (trace s).
Definition with_trace (t : list call) (s : state) : state :=
  mkState (objects s) (items s) (returnData s) (returnAll s) t.

(** A computation of the routine: from a state to a value or an exception,
    and the state it leaves. The state survives a throw, so the [catch]
    block sees what the [try] block did. *)
Definition M (A : Type) : Type := state -> outcome A * state.

Definition ret {A : Type} (a : A) : M A := fun s => (Ok a, s).
Definition throw {A : Type} (e : error) : M A := fun s => (Throw e, s).
Definition lift {A : Type} (o : outcome A) : M A := fun s => (o, s).

Definition bind {A B : Type} (m : M A) (f : A -> M B) : M B :=
  fun s => match m s with
           | (Ok a, s') => f a s'
           | (Throw e, s') => (Throw e, s')
           end.

Declare Scope run_scope.
Delimit Scope run_scope with run.
Notation "x <- c1 ;; c2" := (bind c1 (fun x => c2))
  (at level 100, c1 at next level, right associativity) : run_scope.
Notation "c1 ;;; c2" := (bind c1 (fun _ => c2))
  (at level 100, right associativity) : run_scope.
Local Open Scope run_scope.

(** ** The routine *)

(** How a pass of the loop body ends when it does not throw: it falls
    through to the next item, or it executes a [return]. *)
Inductive completion : Type :=
| Next
| Return (out : output).

(** Operations which overwrite the returned data *)
Definition overwriteDataOperations : list string :=
  [ "file:create"; "file:delete"; "file:edit"; "file:get";
    "issue:create"; "issue:createComment"; "issue:edit"; "issue:get";
    "release:create"; "release:delete"; "release:get"; "release:update";
    "repository:get"; "repository:getLicense"; "repository:getProfile";
    "review:create"; "review:get"; "review:update";
    "user:invite" ].

(** Operations which overwrite the returned data and return arrays and has so
    to be merged with the data of other items *)
Definition overwriteDataOperationsArray : list string :=
  [ "file:list"; "repository:getIssues"; "repository:listPopularPaths";
    "repository:listReferrers"; "user:getRepositories"; "release:getAll";
    "review:getAll" ].

Definition with_method (m : string) (r : request) : request :=
  mkRequest m (endpoint r) (body r) (qs r).
Definition with_endpoint (e : string) (r : request) : request :=
  mkRequest (requestMethod r) e (body r) (qs r).
Definition with_body (b : json) (r : request) : request :=
  mkRequest (requestMethod r) (endpoint r) b (qs r).
Definition with_qs (q : json) (r : request) : request :=
  mkRequest (requestMethod r) (endpoint r) (body r) q.

(** [`/repos/${owner}/${repository}`] *)
Definition repos (owner repository : json) : string :=
  "/repos/" ++ Js.to_string owner ++ "/" ++ Js.to_string repository.

(** [`/repos/${owner}/${repository}/contents/${encodeURI(filePath)}`] *)
Definition contents (owner repository filePath : json) : string :=
  repos owner repository ++ "/contents/" ++ Uri.encodeURI (Js.to_string filePath).

Definition error_object (e : error) : json := JObj [("error", JStr (message e))].

(** The values the four variables are reset to at the start of each pass. *)
Definition reset : request := mkRequest "GET" "" (JObj []) (JObj []).

Section Execute.

Variable this : IExecuteFunctions.

Definition param (name : string) (i : nat) : M json :=
  lift (getNodeParameter this name i None).

Definition param_or (name : string) (i : nat) (fallback : json) : M json :=
  lift (getNodeParameter this name i (Some fallback)).

Definition issue (v : helper) (r : request) : M json :=
  fun s => (respond this (trace s) (mkCall v r),
            with_trace (trace s ++ [mkCall v r]) s).

Definition githubApiRequest (m e : string) (b q : json) : M json :=
  issue SingleRequest (mkRequest m e b q).

Definition githubApiRequestAllItems (m e : string) (b q : json) : M json :=
  issue AllItems (mkRequest m e b q).

(** Modelled from the spec: [getFileSha] of GenericFunctions.ts, which is
    not among the sources. It performs a GET of the file's contents
    endpoint, scoped to [branch] through the query when one is given, and
    extracts the [sha] field of the response; it fails when there is none
    (a directory listing) and when the GET fails. The spec does not name
    the query key; [ref] is the one of GitHub's contents API. *)
Definition getFileSha (owner repository filePath branch : json) : M json :=
  let query := if Js.is_undefined branch then [] else [("ref", branch)] in
  responseData <- githubApiRequest "GET" (contents owner repository filePath)
                    (JObj []) (JObj query);;
  sha <- lift (Js.get "sha" responseData);;
  if Js.is_undefined sha
  then throw (NodeOperationError "Could not get the sha of the file.")
  else ret sha.

(** *** The item array and its objects *)

Definition undefined_item {A : Type} : M A :=
  throw (TypeError "Cannot read property of undefined").

(** [items[i]], dereferenced *)
Definition item_at (i : nat) : M INodeExecutionData :=
  fun s => match items s !! i with
           | Some l => match itemObjs (objects s) !! l with
                       | Some it => (Ok it, s)
                       | None => undefined_item s
                       end
           | None => undefined_item s
           end.

Definition entries_of (m : loc) : M IBinaryKeyData :=
  fun s => match binaryMaps (objects s) !! m with
           | Some e => (Ok e, s)
           | None => undefined_item s
           end.

Definition binary_at (d : loc) : M IBinaryData :=
  fun s => match binaryObjs (objects s) !! d with
           | Some b => (Ok b, s)
           | None => undefined_item s
           end.

Definition alloc_item (it : INodeExecutionData) : M loc :=
  fun s => let st := objects s in
           (Ok (length (itemObjs st)),
            with_objects (mkStore (itemObjs st ++ [it]) (binaryMaps st) (binaryObjs st)) s).

Definition alloc_map (e : IBinaryKeyData) : M loc :=
  fun s => let st := objects s in
           (Ok (length (binaryMaps st)),
            with_objects (mkStore (itemObjs st) (binaryMaps st ++ [e]) (binaryObjs st)) s).

Definition alloc_binary (d : IBinaryData) : M loc :=
  fun s => let st := objects s in
           (Ok (length (binaryObjs st)),
            with_objects (mkStore (itemObjs st) (binaryMaps st) (binaryObjs st ++ [d])) s).

(** Writes into the mapping at [m]. *)
Definition update_map (m : loc) (f : IBinaryKeyData -> IBinaryKeyData) : M unit :=
  e <- entries_of m;;
  fun s => let st := objects s in
           (Ok tt,
            with_objects (mkStore (itemObjs st) (<[m := f e]> (binaryMaps st)) (binaryObjs st)) s).

(** [items[i] = newItem] *)
Definition set_item (i : nat) (l : loc) : M unit :=
  fun s => (Ok tt, with_items (<[i := l]> (items s)) s).

(** [items[i].json = v] *)
Definition set_item_json (i : nat) (v : json) : M unit :=
  it <- item_at i;;
  fun s => match items s !! i with
           | Some l =>
               let st := objects s in
               (Ok tt,
                with_objects (mkStore (<[l := mkItem v (binary it)]> (itemObjs st))
                                (binaryMaps st) (binaryObjs st)) s)
           | None => undefined_item s
           end.

(** [returnData.push(v)] *)
Definition push (v : json) : M unit :=
  fun s => (Ok tt, with_returnData (returnData s ++ [v]) s).

(** The argument list [push.apply] makes of its second argument. *)
Definition array_like (v : json) : outcome (list json) :=
  match v with
  | JArr l => Ok l
  | JUndefined | JNull => Ok []
  | JObj o =>
      let n := match Js.lookup "length" o with
               | None => 0
               | Some (JNum n) => Z.to_nat (Z.min n (2 ^ 53 - 1))
               | Some x => ToLength this x
               end in
      Ok (List.map (fun k => match Js.lookup (Js.string_of_Z (Z.of_nat k)) o with
                             | Some x => x
                             | None => JUndefined
                             end) (seq 0 n))
  | _ => Throw (TypeError "CreateListFromArrayLike called on non-object")
  end.

(** [returnData.push.apply(returnData, v)] *)
Definition push_apply (v : json) : M unit :=
  l <- lift (array_like v);;
  fun s => (Ok tt, with_returnData (returnData s ++ l) s).

(** [Buffer.from(v)] and [Buffer.from(v, 'base64')] *)
Definition buffer_utf8 (v : json) : outcome (list Byte.byte) :=
  match v with
  | JStr s => Ok (list_byte_of_string s)
  | _ => Buffer_from this v
  end.

Definition buffer_base64 (v : json) : outcome (list Byte.byte) :=
  match v with
  | JStr s => Ok (Base64.decode s)
  | _ => Buffer_from this v
  end.

Definition assign_body (k : string) (v : json) (r : request) : M request :=
  b <- lift (Js.set k v (body r));; ret (with_body b r).

Definition assign_qs (k : string) (v : json) (r : request) : M request :=
  q <- lift (Js.set k v (qs r));; ret (with_qs q r).

(** *** file *)

(** The optional [author], [committer] and [branch] of a commit, as both
    the create/edit and the delete branch copy them into the body. *)
Definition commit_fields (additionalParameters : json) (r : request) : M request :=
  author <- lift (Js.get "author" additionalParameters);;
  r <- (if Js.truthy author then assign_body "author" author r else ret r);;
  committer <- lift (Js.get "committer" additionalParameters);;
  r <- (if Js.truthy committer then assign_body "committer" committer r else ret r);;
  branch <- lift (Js.get "branch" additionalParameters);;
  if Js.truthy branch then
    inner <- lift (Js.get "branch" branch);;
    if Js.truthy inner then assign_body "branch" inner r else ret r
  else ret r.

(** [body.content] of an upload: the named attachment of the item, or the
    text parameter in base64. The mapping of an item is a plain object, so
    [item.binary[name]] also finds the names of [Object.prototype]. *)
Definition upload_content (i : nat) : M json :=
  binaryData <- param "binaryData" i;;
  if Js.is_true binaryData then
    item <- item_at i;;
    match binary item with
    | None => throw (NodeOperationError "No binary data exists on item!")
    | Some m =>
        binaryPropertyName <- param "binaryPropertyName" i;;
        e <- entries_of m;;
        match Js.lookup (Js.to_string binaryPropertyName) e with
        | Some d => b <- binary_at d;; ret (JStr (data b))
        | None =>
            (* an inherited name is not [undefined], and has no [data] *)
            if Js.includes Js.inherited (Js.to_string binaryPropertyName)
            then ret JUndefined
            else
              throw (NodeOperationError
                       ("No binary data property " ++ Js.dquote
                          ++ Js.to_string binaryPropertyName ++ Js.dquote
                          ++ " does not exists on item!"))
        end
    end
  else
    fileContent <- param "fileContent" i;;
    buffer <- lift (buffer_utf8 fileContent);;
    ret (JStr (Base64.encode buffer)).

Definition file_create_edit (operation owner repository : json) (i : nat)
    (r : request) : M request :=
  let r := with_method "PUT" r in
  filePath <- param "filePath" i;;
  additionalParameters <- param_or "additionalParameters" i (JObj []);;
  r <- commit_fields additionalParameters r;;
  r <- (if Js.is_str operation "edit" then
          branch <- lift (Js.get "branch" (body r));;
          sha <- getFileSha owner repository filePath branch;;
          assign_body "sha" sha r
        else ret r);;
  commitMessage <- param "commitMessage" i;;
  r <- assign_body "message" commitMessage r;;
  content <- upload_content i;;
  r <- assign_body "content" content r;;
  ret (with_endpoint (contents owner repository filePath) r).

Definition file_delete (owner repository : json) (i : nat) (r : request)
  : M request :=
  let r := with_method "DELETE" r in
  additionalParameters <- param_or "additionalParameters" i (JObj []);;
  r <- commit_fields additionalParameters r;;
  filePath <- param "filePath" i;;
  commitMessage <- param "commitMessage" i;;
  r <- assign_body "message" commitMessage r;;
  branch <- lift (Js.get "branch" (body r));;
  sha <- getFileSha owner repository filePath branch;;
  r <- assign_body "sha" sha r;;
  ret (with_endpoint (contents owner repository filePath) r).

Definition file_get_list (owner repository : json) (i : nat) (r : request)
  : M request :=
  let r := with_method "GET" r in
  filePath <- param "filePath" i;;
  ret (with_endpoint (contents owner repository filePath) r).

(** *** issue *)

Definition issue_create (owner repository : json) (i : nat) (r : request)
  : M request :=
  let r := with_method "POST" r in
  title <- param "title" i;;
  r <- assign_body "title" title r;;
  text <- param "body" i;;
  r <- assign_body "body" text r;;
  labels <- param "labels" i;;
  assignees <- param "assignees" i;;
  flat_labels <- lift (Js.map_prop "labels" "label" labels);;
  r <- assign_body "labels" flat_labels r;;
  flat_assignees <- lift (Js.map_prop "assignees" "assignee" assignees);;
  r <- assign_body "assignees" flat_assignees r;;
  ret (with_endpoint (repos owner repository ++ "/issues") r).

Definition issue_createComment (owner repository : json) (i : nat) (r : request)
  : M request :=
  let r := with_method "POST" r in
  issueNumber <- param "issueNumber" i;;
  text <- param "body" i;;
  r <- assign_body "body" text r;;
  ret (with_endpoint (repos owner repository ++ "/issues/"
                        ++ Js.to_string issueNumber ++ "/comments") r).

(** [if (body.k !== undefined) body.k = body.k.map((data) => data[field])] *)
Definition flatten_if_present (k field : string) (r : request) : M request :=
  v <- lift (Js.get k (body r));;
  if Js.is_undefined v then ret r
  else flat <- lift (Js.map_prop ("body." ++ k) field v);; assign_body k flat r.

Definition issue_edit (owner repository : json) (i : nat) (r : request)
  : M request :=
  let r := with_method "PATCH" r in
  issueNumber <- param "issueNumber" i;;
  editFields <- param_or "editFields" i (JObj []);;
  let r := with_body editFields r in
  r <- flatten_if_present "labels" "label" r;;
  r <- flatten_if_present "assignees" "assignee" r;;
  ret (with_endpoint (repos owner repository ++ "/issues/"
                        ++ Js.to_string issueNumber) r).

Definition issue_get (owner repository : json) (i : nat) (r : request)
  : M request :=
  let r := with_method "GET" r in
  issueNumber <- param "issueNumber" i;;
  ret (with_endpoint (repos owner repository ++ "/issues/"
                        ++ Js.to_string issueNumber) r).

Definition issue_lock (owner repository : json) (i : nat) (r : request)
  : M request :=
  let r := with_method "PUT" r in
  issueNumber <- param "issueNumber" i;;
  lockReason <- param "lockReason" i;;
  r <- assign_qs "lock_reason" lockReason r;;
  ret (with_endpoint (repos owner repository ++ "/issues/"
                        ++ Js.to_string issueNumber ++ "/lock") r).

(** *** The pagination switch *)

(** [returnAll = this.getNodeParameter('returnAll', 0)] *)
Definition read_returnAll : M json :=
  v <- param "returnAll" 0;;
  fun s => (Ok v, with_returnAll v s).

(** [if (returnAll === false) qs.per_page = this.getNodeParameter('limit', 0)] *)
Definition limit_page (v : json) (r : request) : M request :=
  if Js.is_false v then
    limit <- param "limit" 0;; assign_qs "per_page" limit r
  else ret r.

(** *** release *)

Definition release_create (owner repository : json) (i : nat) (r : request)
  : M request :=
  let r := with_method "POST" r in
  additionalFields <- param_or "additionalFields" i (JObj []);;
  let r := with_body additionalFields r in
  releaseTag <- param "releaseTag" i;;
  r <- assign_body "tag_name" releaseTag r;;
  ret (with_endpoint (repos owner repository ++ "/releases") r).

Definition release_by_id (m : string) (owner repository : json) (i : nat)
    (r : request) : M request :=
  let r := with_method m r in
  releaseId <- param "release_id" i;;
  ret (with_endpoint (repos owner repository ++ "/releases/"
                        ++ Js.to_string releaseId) r).

Definition release_getAll (owner repository : json) (r : request) : M request :=
  let r := with_method "GET" r in
  let r := with_endpoint (repos owner repository ++ "/releases") r in
  v <- read_returnAll;;
  limit_page v r.

Definition release_update (owner repository : json) (i : nat) (r : request)
  : M request :=
  let r := with_method "PATCH" r in
  releaseId <- param "release_id" i;;
  additionalFields <- param_or "additionalFields" i (JObj []);;
  let r := with_body additionalFields r in
  ret (with_endpoint (repos owner repository ++ "/releases/"
                        ++ Js.to_string releaseId) r).

(** The release branch is a sequence of [if]s, not an [else if] chain. *)
Definition release (operation owner repository : json) (i : nat) (r : request)
  : M request :=
  r <- (if Js.is_str operation "create"
        then release_create owner repository i r else ret r);;
  r <- (if Js.is_str operation "delete"
        then release_by_id "DELETE" owner repository i r else ret r);;
  r <- (if Js.is_str operation "get"
        then release_by_id "GET" owner repository i r else ret r);;
  r <- (if Js.is_str operation "getAll"
        then release_getAll owner repository r else ret r);;
  if Js.is_str operation "update"
  then release_update owner repository i r else ret r.

(** *** repository *)

Definition repository_getIssues (owner repository : json) (i : nat) (r : request)
  : M request :=
  let r := with_method "GET" r in
  filters <- param "getRepositoryIssuesFilters" i;;
  let r := with_qs filters r in
  let r := with_endpoint (repos owner repository ++ "/issues") r in
  v <- read_returnAll;;
  limit_page v r.

Definition repository_ (operation owner repository : json) (i : nat)
    (r : request) : M request :=
  if Js.is_str operation "listPopularPaths" then
    ret (with_endpoint (repos owner repository ++ "/traffic/popular/paths")
           (with_method "GET" r))
  else if Js.is_str operation "listReferrers" then
    ret (with_endpoint (repos owner repository ++ "/traffic/popular/referrers")
           (with_method "GET" r))
  else if Js.is_str operation "get" then
    ret (with_endpoint (repos owner repository) (with_method "GET" r))
  else if Js.is_str operation "getLicense" then
    ret (with_endpoint (repos owner repository ++ "/license") (with_method "GET" r))
  else if Js.is_str operation "getIssues" then
    repository_getIssues owner repository i r
  else ret r.

(** *** review *)

(** [`/repos/${owner}/${repository}/pulls/${pullRequestNumber}/reviews`] *)
Definition reviews (owner repository pullRequestNumber : json) : string :=
  repos owner repository ++ "/pulls/" ++ Js.to_string pullRequestNumber ++ "/reviews".

Definition review_get (owner repository : json) (i : nat) (r : request)
  : M request :=
  let r := with_method "GET" r in
  reviewId <- param "reviewId" i;;
  pullRequestNumber <- param "pullRequestNumber" i;;
  ret (with_endpoint (reviews owner repository pullRequestNumber ++ "/"
                        ++ Js.to_string reviewId) r).

Definition review_getAll (owner repository : json) (i : nat) (r : request)
  : M request :=
  let r := with_method "GET" r in
  v <- read_returnAll;;
  pullRequestNumber <- param "pullRequestNumber" i;;
  r <- limit_page v r;;
  ret (with_endpoint (reviews owner repository pullRequestNumber) r).

(** [snakeCase(v).toUpperCase()] *)
Definition upper_snake (v : json) : outcome json :=
  match v with
  | JStr s => Ok (JStr (ChangeCase.toUpperCase (ChangeCase.snakeCase s)))
  | _ => Throw (TypeError "input.replace is not a function")
  end.

Definition review_create (owner repository : json) (i : nat) (r : request)
  : M request :=
  let r := with_method "POST" r in
  pullRequestNumber <- param "pullRequestNumber" i;;
  additionalFields <- param "additionalFields" i;;
  let fields := match body r with JObj o => o | _ => [] end in
  let r := with_body (JObj (Js.object_assign fields additionalFields)) r in
  name <- param "event" i;;
  event <- lift (upper_snake name);;
  r <- assign_body "event" event r;;
  r <- (if Js.is_str event "REQUEST_CHANGES" || Js.is_str event "COMMENT" then
          text <- param "body" i;; assign_body "body" text r
        else ret r);;
  ret (with_endpoint (reviews owner repository pullRequestNumber) r).

Definition review_update (owner repository : json) (i : nat) (r : request)
  : M request :=
  let r := with_method "PUT" r in
  pullRequestNumber <- param "pullRequestNumber" i;;
  reviewId <- param "reviewId" i;;
  text <- param "body" i;;
  r <- assign_body "body" text r;;
  ret (with_endpoint (reviews owner repository pullRequestNumber ++ "/"
                        ++ Js.to_string reviewId) r).

(** *** user *)

Definition user_getRepositories (owner : json) (r : request) : M request :=
  let r := with_method "GET" r in
  let r := with_endpoint ("/users/" ++ Js.to_string owner ++ "/repos") r in
  v <- read_returnAll;;
  limit_page v r.

Definition user_invite (i : nat) (r : request) : M request :=
  let r := with_method "POST" r in
  org <- param "organization" i;;
  let r := with_endpoint ("/orgs/" ++ Js.to_string org ++ "/invitations") r in
  email <- param "email" i;;
  assign_body "email" email r.

(** *** The router: the ladder over [resource] and [operation] *)

Definition route (resource operation owner repository : json) (i : nat)
    (r : request) : M request :=
  if Js.is_str resource "file" then
    if existsb (Js.is_str operation) ["create"; "edit"] then
      file_create_edit operation owner repository i r
    else if Js.is_str operation "delete" then file_delete owner repository i r
    else if Js.is_str operation "get" || Js.is_str operation "list" then
      file_get_list owner repository i r
    else ret r
  else if Js.is_str resource "issue" then
    if Js.is_str operation "create" then issue_create owner repository i r
    else if Js.is_str operation "createComment" then
      issue_createComment owner repository i r
    else if Js.is_str operation "edit" then issue_edit owner repository i r
    else if Js.is_str operation "get" then issue_get owner repository i r
    else if Js.is_str operation "lock" then issue_lock owner repository i r
    else ret r
  else if Js.is_str resource "release" then
    release operation owner repository i r
  else if Js.is_str resource "repository" then
    repository_ operation owner repository i r
  else if Js.is_str resource "review" then
    if Js.is_str operation "get" then review_get owner repository i r
    else if Js.is_str operation "getAll" then review_getAll owner repository i r
    else if Js.is_str operation "create" then review_create owner repository i r
    else if Js.is_str operation "update" then review_update owner repository i r
    else ret r
  else if Js.is_str resource "user" then
    if Js.is_str operation "getRepositories" then user_getRepositories owner r
    else if Js.is_str operation "invite" then user_invite i r
    else ret r
  else
    throw (NodeOperationError
             ("The resource " ++ Js.dquote ++ Js.to_string resource ++ Js.dquote
                ++ " is not known!")).

(** *** One pass of the loop body *)

(** [`${resource}:${operation}`] *)
Definition fullOperation (resource operation : json) : string :=
  Js.to_string resource ++ ":" ++ Js.to_string operation.

(** The [file:get] branch taken when [asBinaryProperty === true]: the
    response becomes a binary property of a new item, and the routine
    returns. *)
Definition as_binary_property (responseData : json) (i : nat) : M output :=
  if Js.isArray responseData then
    throw (NodeOperationError "File Path is a folder, not a file.")
  else
    binaryPropertyName <- param "binaryPropertyName" i;;
    old <- item_at i;;
    m <- alloc_map [];;
    newItem <- alloc_item (mkItem (json_of old) (Some m));;
    match binary old with
    | Some b => e <- entries_of b;; update_map m (fun target => Js.assign_all target e)
    | None => ret tt
    end;;;
    content <- lift (Js.get "content" responseData);;
    buffer <- lift (buffer_base64 content);;
    path <- lift (Js.get "path" responseData);;
    prepared <- lift (prepareBinaryData this buffer path);;
    d <- alloc_binary prepared;;
    update_map m (Js.put (Js.to_string binaryPropertyName) d);;;
    set_item i newItem;;;
    fun s => (Ok (PrepareOutputData (items s)), s).

(** What becomes of a response: pushed, spread into [returnData], or
    dropped. *)
Definition accumulate (full : string) (responseData : json) : M unit :=
  if Js.includes overwriteDataOperations full then push responseData
  else if Js.includes overwriteDataOperationsArray full then push_apply responseData
  else ret tt.

(** The body of the [try] block for item [i]. *)
Definition process_item (resource operation : json) (i : nat) : M completion :=
  let full := fullOperation resource operation in
  let r := reset in
  owner <- (if negb (String.eqb full "user:invite")
            then param "owner" i else ret (JStr ""));;
  repository <- (if negb (String.eqb full "user:getRepositories")
                    && negb (String.eqb full "user:invite")
                 then param "repository" i else ret (JStr ""));;
  r <- route resource operation owner repository i r;;
  all <- (fun s => (Ok (returnAll s), s));;
  responseData <- (if Js.is_true all
                   then githubApiRequestAllItems (requestMethod r) (endpoint r)
                          (body r) (qs r)
                   else githubApiRequest (requestMethod r) (endpoint r)
                          (body r) (qs r));;
  early <- (if String.eqb full "file:get" then
              asBinaryProperty <- param "asBinaryProperty" i;;
              if Js.is_true asBinaryProperty then
                out <- as_binary_property responseData i;; ret (Some out)
              else ret None
            else ret None);;
  match early with
  | Some out => ret (Return out)
  | None =>
      let responseData :=
        if String.eqb full "release:delete"
        then JObj [("success", JBool true)] else responseData in
      accumulate full responseData;;;
      ret Next
  end.

(** The [catch] block. *)
Definition on_error (full : string) (i : nat) (e : error) : M completion :=
  if continueOnFail this then
    (if Js.includes overwriteDataOperations full
        || Js.includes overwriteDataOperationsArray full
     then push (error_object e)
     else set_item_json i (error_object e));;;
    ret Next
  else throw e.

(** [try { ... } catch (error) { ... }] for item [i]. *)
Definition iteration (resource operation : json) (i : nat) : M completion :=
  fun s => match process_item resource operation i s with
           | (Ok c, s') => (Ok c, s')
           | (Throw e, s') => on_error (fullOperation resource operation) i e s'
           end.

(** [for (let i = 0; i < items.length; i++)], with [n] items still to go. *)
Fixpoint loop (resource operation : json) (n i : nat) : M (option output) :=
  match n with
  | 0 => ret None
  | S n' =>
      c <- iteration resource operation i;;
      match c with
      | Return out => ret (Some out)
      | Next => loop resource operation n' (S i)
      end
  end.

Definition initial : state :=
  mkState (fst (getInputData this)) (snd (getInputData this)) [] (JBool false) [].

(** The [return] after the loop. *)
Definition finish (resource operation : json) : M output :=
  fun s =>
    if Js.includes overwriteDataOperations (fullOperation resource operation)
       || Js.includes overwriteDataOperationsArray (fullOperation resource operation)
    then (Ok (ReturnJsonArray (returnData s)), s)
    else (Ok (PrepareOutputData (items s)), s).

(** The run from item [i] on, with [n] items still to go: the rest of the
    loop and the final [return]. *)
Definition rest (resource operation : json) (n i : nat) : M output :=
  early <- loop resource operation n i;;
  match early with
  | Some out => ret out
  | None => finish resource operation
  end.

Definition run : M output :=
  operation <- param "operation" 0;;
  resource <- param "resource" 0;;
  fun s => rest resource operation (length (items s)) 0 s.

Definition execute : outcome output * state := run initial.

End Execute.

Arguments repos : simpl never.
Arguments contents : simpl never.
Arguments reviews : simpl never.

(** ** Sample hosts *)

Module Sample.

(** A host whose parameters are given per item by a key list, whose
    [prepareBinaryData] stores the buffer as text/plain, and whose runtime
    rejects a buffer made of anything but a string. *)
Definition host (parameters : nat -> IDataObject) (input : store * list loc)
    (continue : bool) (answer : list call -> call -> outcome json)
  : IExecuteFunctions :=
  mkHost input
    (fun name i fallback =>
       match Js.lookup name (parameters i), fallback with
       | Some v, _ => Ok v
       | None, Some v => Ok v
       | None, None => Throw (HostError ("Could not get parameter " ++ name))
       end)
    continue
    (fun buffer path =>
       Ok (mkBinaryData (Base64.encode buffer) "text/plain" (Some (Js.to_string path))))
    answer
    (fun _ => Throw (TypeError "The first argument must be of type string"))
    (fun _ => 0).

(** Two item objects, the second with one attachment; the input array holds
    three items. *)
Definition stored : store :=
  mkStore [mkItem (JObj [("id", JNum 1)]) None;
           mkItem (JObj [("id", JNum 2)]) (Some 0);
           mkItem (JObj [("id", JNum 3)]) None]
          [[("readme", 0)]]
          [mkBinaryData "QUJD" "text/plain" None].

Definition input : store * list loc := (stored, [0; 1; 2]).

Definition always (v : json) : list call -> call -> outcome json :=
  fun _ _ => Ok v.

(** Fails at the [k]-th call of the run and answers [v] otherwise. *)
Definition fails_at (k : nat) (v : json) : list call -> call -> outcome json :=
  fun made _ => if Nat.eqb (length made) k then Throw (HostError "Not Found") else Ok v.

End Sample.

(** ** Review events *)

(** The values of the [event] option of [review:create]. *)
Definition review_events : list string :=
  ["approve"; "requestChanges"; "comment"; "pending"].

Definition claimed_event (name : string) : string :=
  if String.eqb name "approve" then "APPROVE"
  else if String.eqb name "requestChanges" then "REQUEST_CHANGES"
  else if String.eqb name "comment" then "COMMENT"
  else if String.eqb name "pending" then "PENDING"
  else name.

Definition needs_body (name : string) : bool :=
  String.eqb name "requestChanges" || String.eqb name "comment".


(** ** Collections of single-field objects *)

(** [[{k: v1}, {k: v2}, ...]] *)
Definition wrapped (k : string) (vs : list json) : json :=
  JArr (List.map (fun v => JObj [(k, v)]) vs).


(** ** The routing table of the specification *)

Module Escaping.

(** A single path segment with everything but the unreserved characters
    percent-encoded, as [encodeURIComponent] does. *)
Definition unreserved (c : ascii) : bool :=
  Chars.is_alnum c || Chars.mem c "-_.!~*'()".

Fixpoint segment (s : string) : string :=
  match s with
  | EmptyString => EmptyString
  | String c r =>
      if unreserved c then String c (segment r) else Uri.escape c ++ segment r
  end.

(** A path of several segments: the separators stay, each segment is
    encoded as above. *)
Fixpoint path (s : string) : string :=
  match s with
  | EmptyString => EmptyString
  | String c r =>
      if unreserved c || Ascii.eqb c "/" then String c (path r)
      else Uri.escape c ++ path r
  end.

End Escaping.

(** An endpoint template: owner, repository and the identifiers by parameter
    name, to the endpoint. *)
Definition template : Type := json -> json -> (string -> json) -> string.

(** The (resource, operation) pairs of the routing rules with the method and
    the endpoint template of each. [seg] renders a value interpolated as one
    path segment, [file] renders the file path. *)
Definition routing_table (seg file : json -> string)
  : list (string * string * string * template) :=
  let repo : json -> json -> string :=
    fun o r => ("/repos/" ++ seg o ++ "/" ++ seg r)%string in
  let content : template :=
    fun o r p => (repo o r ++ "/contents/" ++ file (p "filePath"))%string in
  let issue_ : template :=
    fun o r p => (repo o r ++ "/issues/" ++ seg (p "issueNumber"))%string in
  let release_ : template :=
    fun o r p => (repo o r ++ "/releases/" ++ seg (p "release_id"))%string in
  let pulls : template :=
    fun o r p =>
      (repo o r ++ "/pulls/" ++ seg (p "pullRequestNumber") ++ "/reviews")%string in
  let review_ : template :=
    fun o r p => (pulls o r p ++ "/" ++ seg (p "reviewId"))%string in
  [ ("file", "create", "PUT", content);
    ("file", "edit", "PUT", content);
    ("file", "delete", "DELETE", content);
    ("file", "get", "GET", content);
    ("file", "list", "GET", content);
    ("issue", "create", "POST", fun o r p => (repo o r ++ "/issues")%string);
    ("issue", "createComment", "POST", fun o r p => (issue_ o r p ++ "/comments")%string);
    ("issue", "edit", "PATCH", issue_);
    ("issue", "get", "GET", issue_);
    ("issue", "lock", "PUT", fun o r p => (issue_ o r p ++ "/lock")%string);
    ("release", "create", "POST", fun o r p => (repo o r ++ "/releases")%string);
    ("release", "delete", "DELETE", release_);
    ("release", "get", "GET", release_);
    ("release", "getAll", "GET", fun o r p => (repo o r ++ "/releases")%string);
    ("release", "update", "PATCH", release_);
    ("repository", "get", "GET", fun o r p => repo o r);
    ("repository", "getLicense", "GET", fun o r p => (repo o r ++ "/license")%string);
    ("repository", "getIssues", "GET", fun o r p => (repo o r ++ "/issues")%string);
    ("repository", "listPopularPaths", "GET",
      fun o r p => (repo o r ++ "/traffic/popular/paths")%string);
    ("repository", "listReferrers", "GET",
      fun o r p => (repo o r ++ "/traffic/popular/referrers")%string);
    ("review", "get", "GET", review_);
    ("review", "getAll", "GET", pulls);
    ("review", "create", "POST", pulls);
    ("review", "update", "PUT", review_);
    ("user", "getRepositories", "GET",
      fun o r p => ("/users/" ++ seg o ++ "/repos")%string);
    ("user", "invite", "POST",
      fun o r p => ("/orgs/" ++ seg (p "organization") ++ "/invitations")%string) ].

(** The value of an identifier, a parameter that names a file, an issue, a
    release, a pull request, a review or an organization, for item [i],
    where the host has one. *)
Definition identifier (this : IExecuteFunctions) (i : nat) (name : string) : json :=
  match getNodeParameter this name i None with
  | Ok v => v
  | Throw _ => JUndefined
  end.

(** The router agrees with a table: whenever it yields a request for a pair
    of the table, the request has the method of the pair and the endpoint
    its template gives for the owner, the repository and the identifiers of
    the item. Nothing is asked of the host: a parameter the operation does
    not have may be unreadable. *)
Definition router_follows (table : list (string * string * string * template)) : Prop :=
  forall (this : IExecuteFunctions) (i : nat) (resource operation verb : string)
         (tpl : template) (owner repository : json) (s s' : state) (r : request),
    In (resource, operation, verb, tpl) table ->
    route this (JStr resource) (JStr operation) owner repository i reset s = (Ok r, s') ->
    requestMethod r = verb /\ endpoint r = tpl owner repository (identifier this i).

(** Every interpolated value escaped, as the routing rules are stated. *)
Definition escaped_table : list (string * string * string * template) :=
  routing_table (fun v => Escaping.segment (Js.to_string v))
                (fun v => Escaping.path (Js.to_string v)).

(** The values interpolated as they are, the file path through [encodeURI]. *)
Definition verbatim_table : list (string * string * string * template) :=
  routing_table Js.to_string (fun v => Uri.encodeURI (Js.to_string v)).

Module RouteSample.
(** An owner with a slash in it. *)
Definition parameters (i : nat) : IDataObject :=
  [("resource", JStr "repository"); ("operation", JStr "get");
   ("owner", JStr "octo/cat"); ("repository", JStr "hello");
   ("filePath", JStr "README.md"); ("issueNumber", JNum 1);
   ("release_id", JNum 1); ("pullRequestNumber", JNum 1);
   ("reviewId", JNum 1); ("organization", JStr "octo")].
Definition this : IExecuteFunctions :=
  Sample.host parameters Sample.input false (Sample.always (JObj [])).
(** An issue number too large to be printed digit by digit. *)
Definition large (i : nat) : IDataObject :=
  Js.assign "issueNumber" (JNum (10 ^ 21)) (parameters i).
Definition numbered : IExecuteFunctions :=
  Sample.host large Sample.input false (Sample.always (JObj [])).
End RouteSample.

(** ** Pagination *)

Definition paginated : list (string * string) :=
  [("release", "getAll"); ("repository", "getIssues"); ("review", "getAll");
   ("user", "getRepositories")].

(** The parameters a paginated operation reads for item [i], with the values
    they have. *)
Definition page_parameters (this : IExecuteFunctions) (i : nat) (resource : string)
    (owner repository pullRequestNumber : json) (filters : IDataObject) : Prop :=
  getNodeParameter this "owner" i None = Ok owner
  /\ (resource <> "user" -> getNodeParameter this "repository" i None = Ok repository)
  /\ (resource = "review" ->
      getNodeParameter this "pullRequestNumber" i None = Ok pullRequestNumber)
  /\ (resource = "repository" ->
      getNodeParameter this "getRepositoryIssuesFilters" i None = Ok (JObj filters)).

Definition page_endpoint (resource : string) (owner repository pullRequestNumber : json)
  : string :=
  if String.eqb resource "release" then repos owner repository ++ "/releases"
  else if String.eqb resource "repository" then repos owner repository ++ "/issues"
  else if String.eqb resource "review" then reviews owner repository pullRequestNumber
  else "/users/" ++ Js.to_string owner ++ "/repos".

Definition page_query (resource : string) (all : bool) (limit : json)
    (filters : IDataObject) : IDataObject :=
  let q := if String.eqb resource "repository" then filters else [] in
  if all then q else Js.assign "per_page" limit q.

(** The one call a paginated operation makes for an item. *)
Definition page_call (resource : string) (all : bool) (limit : json)
    (owner repository pullRequestNumber : json) (filters : IDataObject) : call :=
  mkCall (if all then AllItems else SingleRequest)
    (mkRequest "GET" (page_endpoint resource owner repository pullRequestNumber)
       (JObj []) (JObj (page_query resource all limit filters))).

(** The host with another parameter accessor. *)
Definition with_parameters (g : string -> nat -> option json -> outcome json)
    (this : IExecuteFunctions) : IExecuteFunctions :=
  mkHost (getInputData this) g (continueOnFail this) (prepareBinaryData this)
    (respond this) (Buffer_from this) (ToLength this).

(** ** The SHA lookup *)

(** The request [getFileSha] makes. *)
Definition sha_lookup (owner repository filePath branch : json) : call :=
  mkCall SingleRequest
    (mkRequest "GET" (contents owner repository filePath) (JObj [])
       (JObj (if Js.is_undefined branch then [] else [("ref", branch)]))).

(** The branch a commit is scoped to: [branch.branch] of the additional
    parameters, when both are set. *)
Definition commit_branch (additionalParameters : IDataObject) : json :=
  match Js.lookup "branch" additionalParameters with
  | Some (JObj fields) =>
      match Js.lookup "branch" fields with
      | Some inner => if Js.truthy inner then inner else JUndefined
      | None => JUndefined
      end
  | _ => JUndefined
  end.

(** The state after the lookup. *)
Definition looked (s : state) (lookup : call) : state :=
  with_trace (trace s ++ [lookup]) s.

Definition mutating_verb (operation : string) : string :=
  if String.eqb operation "edit" then "PUT" else "DELETE".

(** ** [file:get] as a binary property *)

(** The call a [file:get] pass makes, by the helper the state selects. *)
Definition file_get_call (s : state) (owner repository filePath : json) : call :=
  mkCall (if Js.is_true (returnAll s) then AllItems else SingleRequest)
    (mkRequest "GET" (contents owner repository filePath) (JObj []) (JObj [])).

(** The state after that call. *)
Definition called (s : state) (owner repository filePath : json) : state :=
  with_trace (trace s ++ [file_get_call s owner repository filePath]) s.

(** The text without its line feeds: the API breaks the base64 text of a
    file into lines. *)
Fixpoint strip_line_feeds (s : string) : string :=
  match s with
  | EmptyString => EmptyString
  | String c r =>
      if Ascii.eqb c "010" then strip_line_feeds r
      else String c (strip_line_feeds r)
  end.

(** The attachments item [old] carries in store [st]. *)
Definition attachments (st : store) (old : INodeExecutionData) (e : IBinaryKeyData)
  : Prop :=
  match binary old with
  | Some b => binaryMaps st !! b = Some e
  | None => e = []
  end.

(** The state a [file:get] pass that attaches [prepared] under [name] leaves:
    one new item object, one new mapping (a copy of the entries [e] with the
    attachment written under [name]) and one new attachment object, the new
    item in place [i] of the array, and the call on the trace. *)
Definition attached (s : state) (i : nat) (old : INodeExecutionData)
    (e : IBinaryKeyData) (name : string) (prepared : IBinaryData) (c : call) : state :=
  let st := objects s in
  mkState
    (mkStore (itemObjs st ++ [mkItem (json_of old) (Some (length (binaryMaps st)))])
       (binaryMaps st
          ++ [Js.put name (length (binaryObjs st)) (Js.assign_all [] e)])
       (binaryObjs st ++ [prepared]))
    (<[i := length (itemObjs st)]> (items s))
    (returnData s) (returnAll s) (trace s ++ [c]).

(** ** What a computation may change *)

(** Every run of [m] relates the state it starts in to the one it ends in,
    whether it returns or throws. *)
Definition respects (R : state -> state -> Prop) {A : Type} (m : M A) : Prop :=
  forall s out s', m s = (out, s') -> R s s'.

(** ** Well-formed states *)



(** Whether a failing item's error goes to [returnData]. *)
Definition listed (resource operation : json) : bool :=
  Js.includes overwriteDataOperations (fullOperation resource operation)
  || Js.includes overwriteDataOperationsArray (fullOperation resource operation).


(** ** Sample runs *)

Module FileSample.
Definition parameters (i : nat) : IDataObject :=
  [("resource", JStr "file"); ("operation", JStr "get");
   ("owner", JStr "octo"); ("repository", JStr "hello");
   ("filePath", JStr "docs/read me.txt");
   ("asBinaryProperty", JBool true); ("binaryPropertyName", JStr "data")].
Definition file : json :=
  JObj [("content", JStr "aGVsbG8="); ("path", JStr "docs/read me.txt");
        ("sha", JStr "3f5a")].
Definition this : IExecuteFunctions :=
  Sample.host parameters Sample.input false (Sample.always file).
Definition folder : IExecuteFunctions :=
  Sample.host parameters Sample.input false (Sample.always (JArr [file])).
Definition prepared : IBinaryData :=
  mkBinaryData "aGVsbG8=" "text/plain" (Some "docs/read me.txt").
(** The same file with its base64 text in two lines, as the API sends it. *)
Definition in_lines : json :=
  JObj [("content",
         JStr ("aGVs" ++ String "010" ("bG8=" ++ String "010" EmptyString)));
        ("path", JStr "docs/read me.txt"); ("sha", JStr "3f5a")].
Definition lines : IExecuteFunctions :=
  Sample.host parameters Sample.input false (Sample.always in_lines).
End FileSample.

Module EditSample.
Definition parameters (i : nat) : IDataObject :=
  [("resource", JStr "file"); ("operation", JStr "edit");
   ("owner", JStr "octo"); ("repository", JStr "hello");
   ("filePath", JStr "docs/a.txt"); ("commitMessage", JStr "update");
   ("binaryData", JBool false); ("fileContent", JStr "hello");
   ("additionalParameters", JObj [("branch", JObj [("branch", JStr "dev")])])].
Definition answer (made : list call) (c : call) : outcome json :=
  if String.eqb (requestMethod (sent c)) "GET"
  then Ok (JObj [("sha", JStr "3f5a")]) else Ok (JObj [("committed", JBool true)]).
Definition this : IExecuteFunctions :=
  Sample.host parameters Sample.input false answer.
End EditSample.

Module ReviewSample.
Definition parameters (i : nat) : IDataObject :=
  [("resource", JStr "review"); ("operation", JStr "create");
   ("owner", JStr "octo"); ("repository", JStr "hello");
   ("pullRequestNumber", JNum 7); ("event", JStr "requestChanges");
   ("body", JStr "please fix"); ("additionalFields", JObj [("commitId", JStr "3f5a")])].
Definition this : IExecuteFunctions :=
  Sample.host parameters Sample.input false (Sample.always (JObj [])).
End ReviewSample.

Module IssueSample.
Definition parameters (i : nat) : IDataObject :=
  [("resource", JStr "issue"); ("operation", JStr "create");
   ("owner", JStr "octo"); ("repository", JStr "hello");
   ("title", JStr "Crash"); ("body", JStr "It crashes");
   ("labels", JArr [JObj [("label", JStr "a")]; JObj [("label", JStr "b")]]);
   ("assignees", JArr [JObj [("assignee", JStr "ann")]]);
   ("issueNumber", JNum 5);
   ("editFields",
     JObj [("title", JStr "Crash on start");
           ("labels", JArr [JObj [("label", JStr "bug")]])])].
Definition this : IExecuteFunctions :=
  Sample.host parameters Sample.input false (Sample.always (JObj [])).
End IssueSample.

Module PageSample.
(** The second item asks for all pages with another limit; the first asks
    for one page of 50. *)
Definition parameters (i : nat) : IDataObject :=
  [("resource", JStr "review"); ("operation", JStr "getAll");
   ("owner", JStr "octo"); ("repository", JStr "hello");
   ("pullRequestNumber", JNum (7 + Z.of_nat i));
   ("returnAll", JBool (Nat.eqb i 1)); ("limit", JNum (50 + Z.of_nat i))].
Definition page : list json := [JObj [("id", JNum 1)]; JObj [("id", JNum 2)]].
Definition this : IExecuteFunctions :=
  Sample.host parameters Sample.input false (Sample.always (JArr page)).
(** The accessor of a host whose every item asks for one page of 50. *)
Definition uniform (name : string) (i : nat) (fallback : option json)
  : outcome json :=
  if Nat.eqb i 0 then getNodeParameter this name i fallback
  else if String.eqb name "returnAll" then Ok (JBool false)
  else if String.eqb name "limit" then Ok (JNum 50)
  else getNodeParameter this name i fallback.
End PageSample.

Module ErrorSample.
Definition parameters (i : nat) : IDataObject :=
  [("owner", JStr "octo"); ("repository", JStr "hello");
   ("issueNumber", JNum 5); ("lockReason", JStr "spam")].
(** The first call of the run fails. *)
Definition this : IExecuteFunctions :=
  Sample.host parameters Sample.input true (Sample.fails_at 0 (JObj [])).
End ErrorSample.

(** ** Proof tools *)

(** Unfolds the accessors and the monad. *)
Ltac unfold_run :=
  unfold assign_body, assign_qs, param, param_or; unfold bind, lift, ret, throw.

Ltac unfold_run_in H :=
  unfold assign_body, assign_qs, param, param_or in H;
  unfold bind, lift, ret, throw in H.

(** Splits on the innermost computation a hypothesis is stuck on, closing
    the branches in which the run has thrown. *)
Ltac innermost x :=
  lazymatch x with
  | context [match _ with _ => _ end] => fail
  | _ => idtac
  end.

Ltac crunch H :=
  repeat (simpl in H;
          match type of H with
          | context [match ?x with _ => _ end] =>
              innermost x; destruct x eqn:?; simpl in H; try discriminate H
          end).

(** The two answers of a helper call and the two results of spreading one. *)
Ltac answer_cases this :=
  (destruct (respond this _ _) as [v|]; simpl; [|reflexivity]);
  destruct (array_like this v); reflexivity.

(** The branches of the router. *)
Create HintDb router.
#[global] Hint Unfold route file_create_edit file_delete file_get_list
  issue_create issue_createComment issue_edit issue_get issue_lock flatten_if_present
  release release_create release_by_id release_getAll release_update
  repository_ repository_getIssues
  review_get review_getAll review_create review_update
  user_getRepositories user_invite read_returnAll limit_page : router.

(** Lookups in assigned objects, and the steps that respect a relation. *)
Create Rewrite HintDb objects.
Create HintDb respects.

(** Replaces the reads of a host with another accessor by those of the host,
    where [agree] says the two agree. *)
Ltac same_parameters agree :=
  unfold with_parameters;
  cbn [getInputData getNodeParameter continueOnFail prepareBinaryData respond
       Buffer_from ToLength];
  repeat (rewrite agree by (first [left; reflexivity | right; split; discriminate]));
  try reflexivity.

(** ** The stages of a pass *)

(** The request a pass sends once the router has filled the four variables,
    by the helper the [returnAll] variable selects. *)
Definition main_call (s : state) (r : request) : call :=
  mkCall (if Js.is_true (returnAll s) then AllItems else SingleRequest)
    (mkRequest (requestMethod r) (endpoint r) (body r) (qs r)).

(** The state after that request. *)
Definition requested (s : state) (r : request) : state :=
  with_trace (trace s ++ [main_call s r]) s.

(** What [release:delete] reports in place of the response. *)
Definition success : json := JObj [("success", JBool true)].

(** How a pass ends, from the state [s1] the router leaves and the router's
    result: the router threw; the request failed; the [asBinaryProperty]
    parameter of [file:get] could not be read; the response was attached as
    a binary property; or the response was accumulated. *)
Inductive pass_end (this : IExecuteFunctions) (full : string) (i : nat) (s1 : state)
  : outcome request -> outcome completion -> state -> Prop :=
| router_threw (e : error) : pass_end this full i s1 (Throw e) (Throw e) s1
| request_failed (r : request) (e : error) :
    respond this (trace s1) (main_call s1 r) = Throw e ->
    pass_end this full i s1 (Ok r) (Throw e) (requested s1 r)
| flag_unreadable (r : request) (v : json) (e : error) :
    respond this (trace s1) (main_call s1 r) = Ok v ->
    full = "file:get" ->
    getNodeParameter this "asBinaryProperty" i None = Throw e ->
    pass_end this full i s1 (Ok r) (Throw e) (requested s1 r)
| made_binary (r : request) (v flag : json) (result : outcome output) (s' : state) :
    respond this (trace s1) (main_call s1 r) = Ok v ->
    full = "file:get" ->
    getNodeParameter this "asBinaryProperty" i None = Ok flag ->
    Js.is_true flag = true ->
    as_binary_property this v i (requested s1 r) = (result, s') ->
    pass_end this full i s1 (Ok r)
      (match result with Ok o => Ok (Return o) | Throw e => Throw e end) s'
| accumulated (r : request) (v : json) (result : outcome unit) (s' : state) :
    respond this (trace s1) (main_call s1 r) = Ok v ->
    (full = "file:get" ->
     exists flag, getNodeParameter this "asBinaryProperty" i None = Ok flag
                  /\ Js.is_true flag = false) ->
    accumulate this full
      (if String.eqb full "release:delete" then success else v) (requested s1 r)
    = (result, s') ->
    pass_end this full i s1 (Ok r)
      (match result with Ok _ => Ok Next | Throw e => Throw e end) s'.

(** The operations that look the file's SHA up before the request. *)
Definition looked_up : list (string * string) :=
  [("file", "edit"); ("file", "delete")].

(** No page walk so far, and none to come from the [returnAll] variable. *)
Definition single_requests_only (s : state) : Prop :=
  returnAll s = JBool false /\ Forall (fun c => via c = SingleRequest) (trace s).

(** ** The shape of the output *)

(** The three ways a response reaches the output. *)
Inductive ResponseShape : Type := ReplaceSingle | ReplaceFlatten | PassThrough.

(** The shape an operation has by the two lists. *)
Definition shape_of (full : string) : ResponseShape :=
  if Js.includes overwriteDataOperations full then ReplaceSingle
  else if Js.includes overwriteDataOperationsArray full then ReplaceFlatten
  else PassThrough.

(** What a run returns when the lists alone decide: the collected results
    for an operation of either list, the items for one of neither. *)
Definition output_of (full : string) (s : state) : output :=
  match shape_of full with
  | PassThrough => PrepareOutputData (items s)
  | _ => ReturnJsonArray (returnData s)
  end.

(** The lists alone decide what every run returns. *)
Definition shape_by_lists_alone : Prop :=
  forall (this : IExecuteFunctions) (resource operation : json) (out : output)
         (s' : state),
    getNodeParameter this "operation" 0 None = Ok operation ->
    getNodeParameter this "resource" 0 None = Ok resource ->
    execute this = (Ok out, s') ->
    out = output_of (fullOperation resource operation) s'.

(** The owner and the repository of the pass of item [i]: the parameters,
    and the empty string for the operations that have none. *)
Definition pass_owner (this : IExecuteFunctions) (full : string) (i : nat)
    (owner : json) : Prop :=
  if String.eqb full "user:invite" then owner = JStr ""
  else getNodeParameter this "owner" i None = Ok owner.

Definition pass_repository (this : IExecuteFunctions) (full : string) (i : nat)
    (repository : json) : Prop :=
  if String.eqb full "user:getRepositories" || String.eqb full "user:invite"
  then repository = JStr ""
  else getNodeParameter this "repository" i None = Ok repository.

(** What is accumulated for a response [v]. *)
Definition reported (full : string) (v : json) : json :=
  if String.eqb full "release:delete" then success else v.

(** The state in which the loop reaches item [k]. *)
Fixpoint before_item (this : IExecuteFunctions) (resource operation : json)
    (k : nat) : state :=
  match k with
  | O => initial this
  | S k' => snd (iteration this resource operation k'
                   (before_item this resource operation k'))
  end.

(** What the pass of item [k] adds to [returnData] in a run that goes on
    after it. When the pass throws, which takes continue-on-fail: the error
    object, for an operation of either list. When it falls through: by the
    shape of the operation, the answer to the request the router built for
    the item with the owner and the repository of the pass, as one entry
    whatever it is, or its elements, or nothing. *)
Definition contribution (this : IExecuteFunctions) (resource operation : json)
    (k : nat) (part : list json) : Prop :=
  let full := fullOperation resource operation in
  let s := before_item this resource operation k in
  match process_item this resource operation k s with
  | (Throw e, _) =>
      continueOnFail this = true
      /\ part = match shape_of full with
                | PassThrough => []
                | _ => [error_object e]
                end
  | (Ok (Return _), _) => False
  | (Ok Next, _) =>
      exists (owner repository : json) (r : request) (s1 : state) (v : json),
        pass_owner this full k owner
        /\ pass_repository this full k repository
        /\ route this resource operation owner repository k reset s = (Ok r, s1)
        /\ respond this (trace s1) (main_call s1 r) = Ok v
        /\ match shape_of full with
           | ReplaceSingle => part = [reported full v]
           | ReplaceFlatten => array_like this (reported full v) = Ok part
           | PassThrough => part = []
           end
  end.

(** ** The ladder of the router *)

(** The resources the router knows. *)
Definition resources : list string :=
  ["file"; "issue"; "release"; "repository"; "review"; "user"].

(** The operations that have a branch, by resource. *)
Definition branches : list (string * list string) :=
  [ ("file", ["create"; "edit"; "delete"; "get"; "list"]);
    ("issue", ["create"; "createComment"; "edit"; "get"; "lock"]);
    ("release", ["create"; "delete"; "get"; "getAll"; "update"]);
    ("repository",
      ["listPopularPaths"; "listReferrers"; "get"; "getLicense"; "getIssues"]);
    ("review", ["get"; "getAll"; "create"; "update"]);
    ("user", ["getRepositories"; "invite"]) ].

(** The message for a resource that is not one of them. *)
Definition unknown_resource (resource : json) : error :=
  NodeOperationError
    ("The resource " ++ Js.dquote ++ Js.to_string resource ++ Js.dquote
       ++ " is not known!").

(** The release branch written as an [else if] chain. *)
Definition release_chain (this : IExecuteFunctions) (operation owner repository : json)
    (i : nat) (r : request) : M request :=
  if Js.is_str operation "create" then release_create this owner repository i r
  else if Js.is_str operation "delete"
  then release_by_id this "DELETE" owner repository i r
  else if Js.is_str operation "get" then release_by_id this "GET" owner repository i r
  else if Js.is_str operation "getAll" then release_getAll this owner repository r
  else if Js.is_str operation "update" then release_update this owner repository i r
  else ret r.

(** The parameters a pass does not read, by the full operation: [owner] for
    [user:invite], [repository] for [user:getRepositories] and [user:invite]. *)
Definition skipped (full : string) : list string :=
  (if String.eqb full "user:invite" then ["owner"] else [])
  ++ (if String.eqb full "user:getRepositories" || String.eqb full "user:invite"
      then ["repository"] else []).

(** ** The objects of the input *)

(** [st'] holds every object of [st] at its location, unchanged, and
    possibly more after them. *)
Definition extends (st st' : store) : Prop :=
  (exists more, itemObjs st' = itemObjs st ++ more)
  /\ (exists more, binaryMaps st' = binaryMaps st ++ more)
  /\ (exists more, binaryObjs st' = binaryObjs st ++ more).

(** The steps that respect a relation which need not allow every write. *)
Create HintDb footprint.

(** ** The credential test *)

Module CredentialTest.

(** [`${error}`] for the [TypeError] of a property read that the [try] block
    catches. *)
Definition caught (e : error) : string := ("TypeError: " ++ message e)%string.

(** [OptionsWithUri] of the request package, with the fields the test sets
    ([parse] is [json: true]). *)
Record OptionsWithUri : Type := mkOptions {
  method : string;
  headers : list (string * string);
  uri : json;
  parse : bool;
  timeout : Z
}.

(** [ICredentialsDecrypted]: [data] is [undefined] when there is none. *)
Record ICredentialsDecrypted : Type := mkCredential {
  data : json
}.

(** [INodeCredentialTestResult] *)
Record INodeCredentialTestResult : Type := mkResult {
  status : string;
  message : string
}.

(** What the promise of [this.helpers.request(options)] settles to: the
    parsed response, or a rejection, of which the test uses the string form
    [`${error}`] only. *)
Inductive settled : Type :=
| Resolved (response : json)
| Rejected (text : string).

Record ICredentialTestFunctions : Type := mkTester {
  request : OptionsWithUri -> settled
}.

Definition invalid_settings (text : string) : INodeCredentialTestResult :=
  mkResult "Error" ("Settings are not valid: " ++ text)%string.

(** [githubApiTest]: the result, or the exception that leaves the method,
    and the requests made. A property read of [undefined] or [null] inside
    the [try] block is caught as a [TypeError]. *)
Definition githubApiTest (this : ICredentialTestFunctions)
    (credential : ICredentialsDecrypted)
  : outcome INodeCredentialTestResult * list OptionsWithUri :=
  let credentials := data credential in
  match Js.get "server" credentials, Js.get "accessToken" credentials with
  | Ok server, Ok accessToken =>
      let baseUrl :=
        if Js.truthy server then server else JStr "https://api.github.com/user" in
      let options :=
        mkOptions "GET"
          [("User-Agent", "n8n");
           ("Authorization", ("token " ++ Js.to_string accessToken)%string)]
          baseUrl true 5000 in
      (match request this options with
       | Resolved response =>
           match Js.get "id" response with
           | Ok id =>
               if negb (Js.truthy id) then
                 match Js.get "error" response with
                 | Ok reason =>
                     Ok (mkResult "Error"
                           ("Token is not valid: " ++ Js.to_string reason)%string)
                 | Throw e => Ok (invalid_settings (caught e))
                 end
               else Ok (mkResult "OK" "Authentication successful!")
           | Throw e => Ok (invalid_settings (caught e))
           end
       | Rejected text => Ok (invalid_settings text)
       end, [options])
  | Throw e, _ | _, Throw e => (Throw e, [])
  end.

(** A tester whose request to [address] resolves with [response] and whose
    requests elsewhere are rejected. *)
Definition reachable (address : json) (response : json) : ICredentialTestFunctions :=
  mkTester (fun options =>
              if String.eqb (Js.to_string (uri options)) (Js.to_string address)
              then Resolved response
              else Rejected "Error: getaddrinfo ENOTFOUND").

End CredentialTest.

(** ** More sample hosts *)

Module LockSample.
Definition parameters (i : nat) : IDataObject :=
  [("resource", JStr "issue"); ("operation", JStr "lock");
   ("owner", JStr "octo"); ("repository", JStr "hello");
   ("issueNumber", JNum 5); ("lockReason", JStr "spam")].
Definition this : IExecuteFunctions :=
  Sample.host parameters Sample.input false
    (Sample.always (JObj [("locked", JBool true)])).
(** An accessor that answers another operation after the first item. *)
Definition drifting (name : string) (i : nat) (fallback : option json)
  : outcome json :=
  if Nat.eqb i 0 then getNodeParameter this name i fallback
  else if String.eqb name "operation" then Ok (JStr "get")
  else getNodeParameter this name i fallback.
End LockSample.

Module GistSample.
Definition parameters (i : nat) : IDataObject :=
  [("resource", JStr "gist"); ("operation", JStr "get");
   ("owner", JStr "octo"); ("repository", JStr "hello")].
Definition this : IExecuteFunctions :=
  Sample.host parameters Sample.input false (Sample.always (JObj [])).
End GistSample.

Module ReleaseSample.
Definition parameters (i : nat) : IDataObject :=
  [("resource", JStr "release"); ("operation", JStr "delete");
   ("owner", JStr "octo"); ("repository", JStr "hello");
   ("release_id", JNum (40 + Z.of_nat i))].
Definition this : IExecuteFunctions :=
  Sample.host parameters Sample.input false (Sample.always JUndefined).
End ReleaseSample.

Module InviteSample.
(** Neither [owner] nor [repository] is set. *)
Definition parameters (i : nat) : IDataObject :=
  [("resource", JStr "user"); ("operation", JStr "invite");
   ("organization", JStr "octo"); ("email", JStr "ann@example.com")].
Definition this : IExecuteFunctions :=
  Sample.host parameters Sample.input false (Sample.always (JObj [("id", JNum 1)])).
(** An accessor that has them. *)
Definition with_owner (name : string) (i : nat) (fallback : option json)
  : outcome json :=
  if String.eqb name "owner" || String.eqb name "repository" then Ok (JStr "octo")
  else getNodeParameter this name i fallback.
End InviteSample.

Module ListSample.
(** [file:list] on the path of a file: the API answers with the file. *)
Definition parameters (i : nat) : IDataObject :=
  [("resource", JStr "file"); ("operation", JStr "list");
   ("owner", JStr "octo"); ("repository", JStr "hello");
   ("filePath", JStr "docs/read me.txt")].
Definition this : IExecuteFunctions :=
  Sample.host parameters Sample.input false (Sample.always FileSample.file).
End ListSample.

Module UploadSample.
Definition parameters (i : nat) : IDataObject :=
  [("resource", JStr "file"); ("operation", JStr "create");
   ("owner", JStr "octo"); ("repository", JStr "hello");
   ("filePath", JStr "docs/a.txt"); ("commitMessage", JStr "add");
   ("binaryData", JBool true); ("binaryPropertyName", JStr "data")].
Definition this : IExecuteFunctions :=
  Sample.host parameters Sample.input false (Sample.always (JObj [])).
(** The same upload under a name that every object inherits. *)
Definition inherited (i : nat) : IDataObject :=
  Js.assign "binaryPropertyName" (JStr "constructor") (parameters i).
Definition by_constructor : IExecuteFunctions :=
  Sample.host inherited Sample.input false (Sample.always (JObj [])).
End UploadSample.

(** ** Responses that are not arrays *)

(** A response that [push.apply] spreads into no argument at all:
    [undefined], [null], or an object without a [length]. *)
Definition spreads_to_nothing (v : json) : Prop :=
  match v with
  | JUndefined | JNull => True
  | JObj o => Js.lookup "length" o = None
  | _ => False
  end.

(** * Properties *)
(** ** Objects as key lists *)

Lemma lookup_assign_same {V : Type} (k : string) (v : V) (o : list (string * V)) :
  Js.lookup k (Js.assign k v o) = Some v.
Proof.
  induction o as [|[k' v'] o IH]; simpl.
  - now rewrite String.eqb_refl.
  - destruct (String.eqb k k') eqn:E; simpl; rewrite E; auto.
Qed.

Lemma lookup_assign_other {V : Type} (k k' : string) (v : V) (o : list (string * V)) :
  k <> k' -> Js.lookup k (Js.assign k' v o) = Js.lookup k o.
Proof.
  intros Hne. induction o as [|[k0 v0] o IH]; simpl.
  - destruct (String.eqb_spec k k'); congruence.
  - destruct (String.eqb_spec k' k0) as [->|Hk]; simpl.
    + destruct (String.eqb_spec k k0); congruence.
    + now rewrite IH.
Qed.

Lemma put_assign {V : Type} (k : string) (v : V) (o : list (string * V)) :
  k <> "__proto__" -> Js.put k v o = Js.assign k v o.
Proof.
  intros H. unfold Js.put. now destruct (String.eqb_spec k "__proto__").
Qed.

Lemma put_proto {V : Type} (v : V) (o : list (string * V)) :
  Js.put "__proto__" v o = o.
Proof. reflexivity. Qed.

Lemma lookup_put_same {V : Type} (k : string) (v : V) (o : list (string * V)) :
  k <> "__proto__" -> Js.lookup k (Js.put k v o) = Some v.
Proof. intros H. rewrite put_assign by exact H. apply lookup_assign_same. Qed.

Lemma lookup_put_other {V : Type} (k k' : string) (v : V) (o : list (string * V)) :
  k <> k' -> Js.lookup k (Js.put k' v o) = Js.lookup k o.
Proof.
  intros H. unfold Js.put. destruct (String.eqb k' "__proto__"); [reflexivity|].
  now apply lookup_assign_other.
Qed.

Lemma lookup_assign_all_other {V : Type} (k : string) (src acc : list (string * V)) :
  Js.lookup k src = None ->
  Js.lookup k (Js.assign_all acc src) = Js.lookup k acc.
Proof.
  unfold Js.assign_all. revert acc.
  induction src as [|[k0 v0] src IH]; intros acc H; simpl in *; auto.
  destruct (String.eqb_spec k k0) as [->|Hk]; [discriminate|].
  rewrite IH by exact H. now apply lookup_put_other.
Qed.

Lemma assign_fresh {V : Type} (k : string) (v : V) (o : list (string * V)) :
  Js.lookup k o = None -> Js.assign k v o = o ++ [(k, v)].
Proof.
  induction o as [|[k0 v0] o IH]; simpl; auto.
  destruct (String.eqb k k0); [discriminate|]. intros H. now rewrite IH.
Qed.

Lemma lookup_app_None {V : Type} (k : string) (a b : list (string * V)) :
  Js.lookup k a = None -> Js.lookup k (a ++ b) = Js.lookup k b.
Proof.
  induction a as [|[k0 v0] a IH]; simpl; auto.
  destruct (String.eqb k k0); [discriminate|auto].
Qed.

Lemma lookup_not_in {V : Type} (k : string) (o : list (string * V)) :
  ~ In k (List.map fst o) -> Js.lookup k o = None.
Proof.
  induction o as [|[k0 v0] o IH]; simpl; auto.
  intros H. destruct (String.eqb_spec k k0) as [->|Hk]; [tauto|]. apply IH. tauto.
Qed.

(** Copying an object with distinct keys, none of them [__proto__], into an
    object that has none of them appends its entries in order. *)
Lemma assign_all_distinct {V : Type} (src acc : list (string * V)) :
  List.NoDup (List.map fst src) ->
  ~ In "__proto__" (List.map fst src) ->
  (forall k, In k (List.map fst src) -> Js.lookup k acc = None) ->
  Js.assign_all acc src = acc ++ src.
Proof.
  unfold Js.assign_all. revert acc.
  induction src as [|[k v] src IH]; intros acc Hnd Hproto Hfresh; simpl.
  - now rewrite app_nil_r.
  - inversion Hnd as [|? ? Hk Hnd']; subst. simpl in Hproto.
    rewrite put_assign by tauto.
    rewrite assign_fresh by (apply Hfresh; simpl; auto).
    rewrite IH; auto.
    + now rewrite <- app_assoc.
    + intros k0 Hin. rewrite lookup_app_None by (apply Hfresh; simpl; auto).
      simpl. destruct (String.eqb_spec k0 k) as [->|]; [contradiction|reflexivity].
Qed.

Lemma assign_all_empty {V : Type} (src : list (string * V)) :
  List.NoDup (List.map fst src) -> ~ In "__proto__" (List.map fst src) ->
  Js.assign_all [] src = src.
Proof. intros H P. now rewrite assign_all_distinct. Qed.

Lemma assign_all_nil {V : Type} (acc : list (string * V)) :
  Js.assign_all acc [] = acc.
Proof. reflexivity. Qed.

Lemma lookup_app_Some {V : Type} (k : string) (v : V) (a b : list (string * V)) :
  Js.lookup k a = Some v -> Js.lookup k (a ++ b) = Some v.
Proof.
  induction a as [|[x y] a IH]; simpl; [discriminate|].
  destruct (String.eqb k x); auto.
Qed.

Lemma lookup_rev {V : Type} (k : string) (o : list (string * V)) :
  List.NoDup (List.map fst o) -> Js.lookup k (rev o) = Js.lookup k o.
Proof.
  induction o as [|[k0 v0] o IH]; [reflexivity|].
  intros Hnd. inversion Hnd as [|? ? Hk Hnd']; subst. simpl.
  specialize (IH Hnd').
  destruct (String.eqb_spec k k0) as [->|Hne].
  - rewrite lookup_app_None by (rewrite IH; now apply lookup_not_in).
    simpl. now rewrite String.eqb_refl.
  - destruct (Js.lookup k (rev o)) as [v|] eqn:E.
    + rewrite (lookup_app_Some _ _ _ _ E). congruence.
    + rewrite lookup_app_None by exact E. simpl.
      destruct (String.eqb_spec k k0); congruence.
Qed.

(** A copy has the entries of its source under every key but [__proto__]. *)
Lemma lookup_assign_all {V : Type} (k : string) (src acc : list (string * V)) :
  k <> "__proto__" ->
  Js.lookup k (Js.assign_all acc src)
  = match Js.lookup k (rev src) with
    | Some v => Some v
    | None => Js.lookup k acc
    end.
Proof.
  intros Hk. unfold Js.assign_all. revert acc.
  induction src as [|[k0 v0] src IH]; intros acc; simpl; auto.
  rewrite IH.
  destruct (Js.lookup k (rev src)) as [v|] eqn:E.
  - now rewrite (lookup_app_Some _ _ _ _ E).
  - rewrite lookup_app_None by exact E. simpl.
    destruct (String.eqb_spec k k0) as [->|Hne].
    + now apply lookup_put_same.
    + now apply lookup_put_other.
Qed.

Lemma lookup_copy {V : Type} (k : string) (o : list (string * V)) :
  k <> "__proto__" -> List.NoDup (List.map fst o) ->
  Js.lookup k (Js.assign_all [] o) = Js.lookup k o.
Proof.
  intros Hk Hnd. rewrite lookup_assign_all by exact Hk.
  rewrite lookup_rev by exact Hnd. now destruct (Js.lookup k o).
Qed.

(** Neither a write nor a copy gives an object an own [__proto__] key. *)
Lemma lookup_proto_put {V : Type} (k : string) (v : V) (o : list (string * V)) :
  Js.lookup "__proto__" o = None -> Js.lookup "__proto__" (Js.put k v o) = None.
Proof.
  intros H. destruct (String.eqb_spec k "__proto__") as [->|Hk].
  - now rewrite put_proto.
  - rewrite lookup_put_other by congruence. exact H.
Qed.

Lemma lookup_proto_assign_all {V : Type} (src acc : list (string * V)) :
  Js.lookup "__proto__" acc = None ->
  Js.lookup "__proto__" (Js.assign_all acc src) = None.
Proof.
  unfold Js.assign_all. revert acc.
  induction src as [|[k v] src IH]; intros acc H; simpl; [exact H|].
  apply IH. now apply lookup_proto_put.
Qed.

(** [pluck k os]: the [k] field of each object of [os]. *)
Lemma map_prop_objects (callee k : string) (os : list IDataObject) :
  Js.map_prop callee k (JArr (List.map JObj os))
  = Ok (JArr (List.map (fun o => match Js.lookup k o with
                                 | Some x => x
                                 | None => JUndefined
                                 end) os)).
Proof.
  unfold Js.map_prop.
  assert (H : Js.mapM (Js.get k) (List.map JObj os)
              = Ok (List.map (fun o => match Js.lookup k o with
                                       | Some x => x
                                       | None => JUndefined
                                       end) os)).
  { induction os as [|o os IH]; simpl; auto. now rewrite IH. }
  now rewrite H.
Qed.

Lemma map_prop_wrapped (callee k : string) (vs : list json) :
  Js.map_prop callee k (JArr (List.map (fun v => JObj [(k, v)]) vs)) = Ok (JArr vs).
Proof.
  replace (List.map (fun v => JObj [(k, v)]) vs)
    with (List.map JObj (List.map (fun v => [(k, v)]) vs))
    by (rewrite List.map_map; reflexivity).
  rewrite map_prop_objects, List.map_map. simpl.
  rewrite String.eqb_refl. now rewrite List.map_id.
Qed.

#[global] Hint Rewrite @lookup_assign_same : objects.
#[global] Hint Rewrite @lookup_assign_other using discriminate : objects.

(** ** Stepping through the routine *)

Lemma repos_eq (owner repository : json) :
  repos owner repository
  = ("/repos/" ++ Js.to_string owner ++ "/" ++ Js.to_string repository)%string.
Proof. reflexivity. Qed.

Lemma contents_eq (owner repository filePath : json) :
  contents owner repository filePath
  = (repos owner repository ++ "/contents/" ++ Uri.encodeURI (Js.to_string filePath))%string.
Proof. reflexivity. Qed.

Lemma reviews_eq (owner repository pullRequestNumber : json) :
  reviews owner repository pullRequestNumber
  = (repos owner repository ++ "/pulls/" ++ Js.to_string pullRequestNumber
       ++ "/reviews")%string.
Proof. reflexivity. Qed.

Lemma fullOperation_str (resource operation : string) :
  fullOperation (JStr resource) (JStr operation)
  = (resource ++ ":" ++ operation)%string.
Proof. reflexivity. Qed.

(** The interpolated strings and the object operations stay folded while a
    proof steps through the routine. *)
#[global] Opaque repos contents reviews.
#[global] Opaque Js.map_prop Js.assign Js.put Js.assign_all Js.to_string.

Lemma includes_In (l : list string) (s : string) :
  Js.includes l s = true <-> In s l.
Proof.
  unfold Js.includes. rewrite existsb_exists. split.
  - intros (x & Hx & E). apply String.eqb_eq in E. now subst.
  - intros H. exists s. split; auto. apply String.eqb_refl.
Qed.

Lemma lists_disjoint (full : string) :
  ~ (In full overwriteDataOperations /\ In full overwriteDataOperationsArray).
Proof.
  intros [H1 H2]. simpl in H1.
  repeat (destruct H1 as [<-|H1]; [simpl in H2; intuition discriminate|]).
  exact H1.
Qed.

(** C6: for [review:create] with one of the four events, the body's [event]
    is the event in upper snake case ([requestChanges] gives
    [REQUEST_CHANGES]), and the body's [body] is set, from the parameter,
    exactly when the event is [REQUEST_CHANGES] or [COMMENT]. The additional
    fields are those of the node's description, which has no [body] among
    them. *)
Theorem review_create_event (this : IExecuteFunctions) (owner repository : json)
    (i : nat) (s : state) (pullRequestNumber additionalFields text : json)
    (name : string) :
  In name review_events ->
  getNodeParameter this "pullRequestNumber" i None = Ok pullRequestNumber ->
  getNodeParameter this "additionalFields" i None = Ok additionalFields ->
  Js.lookup "body" (Js.own_props additionalFields) = None ->
  getNodeParameter this "event" i None = Ok (JStr name) ->
  (needs_body name = true -> getNodeParameter this "body" i None = Ok text) ->
  exists b,
    route this (JStr "review") (JStr "create") owner repository i reset s
    = (Ok (mkRequest "POST" (reviews owner repository pullRequestNumber) (JObj b) (JObj [])), s)
    /\ Js.lookup "event" b = Some (JStr (claimed_event name))
    /\ Js.lookup "body" b = (if needs_body name then Some text else None).
Proof.
  intros Hin Hpr Hfields Hnone Hev Hbody.
  change (route this (JStr "review") (JStr "create") owner repository i reset s)
    with (review_create this owner repository i reset s).
  unfold review_create. unfold_run.
  rewrite Hpr, Hfields, Hev.
  assert (Hb0 : forall ev : json,
             Js.lookup "body" (Js.assign "event" ev (Js.object_assign [] additionalFields)) = None).
  { intros ev. rewrite lookup_assign_other by discriminate.
    unfold Js.object_assign. now rewrite lookup_assign_all_other. }
  simpl in Hin.
  destruct Hin as [<-|[<-|[<-|[<-|[]]]]]; simpl.
  - eexists. split; [reflexivity|]. split; [apply lookup_assign_same|apply Hb0].
  - rewrite Hbody by reflexivity. simpl.
    eexists. split; [reflexivity|]. split.
    + rewrite lookup_assign_other by discriminate. apply lookup_assign_same.
    + apply lookup_assign_same.
  - rewrite Hbody by reflexivity. simpl.
    eexists. split; [reflexivity|]. split.
    + rewrite lookup_assign_other by discriminate. apply lookup_assign_same.
    + apply lookup_assign_same.
  - eexists. split; [reflexivity|]. split; [apply lookup_assign_same|apply Hb0].
Qed.

(** C7: [issue:create] sends the labels [[{label: s}, ...]] as [[s, ...]] and
    the assignees likewise; [issue:edit] flattens each of the two exactly
    when the edit fields have it, leaves every other field as supplied, and
    adds none. *)
Theorem issue_labels_assignees_flattened (this : IExecuteFunctions)
    (owner repository : json) (i : nat) (s : state) :
  (forall (title text : json) (labels assignees : list json),
      getNodeParameter this "title" i None = Ok title ->
      getNodeParameter this "body" i None = Ok text ->
      getNodeParameter this "labels" i None = Ok (wrapped "label" labels) ->
      getNodeParameter this "assignees" i None = Ok (wrapped "assignee" assignees) ->
      route this (JStr "issue") (JStr "create") owner repository i reset s
      = (Ok (mkRequest "POST" (repos owner repository ++ "/issues")
               (JObj [("title", title); ("body", text);
                      ("labels", JArr labels); ("assignees", JArr assignees)])
               (JObj [])), s))
  /\ (forall (issueNumber : json) (editFields : IDataObject)
             (labels assignees : option (list json)),
         getNodeParameter this "issueNumber" i None = Ok issueNumber ->
         getNodeParameter this "editFields" i (Some (JObj [])) = Ok (JObj editFields) ->
         Js.lookup "labels" editFields = option_map (wrapped "label") labels ->
         Js.lookup "assignees" editFields = option_map (wrapped "assignee") assignees ->
         exists b,
           route this (JStr "issue") (JStr "edit") owner repository i reset s
           = (Ok (mkRequest "PATCH"
                    (repos owner repository ++ "/issues/" ++ Js.to_string issueNumber)
                    (JObj b) (JObj [])), s)
           /\ Js.lookup "labels" b = option_map JArr labels
           /\ Js.lookup "assignees" b = option_map JArr assignees
           /\ forall k, k <> "labels" -> k <> "assignees" ->
                        Js.lookup k b = Js.lookup k editFields).
Proof.
  split.
  - intros title text labels assignees Ht Hb Hl Ha.
    change (route this (JStr "issue") (JStr "create") owner repository i reset s)
      with (issue_create this owner repository i reset s).
    unfold issue_create. unfold_run.
    rewrite Ht, Hb, Hl, Ha. simpl. unfold wrapped. rewrite !map_prop_wrapped.
    reflexivity.
  - intros issueNumber editFields labels assignees Hn He Hl Ha.
    change (route this (JStr "issue") (JStr "edit") owner repository i reset s)
      with (issue_edit this owner repository i reset s).
    unfold issue_edit, flatten_if_present. unfold_run.
    unfold wrapped in Hl, Ha |- *.
    rewrite Hn, He. simpl. rewrite Hl.
    destruct labels as [ls|]; simpl.
    + rewrite map_prop_wrapped. simpl.
      rewrite lookup_assign_other by discriminate. rewrite Ha.
      destruct assignees as [az|]; simpl.
      * rewrite map_prop_wrapped. simpl.
        eexists. split; [reflexivity|]. repeat split.
        -- rewrite lookup_assign_other by discriminate. apply lookup_assign_same.
        -- apply lookup_assign_same.
        -- intros k H1 H2. now rewrite !lookup_assign_other.
      * eexists. split; [reflexivity|]. repeat split.
        -- apply lookup_assign_same.
        -- rewrite lookup_assign_other by discriminate. exact Ha.
        -- intros k H1 H2. now rewrite !lookup_assign_other.
    + rewrite Ha. destruct assignees as [az|]; simpl.
      * rewrite map_prop_wrapped. simpl.
        eexists. split; [reflexivity|]. repeat split.
        -- rewrite lookup_assign_other by discriminate. exact Hl.
        -- apply lookup_assign_same.
        -- intros k H1 H2. now rewrite !lookup_assign_other.
      * eexists. split; [reflexivity|]. repeat split; auto.
Qed.

Lemma commit_fields_keeps (additionalParameters : json)
    (r r' : request) (s s' : state) :
  commit_fields additionalParameters r s = (Ok r', s') ->
  requestMethod r' = requestMethod r /\ endpoint r' = endpoint r
  /\ qs r' = qs r /\ s' = s.
Proof.
  unfold commit_fields. unfold_run. intros H.
  crunch H; inversion H; subst; simpl; auto.
Qed.

Lemma string_append_assoc (a b c : string) :
  ((a ++ b) ++ c = a ++ (b ++ c))%string.
Proof. induction a; simpl; congruence. Qed.

Opaque commit_fields upload_content getFileSha.

(** C8, as amended: for every pair of the routing rules, every host and
    every owner and repository, a request the router yields has the method
    and the endpoint of the rule, with owner, repository and identifiers
    interpolated as a template literal prints them, unescaped, and the file
    path passed through [encodeURI]. *)
Theorem router_follows_verbatim_table : router_follows verbatim_table.
Proof.
  intros this i resource operation verb tpl owner repository s s' r Hin H.
  unfold verbatim_table, routing_table in Hin. simpl in Hin.
  repeat (destruct Hin as [Heq|Hin];
          [ inversion Heq; subst; clear Heq;
            unfold identifier; cbv beta;
            autounfold with router in H; unfold_run_in H;
            crunch H; inversion H; subst; simpl;
            repeat match goal with
                   | E : commit_fields _ _ _ = (Ok _, _) |- _ =>
                       apply commit_fields_keeps in E; simpl in E;
                       destruct E as (? & ? & ? & ?)
                   end;
            (split; [congruence|]);
            rewrite ?contents_eq, ?reviews_eq, ?repos_eq;
            repeat first [rewrite string_append_assoc | progress simpl];
            reflexivity
          | ]).
  all: try contradiction.
Qed.

Transparent commit_fields upload_content getFileSha.

(** ** What the routine may change *)

Section Respects.

Variable R : state -> state -> Prop.
Hypothesis R_refl : forall s, R s s.
Hypothesis R_trans : forall a b c, R a b -> R b c -> R a c.
Hypothesis R_trace : forall s t, R s (with_trace t s).
Hypothesis R_returnAll : forall s v, R s (with_returnAll v s).
Hypothesis R_returnData : forall s l, R s (with_returnData l s).

Lemma respects_lift {A : Type} (o : outcome A) : respects R (lift o).
Proof. intros s out s' H. inversion H. apply R_refl. Qed.

Lemma respects_ret {A : Type} (a : A) : respects R (ret a).
Proof. apply respects_lift. Qed.

Lemma respects_throw {A : Type} (e : error) : respects R (@throw A e).
Proof. apply respects_lift. Qed.

Lemma respects_bind {A B : Type} (m : M A) (f : A -> M B) :
  respects R m -> (forall a, respects R (f a)) -> respects R (bind m f).
Proof.
  intros Hm Hf s out s' H. unfold bind in H.
  destruct (m s) as [[a|e] s1] eqn:E.
  - eapply R_trans; [eapply Hm; eauto|eapply Hf; eauto].
  - inversion H; subst. eapply Hm; eauto.
Qed.

Lemma respects_item_at (i : nat) : respects R (item_at i).
Proof.
  intros s out s' H. unfold item_at, undefined_item, throw in H.
  destruct (items s !! i) as [l|]; [destruct (itemObjs (objects s) !! l)|];
    inversion H; apply R_refl.
Qed.

Lemma respects_entries_of (m : loc) : respects R (entries_of m).
Proof.
  intros s out s' H. unfold entries_of, undefined_item, throw in H.
  destruct (binaryMaps (objects s) !! m); inversion H; apply R_refl.
Qed.

Lemma respects_binary_at (d : loc) : respects R (binary_at d).
Proof.
  intros s out s' H. unfold binary_at, undefined_item, throw in H.
  destruct (binaryObjs (objects s) !! d); inversion H; apply R_refl.
Qed.

Lemma respects_issue (this : IExecuteFunctions) (v : helper) (r : request) :
  respects R (issue this v r).
Proof. intros s out s' H. inversion H. apply R_trace. Qed.

Lemma respects_read_returnAll (this : IExecuteFunctions) :
  respects R (read_returnAll this).
Proof.
  intros s out s' H. unfold read_returnAll, bind, param, lift in H.
  destruct (getNodeParameter this "returnAll" 0 None); inversion H;
    [apply R_returnAll|apply R_refl].
Qed.

Lemma respects_set_returnAll (v : json) :
  respects R (fun s => (Ok v, with_returnAll v s)).
Proof. intros s out s' H. inversion H. apply R_returnAll. Qed.

Lemma respects_push (v : json) : respects R (push v).
Proof. intros s out s' H. inversion H. apply R_returnData. Qed.

Lemma respects_push_apply (this : IExecuteFunctions) (v : json) :
  respects R (push_apply this v).
Proof.
  intros s out s' H. unfold push_apply, bind, lift in H.
  destruct (array_like this v); inversion H; [apply R_returnData|apply R_refl].
Qed.

(** A computation is taken apart along its binds and branches. *)
#[local] Hint Resolve respects_ret respects_throw respects_lift respects_item_at
  respects_entries_of respects_binary_at respects_issue respects_read_returnAll
  respects_set_returnAll
  respects_push respects_push_apply respects_bind : respects.
#[local] Hint Extern 1 (respects _ (match ?x with _ => _ end)) =>
  destruct x : respects.

Lemma respects_getFileSha (this : IExecuteFunctions) (o r f b : json) :
  respects R (getFileSha this o r f b).
Proof. unfold getFileSha, githubApiRequest. auto 20 with respects. Qed.

Lemma respects_commit_fields (a : json) (r : request) :
  respects R (commit_fields a r).
Proof. unfold commit_fields, assign_body. auto 30 with respects. Qed.

Lemma respects_upload_content (this : IExecuteFunctions) (i : nat) :
  respects R (upload_content this i).
Proof. unfold upload_content, param. auto 30 with respects. Qed.

Lemma respects_route (this : IExecuteFunctions)
    (resource operation owner repository : json) (i : nat) (r : request) :
  respects R (route this resource operation owner repository i r).
Proof.
  pose proof respects_getFileSha. pose proof respects_commit_fields.
  pose proof respects_upload_content.
  autounfold with router.
  unfold assign_body, assign_qs, param, param_or. cbv zeta.
  auto 60 with respects.
Qed.


End Respects.

(** ** One pass of a paginated operation *)

Lemma paginated_pass (this : IExecuteFunctions) (resource operation : string)
    (i : nat) (s : state) (all : bool) (limit owner repository pr : json)
    (filters : IDataObject) :
  In (resource, operation) paginated ->
  page_parameters this i resource owner repository pr filters ->
  getNodeParameter this "returnAll" 0 None = Ok (JBool all) ->
  (all = false -> getNodeParameter this "limit" 0 None = Ok limit) ->
  let c := page_call resource all limit owner repository pr filters in
  let s1 := mkState (objects s) (items s) (returnData s) (JBool all) (trace s ++ [c]) in
  process_item this (JStr resource) (JStr operation) i s
  = match respond this (trace s) c with
    | Ok v => match array_like this v with
              | Ok l => (Ok Next, with_returnData (returnData s ++ l) s1)
              | Throw e => (Throw e, s1)
              end
    | Throw e => (Throw e, s1)
    end.
Proof.
  intros Hin (Ho & Hr & Hp & Hf) Hall Hlimit.
  simpl in Hin.
  destruct Hin as [E|[E|[E|[E|[]]]]]; inversion E; subst; clear E;
    unfold process_item; rewrite fullOperation_str; simpl;
    autounfold with router;
    unfold githubApiRequest, githubApiRequestAllItems, issue, accumulate, push_apply;
    unfold_run; simpl;
    rewrite ?Ho, ?Hall;
    rewrite ?Hr by discriminate;
    rewrite ?Hp by reflexivity;
    rewrite ?Hf by reflexivity;
    (destruct all; simpl; [|rewrite Hlimit by reflexivity; simpl]);
    answer_cases this.
Qed.

(** ** The accessor is read at [i], the pagination switch at [0] *)

Section Agreement.

Variable this : IExecuteFunctions.
Variable g : string -> nat -> option json -> outcome json.

(** [g] is the accessor of [this] except, possibly, for [returnAll] and
    [limit] at the items after the first. *)
Hypothesis agree :
  forall name i fallback,
    i = 0 \/ (name <> "returnAll" /\ name <> "limit") ->
    g name i fallback = getNodeParameter this name i fallback.

Lemma process_item_agree (resource operation : json) (i : nat) (s : state) :
  process_item (with_parameters g this) resource operation i s
  = process_item this resource operation i s.
Proof.
  unfold process_item. autounfold with router.
  unfold as_binary_property, accumulate, push_apply, array_like, getFileSha,
    upload_content, buffer_utf8, buffer_base64,
    githubApiRequest, githubApiRequestAllItems, issue, param, param_or.
  same_parameters agree.
Qed.

Lemma iteration_agree (resource operation : json) (i : nat) (s : state) :
  iteration (with_parameters g this) resource operation i s
  = iteration this resource operation i s.
Proof.
  unfold iteration. rewrite process_item_agree. unfold on_error. same_parameters agree.
Qed.

Lemma loop_agree (resource operation : json) (n i : nat) (s : state) :
  loop (with_parameters g this) resource operation n i s
  = loop this resource operation n i s.
Proof.
  revert i s. induction n as [|n IH]; intros i s; simpl; [reflexivity|].
  unfold bind. rewrite iteration_agree.
  destruct (iteration this resource operation i s) as [[[|out]|e] s1]; auto.
Qed.

Lemma execute_agree : execute (with_parameters g this) = execute this.
Proof.
  unfold execute, run, rest, initial, bind, param, lift.
  unfold with_parameters at 1 2 3 4.
  cbn [getInputData getNodeParameter].
  rewrite !agree by (left; reflexivity).
  destruct (getNodeParameter this "operation" 0 None) as [operation|]; auto.
  destruct (getNodeParameter this "resource" 0 None) as [resource|]; auto.
  fold (with_parameters g this). now rewrite loop_agree.
Qed.

End Agreement.

(** ** The SHA lookup of [file:edit] and [file:delete] *)

Lemma commit_fields_inv (additionalParameters : json) (r : request) (s : state)
    (out : outcome request) (s' : state) :
  commit_fields additionalParameters r s = (out, s') ->
  s' = s
  /\ forall r', out = Ok r' ->
       requestMethod r' = requestMethod r /\ endpoint r' = endpoint r /\ qs r' = qs r
       /\ forall b, body r = JObj b -> exists b', body r' = JObj b'.
Proof.
  intros H. split.
  - symmetry. exact (respects_commit_fields eq (@eq_refl _) (@eq_trans _) _ _ _ _ _ H).
  - intros r' ->. destruct (commit_fields_keeps _ _ _ _ _ H) as (Hm & He & Hq & _).
    repeat split; auto. intros b Hb.
    destruct r as [verb path bd q]. simpl in Hb. subst bd.
    unfold commit_fields in H. unfold_run_in H.
    crunch H; inversion H; subst; simpl; eauto.
Qed.

Lemma upload_content_inv (this : IExecuteFunctions) (i : nat) (s : state)
    (out : outcome json) (s' : state) :
  upload_content this i s = (out, s') -> s' = s.
Proof.
  intros H. symmetry.
  exact (respects_upload_content eq (@eq_refl _) (@eq_trans _) _ _ _ _ _ H).
Qed.

Lemma getFileSha_eq (this : IExecuteFunctions) (owner repository filePath branch : json)
    (s : state) :
  getFileSha this owner repository filePath branch s
  = (match respond this (trace s) (sha_lookup owner repository filePath branch) with
     | Ok response =>
         match Js.get "sha" response with
         | Ok sha => if Js.is_undefined sha
                     then Throw (NodeOperationError "Could not get the sha of the file.")
                     else Ok sha
         | Throw e => Throw e
         end
     | Throw e => Throw e
     end,
     with_trace (trace s ++ [sha_lookup owner repository filePath branch]) s).
Proof.
  unfold getFileSha, githubApiRequest, issue, sha_lookup. unfold_run.
  destruct (respond this _ _); [|reflexivity].
  destruct (Js.get "sha" a); [|reflexivity].
  destruct (Js.is_undefined a0); reflexivity.
Qed.

Lemma get_object (k : string) (b : IDataObject) :
  Js.get k (JObj b) = Ok (match Js.lookup k b with Some x => x | None => JUndefined end).
Proof. reflexivity. Qed.

(** The commit fields of an object parameter, on an empty body: the body
    has the branch of the commit, and nothing under another key than
    [author], [committer] and [branch]. *)
Lemma commit_fields_branch (ap : IDataObject) (verb path : string) (q : json)
    (s : state) :
  exists b',
    commit_fields (JObj ap) (mkRequest verb path (JObj []) q) s
    = (Ok (mkRequest verb path (JObj b') q), s)
    /\ Js.lookup "branch" b'
       = (if Js.is_undefined (commit_branch ap) then None
          else Some (commit_branch ap))
    /\ forall k, k <> "author" -> k <> "committer" -> k <> "branch" ->
                 Js.lookup k b' = None.
Proof.
  unfold commit_fields, commit_branch. unfold_run. simpl.
  destruct (Js.lookup "branch" ap) as [branch|]; [destruct branch|]; simpl;
    repeat match goal with
           | |- context [match Js.lookup ?k ?o with _ => _ end] =>
               destruct (Js.lookup k o) eqn:?; simpl
           | |- context [if Js.truthy ?c then _ else _] =>
               destruct (Js.truthy c) eqn:?; simpl
           | |- context [if ?c then _ else _] => destruct c eqn:?; simpl
           end.
  all: eexists; (split; [reflexivity|]).
  all: split;
    [ rewrite ?lookup_assign_same, ?lookup_assign_other by discriminate;
      try reflexivity
    | intros k K1 K2 K3; now rewrite ?lookup_assign_other by assumption ].
  all: match goal with
       | H : Js.truthy ?v = true, U : Js.is_undefined ?v = true |- _ =>
           destruct v; discriminate
       end.
Qed.

Opaque commit_fields upload_content getFileSha.

(** C4: a [file:edit] or [file:delete] pass first looks the SHA up: the
    first call it makes is the GET of the file's contents endpoint, scoped
    to the branch of the commit when there is one. When that call fails or
    its answer has no [sha], the pass throws and nothing else is sent. When
    it is answered with a [sha], at most one call follows, the PUT or DELETE
    to the same endpoint whose body carries that [sha] and the same branch;
    [file:delete] always sends it, [file:edit] unless the commit message
    cannot be read or the upload has no content. *)
Theorem sha_lookup_before_mutation (this : IExecuteFunctions) (operation : string)
    (i : nat) (s s' : state) (out : outcome completion)
    (owner repository filePath : json) (ap : IDataObject) :
  operation = "edit" \/ operation = "delete" ->
  getNodeParameter this "owner" i None = Ok owner ->
  getNodeParameter this "repository" i None = Ok repository ->
  getNodeParameter this "filePath" i None = Ok filePath ->
  getNodeParameter this "additionalParameters" i (Some (JObj [])) = Ok (JObj ap) ->
  (operation = "delete" ->
   exists m, getNodeParameter this "commitMessage" i None = Ok m) ->
  process_item this (JStr "file") (JStr operation) i s = (out, s') ->
  let lookup := sha_lookup owner repository filePath (commit_branch ap) in
  exists more,
    trace s' = trace s ++ lookup :: more
    /\ match respond this (trace s) lookup with
       | Throw e => more = [] /\ out = Throw e
       | Ok response =>
           match Js.get "sha" response with
           | Throw e => more = [] /\ out = Throw e
           | Ok sha =>
               if Js.is_undefined sha
               then more = []
                    /\ out = Throw (NodeOperationError
                                      "Could not get the sha of the file.")
               else
                 (more = [] /\ operation = "edit"
                  /\ exists e,
                       out = Throw e
                       /\ (getNodeParameter this "commitMessage" i None = Throw e
                           \/ fst (upload_content this i (looked s lookup))
                              = Throw e))
                 \/ exists mutation,
                      more = [mutation]
                      /\ requestMethod (sent mutation) = mutating_verb operation
                      /\ endpoint (sent mutation)
                         = contents owner repository filePath
                      /\ Js.get "sha" (body (sent mutation)) = Ok sha
                      /\ Js.get "branch" (body (sent mutation))
                         = Ok (commit_branch ap)
           end
       end.
Proof.
  intros Hop Ho Hr Hf Hap Hm H lookup.
  destruct (commit_fields_branch ap (mutating_verb operation) "" (JObj []) s)
    as (b1 & E1 & Hbranch & Hsha).
  assert (B : Js.get "branch" (JObj b1) = Ok (commit_branch ap)).
  { rewrite get_object, Hbranch. now destruct (commit_branch ap). }
  destruct Hop as [-> | ->].
  - clear Hm. unfold process_item in H. rewrite fullOperation_str in H. simpl in H.
    unfold route in H. simpl in H.
    unfold file_create_edit, accumulate, push, githubApiRequest, githubApiRequestAllItems,
      issue in H.
    unfold_run_in H. simpl in H.
    rewrite Ho, Hr, Hf, Hap in H. change (mutating_verb "edit") with "PUT" in E1.
    unfold reset, with_method in H. simpl in H. rewrite E1 in H.
    cbn [body] in H. rewrite B in H. rewrite getFileSha_eq in H.
    fold lookup in H.
    destruct (respond this (trace s) lookup) as [response|e] eqn:Eresp;
      [|inversion H; subst; exists []; auto].
    destruct (Js.get "sha" response) as [sha|e] eqn:Esha;
      [|inversion H; subst; exists []; auto].
    destruct (Js.is_undefined sha) eqn:Eundef;
      [inversion H; subst; exists []; auto|].
    simpl in H.
    destruct (getNodeParameter this "commitMessage" i None) as [commitMessage|e]
      eqn:Em.
    2: { inversion H; subst. exists []. split; [reflexivity|]. left. eauto 6. }
    simpl in H.
    destruct (upload_content this i _) as [[content|e] s2] eqn:E2;
      pose proof (upload_content_inv _ _ _ _ _ E2); subst s2.
    2: { inversion H; subst. exists []. split; [reflexivity|]. left.
         split; [reflexivity|]. split; [reflexivity|]. exists e.
         split; [reflexivity|]. right. unfold looked. reflexivity. }
    simpl in H.
    destruct (Js.is_true (returnAll s)); simpl in H;
      destruct (respond this (_ ++ _) _); inversion H; subst; clear H; simpl;
      (eexists [_]; split; [now rewrite <- app_assoc|]; right;
       eexists; split; [reflexivity|]; simpl;
       split; [reflexivity|]; split; [reflexivity|];
       split; rewrite ?lookup_assign_other by discriminate;
       [ now rewrite lookup_assign_same
       | rewrite Hbranch; now destruct (commit_branch ap) ]).
  - destruct (Hm eq_refl) as [commitMessage Em]. clear Hm.
    unfold process_item in H. rewrite fullOperation_str in H. simpl in H.
    unfold route in H. simpl in H.
    unfold file_delete, accumulate, push, githubApiRequest, githubApiRequestAllItems,
      issue in H.
    unfold_run_in H. simpl in H.
    rewrite Ho, Hr, Hap in H. change (mutating_verb "delete") with "DELETE" in E1.
    unfold reset, with_method in H. simpl in H. rewrite E1 in H.
    rewrite Hf, Em in H. simpl in H.
    rewrite lookup_assign_other, Hbranch in H by discriminate.
    replace (match (if Js.is_undefined (commit_branch ap) then None
                    else Some (commit_branch ap)) with
             | Some x => x
             | None => JUndefined
             end) with (commit_branch ap) in H by now destruct (commit_branch ap).
    rewrite getFileSha_eq in H. fold lookup in H.
    destruct (respond this (trace s) lookup) as [response|e] eqn:Eresp;
      [|inversion H; subst; exists []; auto].
    destruct (Js.get "sha" response) as [sha|e] eqn:Esha;
      [|inversion H; subst; exists []; auto].
    destruct (Js.is_undefined sha) eqn:Eundef;
      [inversion H; subst; exists []; auto|].
    simpl in H.
    destruct (Js.is_true (returnAll s)); simpl in H;
      destruct (respond this (_ ++ _) _); inversion H; subst; clear H; simpl;
      (eexists [_]; split; [now rewrite <- app_assoc|]; right;
       eexists; split; [reflexivity|]; simpl;
       split; [reflexivity|]; split; [reflexivity|];
       split; rewrite ?lookup_assign_other by discriminate;
       [ now rewrite lookup_assign_same
       | rewrite Hbranch; now destruct (commit_branch ap) ]).
Qed.

Transparent commit_fields upload_content getFileSha.

(** ** Base64: what is encoded decodes to itself *)

Lemma forall_below (p : N -> bool) (n : nat) :
  forallb p (List.map N.of_nat (seq 0 n)) = true ->
  forall x, (x < N.of_nat n)%N -> p x = true.
Proof.
  intros H x Hx. rewrite forallb_forall in H. apply H.
  apply in_map_iff. exists (N.to_nat x). split; [apply N2Nat.id|].
  apply in_seq. lia.
Qed.

Lemma forall_below2 (p : N -> N -> bool) (n m : nat) :
  forallb (fun x => forallb (p x) (List.map N.of_nat (seq 0 m)))
    (List.map N.of_nat (seq 0 n)) = true ->
  forall x y, (x < N.of_nat n)%N -> (y < N.of_nat m)%N -> p x y = true.
Proof.
  intros H x y Hx Hy.
  apply (forall_below (p x) m); [|exact Hy].
  exact (forall_below (fun x => forallb (p x) (List.map N.of_nat (seq 0 m))) n H x Hx).
Qed.

Lemma sextet_digit (n : N) :
  (n < 64)%N -> Base64.sextet (Base64.digit n) = Some n.
Proof.
  intros Hn.
  pose proof (forall_below
                (fun n => match Base64.sextet (Base64.digit n) with
                          | Some m => N.eqb m n
                          | None => false
                          end) 64 ltac:(vm_compute; reflexivity) n Hn) as H.
  simpl in H. destruct (Base64.sextet (Base64.digit n)) as [m|]; [|discriminate H].
  apply N.eqb_eq in H. now subst.
Qed.

Lemma byte_of_to_N (x : Byte.byte) : Base64.byte_of (Byte.to_N x) = x.
Proof.
  unfold Base64.byte_of.
  rewrite N.mod_small by (pose proof (Byte.to_N_bounded x); lia).
  now rewrite Byte.of_to_N.
Qed.

(** The four sextets of three bytes, two bytes and one byte are below 64
    and give the bytes back. *)
Lemma sextets_of_two (a b : N) :
  (a < 256)%N -> (b < 256)%N ->
  let s1 := N.shiftr a 2 in
  let s2 := N.lor (N.shiftl (N.land a 3) 4) (N.shiftr b 4) in
  (s1 < 64)%N /\ (s2 < 64)%N
  /\ N.lor (N.shiftl s1 2) (N.shiftr s2 4) = a
  /\ N.land s2 15 = N.shiftr b 4
  /\ (N.shiftl (N.land a 3) 4 < 64)%N
  /\ N.lor (N.shiftl s1 2) (N.shiftr (N.shiftl (N.land a 3) 4) 4) = a.
Proof.
  intros Ha Hb.
  pose proof (forall_below2
                (fun a b =>
                   let s1 := N.shiftr a 2 in
                   let s2 := N.lor (N.shiftl (N.land a 3) 4) (N.shiftr b 4) in
                   (s1 <? 64)%N && (s2 <? 64)%N
                   && (N.lor (N.shiftl s1 2) (N.shiftr s2 4) =? a)%N
                   && (N.land s2 15 =? N.shiftr b 4)%N
                   && (N.shiftl (N.land a 3) 4 <? 64)%N
                   && (N.lor (N.shiftl s1 2) (N.shiftr (N.shiftl (N.land a 3) 4) 4)
                       =? a)%N)
                256 256 ltac:(vm_compute; reflexivity) a b Ha Hb) as H.
  cbv zeta in H.
  repeat (apply andb_prop in H as [H ?]).
  repeat match goal with
         | H : (_ <? _)%N = true |- _ => apply N.ltb_lt in H
         | H : (_ =? _)%N = true |- _ => apply N.eqb_eq in H
         end.
  cbv zeta. auto 10.
Qed.

Lemma sextets_of_last (b c : N) :
  (b < 256)%N -> (c < 256)%N ->
  let s3 := N.lor (N.shiftl (N.land b 15) 2) (N.shiftr c 6) in
  let s4 := N.land c 63 in
  (s3 < 64)%N /\ (s4 < 64)%N
  /\ N.lor (N.shiftl (N.shiftr b 4) 4) (N.shiftr s3 2) = b
  /\ N.lor (N.shiftl (N.land s3 3) 6) s4 = c
  /\ (N.shiftl (N.land b 15) 2 < 64)%N
  /\ N.lor (N.shiftl (N.shiftr b 4) 4) (N.shiftr (N.shiftl (N.land b 15) 2) 2) = b.
Proof.
  intros Hb Hc.
  pose proof (forall_below2
                (fun b c =>
                   let s3 := N.lor (N.shiftl (N.land b 15) 2) (N.shiftr c 6) in
                   let s4 := N.land c 63 in
                   (s3 <? 64)%N && (s4 <? 64)%N
                   && (N.lor (N.shiftl (N.shiftr b 4) 4) (N.shiftr s3 2) =? b)%N
                   && (N.lor (N.shiftl (N.land s3 3) 6) s4 =? c)%N
                   && (N.shiftl (N.land b 15) 2 <? 64)%N
                   && (N.lor (N.shiftl (N.shiftr b 4) 4)
                         (N.shiftr (N.shiftl (N.land b 15) 2) 2) =? b)%N)
                256 256 ltac:(vm_compute; reflexivity) b c Hb Hc) as H.
  cbv zeta in H.
  repeat (apply andb_prop in H as [H ?]).
  repeat match goal with
         | H : (_ <? _)%N = true |- _ => apply N.ltb_lt in H
         | H : (_ =? _)%N = true |- _ => apply N.eqb_eq in H
         end.
  cbv zeta. auto 10.
Qed.

Lemma byte_below (x : Byte.byte) : (Byte.to_N x < 256)%N.
Proof. pose proof (Byte.to_N_bounded x). lia. Qed.

Lemma list_ind3 {A : Type} (P : list A -> Prop) :
  P [] -> (forall x, P [x]) -> (forall x y, P [x; y]) ->
  (forall x y z r, P r -> P (x :: y :: z :: r)) ->
  forall l, P l.
Proof.
  intros H0 H1 H2 H3 l.
  assert (G : P l /\ (forall x, P (x :: l)) /\ (forall x y, P (x :: y :: l))).
  { induction l as [|a l (IH0 & IH1 & IH2)]; [auto|].
    split; [apply IH1|]. split; [intros x; apply IH2|].
    intros x y. now apply H3. }
  apply G.
Qed.

Lemma sextets_cons (c : ascii) (r : string) (n : N) :
  Base64.sextet c = Some n ->
  Base64.sextets (String c r) = n :: Base64.sextets r.
Proof.
  intros H. simpl. destruct (Ascii.eqb_spec c "=") as [->|_].
  - vm_compute in H. discriminate H.
  - now rewrite H.
Qed.

Lemma decode_encode (l : list Byte.byte) : Base64.decode (Base64.encode l) = l.
Proof.
  unfold Base64.decode. induction l as [|x|x y|x y z r IH] using list_ind3.
  - reflexivity.
  - destruct (sextets_of_two (Byte.to_N x) 0 (byte_below x) ltac:(lia))
      as (L1 & _ & _ & _ & L2 & E).
    cbn [Base64.encode]. cbv zeta.
    rewrite (sextets_cons _ _ _ (sextet_digit _ L1)).
    rewrite (sextets_cons _ _ _ (sextet_digit _ L2)).
    change (Base64.sextets "==") with (@nil N).
    cbn [Base64.bytes_of_sextets]. rewrite E. now rewrite byte_of_to_N.
  - destruct (sextets_of_two (Byte.to_N x) (Byte.to_N y) (byte_below x) (byte_below y))
      as (L1 & L2 & E1 & E2 & _).
    destruct (sextets_of_last (Byte.to_N y) 0 (byte_below y) ltac:(lia))
      as (_ & _ & _ & _ & L3 & E3).
    cbn [Base64.encode]. cbv zeta.
    rewrite (sextets_cons _ _ _ (sextet_digit _ L1)).
    rewrite (sextets_cons _ _ _ (sextet_digit _ L2)).
    rewrite (sextets_cons _ _ _ (sextet_digit _ L3)).
    change (Base64.sextets "=") with (@nil N).
    cbn [Base64.bytes_of_sextets]. rewrite E1, E2, E3.
    now rewrite !byte_of_to_N.
  - destruct (sextets_of_two (Byte.to_N x) (Byte.to_N y) (byte_below x) (byte_below y))
      as (L1 & L2 & E1 & E2 & _).
    destruct (sextets_of_last (Byte.to_N y) (Byte.to_N z) (byte_below y) (byte_below z))
      as (L3 & L4 & E3 & E4 & _).
    cbn [Base64.encode]. cbv zeta.
    rewrite (sextets_cons _ _ _ (sextet_digit _ L1)).
    rewrite (sextets_cons _ _ _ (sextet_digit _ L2)).
    rewrite (sextets_cons _ _ _ (sextet_digit _ L3)).
    rewrite (sextets_cons _ _ _ (sextet_digit _ L4)).
    cbn [Base64.bytes_of_sextets]. rewrite E1, E2, E3, E4, IH.
    now rewrite !byte_of_to_N.
Qed.

(** Line feeds in the text are skipped. *)
Lemma sextets_line_feeds (s : string) :
  Base64.sextets (strip_line_feeds s) = Base64.sextets s.
Proof.
  induction s as [|c r IH]; [reflexivity|].
  cbn [strip_line_feeds].
  destruct (Ascii.eqb_spec c "010") as [->|Hc]; [exact IH|].
  cbn [Base64.sextets]. rewrite IH. reflexivity.
Qed.

Lemma decode_line_feeds (content : string) (bytes : list Byte.byte) :
  strip_line_feeds content = Base64.encode bytes -> Base64.decode content = bytes.
Proof.
  intros H. unfold Base64.decode. rewrite <- sextets_line_feeds, H.
  apply decode_encode.
Qed.

(** ** [file:get] as a binary property *)

Lemma insert_at_end {A : Type} (l : list A) (x y : A) :
  <[length l := x]> (l ++ [y]) = l ++ [x].
Proof. induction l as [|a l IH]; simpl; [reflexivity|]. now rewrite IH. Qed.

Lemma lookup_at_end {A : Type} (l : list A) (x : A) :
  (l ++ [x]) !! length l = Some x.
Proof. induction l as [|a l IH]; simpl; auto. Qed.

Section FileGet.

Variable this : IExecuteFunctions.
Variables (i : nat) (s : state) (owner repository filePath : json).

Hypothesis read_owner : getNodeParameter this "owner" i None = Ok owner.
Hypothesis read_repository : getNodeParameter this "repository" i None = Ok repository.
Hypothesis read_filePath : getNodeParameter this "filePath" i None = Ok filePath.
Hypothesis read_flag : getNodeParameter this "asBinaryProperty" i None = Ok (JBool true).

Lemma file_get_pass :
  process_item this (JStr "file") (JStr "get") i s
  = match respond this (trace s) (file_get_call s owner repository filePath) with
    | Ok response =>
        match as_binary_property this response i (called s owner repository filePath)
        with
        | (Ok out, s2) => (Ok (Return out), s2)
        | (Throw e, s2) => (Throw e, s2)
        end
    | Throw e => (Throw e, called s owner repository filePath)
    end.
Proof.
  unfold process_item. rewrite fullOperation_str. simpl.
  unfold route. simpl.
  unfold file_get_list, githubApiRequest, githubApiRequestAllItems, issue.
  unfold_run. rewrite read_owner, read_repository, read_filePath, read_flag.
  unfold called, file_get_call. simpl.
  destruct (Js.is_true (returnAll s)); simpl;
    (destruct (respond this _ _); [|reflexivity]);
    destruct (as_binary_property this _ _ _) as [[?|?] ?]; reflexivity.
Qed.

Lemma folder_rejected (response : json) (s0 : state) :
  Js.isArray response = true ->
  as_binary_property this response i s0
  = (Throw (NodeOperationError "File Path is a folder, not a file."), s0).
Proof. intros H. unfold as_binary_property. now rewrite H. Qed.

Lemma file_attached (response name path : json) (content : string)
    (l : loc) (old : INodeExecutionData) (e : IBinaryKeyData)
    (prepared : IBinaryData) :
  Js.isArray response = false ->
  getNodeParameter this "binaryPropertyName" i None = Ok name ->
  items s !! i = Some l ->
  itemObjs (objects s) !! l = Some old ->
  attachments (objects s) old e ->
  Js.get "content" response = Ok (JStr content) ->
  Js.get "path" response = Ok path ->
  prepareBinaryData this (Base64.decode content) path = Ok prepared ->
  as_binary_property this response i (called s owner repository filePath)
  = (Ok (PrepareOutputData (<[i := length (itemObjs (objects s))]> (items s))),
     attached s i old e (Js.to_string name) prepared
       (file_get_call s owner repository filePath)).
Proof.
  intros Harr Hname Hl Hold Hatt Hcontent Hpath Hprep.
  unfold as_binary_property. rewrite Harr.
  unfold item_at, alloc_map, alloc_item, alloc_binary, update_map, entries_of,
    set_item, buffer_base64.
  unfold_run. rewrite Hname, Hcontent, Hpath.
  unfold called. simpl. rewrite Hl, Hold. simpl.
  unfold attachments in Hatt. unfold attached.
  destruct (binary old) as [b|] eqn:Eb.
  - simpl. rewrite lookup_app_l by (eapply lookup_lt_Some; eauto).
    rewrite Hatt. simpl. rewrite lookup_at_end. simpl.
    rewrite insert_at_end, lookup_at_end. rewrite Hprep. simpl.
    now rewrite insert_at_end.
  - subst e. simpl. rewrite lookup_at_end. rewrite Hprep. simpl.
    rewrite insert_at_end. now rewrite assign_all_nil.
Qed.

End FileGet.

(** C1: [file:get] with [asBinaryProperty] set. An array response makes the
    pass throw the folder error with the store as it was. A single-file
    response whose [content] is the base64 text of [bytes], in lines or not,
    makes the pass return at once the item array in which item [i] is a new
    item: same [json], and a new mapping that holds the attachment prepared
    from [bytes] under the given name and, under every other name, what the
    old mapping holds (the same attachment objects). Under the name
    [__proto__] the new mapping gets no key: that write sets its prototype,
    and no mapping has such a key of its own.
    The old item and its mapping, whose keys are distinct, stay as they
    were, and nothing is added to [returnData]. *)
Theorem file_get_as_binary_property (this : IExecuteFunctions) (i : nat) (s : state)
    (owner repository filePath response : json) :
  getNodeParameter this "owner" i None = Ok owner ->
  getNodeParameter this "repository" i None = Ok repository ->
  getNodeParameter this "filePath" i None = Ok filePath ->
  getNodeParameter this "asBinaryProperty" i None = Ok (JBool true) ->
  let c := file_get_call s owner repository filePath in
  respond this (trace s) c = Ok response ->
  (Js.isArray response = true ->
   process_item this (JStr "file") (JStr "get") i s
   = (Throw (NodeOperationError "File Path is a folder, not a file."),
      called s owner repository filePath))
  /\ (forall (name path : json) (content : string) (bytes : list Byte.byte)
             (l : loc) (old : INodeExecutionData) (e : IBinaryKeyData)
             (prepared : IBinaryData),
         Js.isArray response = false ->
         getNodeParameter this "binaryPropertyName" i None = Ok name ->
         items s !! i = Some l ->
         itemObjs (objects s) !! l = Some old ->
         attachments (objects s) old e ->
         List.NoDup (List.map fst e) ->
         Js.get "content" response = Ok (JStr content) ->
         strip_line_feeds content = Base64.encode bytes ->
         Js.get "path" response = Ok path ->
         prepareBinaryData this bytes path = Ok prepared ->
         let s' := attached s i old e (Js.to_string name) prepared c in
         let newItem := length (itemObjs (objects s)) in
         let newMap := length (binaryMaps (objects s)) in
         let newData := length (binaryObjs (objects s)) in
         process_item this (JStr "file") (JStr "get") i s
         = (Ok (Return (PrepareOutputData (items s'))), s')
         /\ items s' = <[i := newItem]> (items s)
         /\ items s' !! i = Some newItem
         /\ itemObjs (objects s') !! newItem = Some (mkItem (json_of old) (Some newMap))
         /\ (exists mapping,
               binaryMaps (objects s') !! newMap = Some mapping
               /\ (Js.to_string name <> "__proto__" ->
                   Js.lookup (Js.to_string name) mapping = Some newData)
               /\ (forall k, k <> Js.to_string name -> k <> "__proto__" ->
                             Js.lookup k mapping = Js.lookup k e)
               /\ Js.lookup "__proto__" mapping = None)
         /\ binaryObjs (objects s') !! newData = Some prepared
         /\ extends (objects s) (objects s')
         /\ itemObjs (objects s') !! l = Some old
         /\ (forall b, binary old = Some b -> binaryMaps (objects s') !! b = Some e)
         /\ returnData s' = returnData s).
Proof.
  intros Ho Hr Hf Hflag c Hresp. subst c. split.
  - intros Harr.
    rewrite (file_get_pass this i s owner repository filePath Ho Hr Hf Hflag).
    rewrite Hresp. now rewrite folder_rejected.
  - intros name path content bytes l old e prepared
      Harr Hname Hl Hold Hatt Hnd Hc Hbytes Hp Hprep.
    apply decode_line_feeds in Hbytes. rewrite <- Hbytes in Hprep.
    cbv zeta. split; [|split; [|split; [|split; [|split]]]].
    + rewrite (file_get_pass this i s owner repository filePath Ho Hr Hf Hflag).
      rewrite Hresp.
      now rewrite (file_attached this i s owner repository filePath
                     response name path content l old e prepared).
    + reflexivity.
    + apply list_lookup_insert_eq. eapply lookup_lt_Some; eauto.
    + apply lookup_at_end.
    + eexists. split; [apply lookup_at_end|]. split; [|split].
      * intros Hn. now apply lookup_put_same.
      * intros k Hk Hp'. rewrite lookup_put_other by exact Hk.
        now apply lookup_copy.
      * apply lookup_proto_put. now apply lookup_proto_assign_all.
    + split; [apply lookup_at_end|]. split; [|split; [|split]].
      * unfold extends, attached. simpl.
        split; [|split]; eexists; reflexivity.
      * simpl. rewrite lookup_app_l by (eapply lookup_lt_Some; eauto). exact Hold.
      * intros b Hb. unfold attachments in Hatt. rewrite Hb in Hatt. simpl.
        rewrite lookup_app_l by (eapply lookup_lt_Some; eauto). exact Hatt.
      * reflexivity.
Qed.

(** C9: when [file:get] with [asBinaryProperty] succeeds for item [i], the
    run ends there, however many items are left: the loop and the run return
    the item array as it stands, only item [i]'s call is on the trace, and
    the other places of the array are untouched. *)
Theorem binary_return_ends_run (this : IExecuteFunctions) (i n : nat) (s : state)
    (owner repository filePath response name path : json) (content : string)
    (l : loc) (old : INodeExecutionData) (e : IBinaryKeyData) (prepared : IBinaryData) :
  getNodeParameter this "owner" i None = Ok owner ->
  getNodeParameter this "repository" i None = Ok repository ->
  getNodeParameter this "filePath" i None = Ok filePath ->
  getNodeParameter this "asBinaryProperty" i None = Ok (JBool true) ->
  getNodeParameter this "binaryPropertyName" i None = Ok name ->
  let c := file_get_call s owner repository filePath in
  respond this (trace s) c = Ok response ->
  Js.isArray response = false ->
  items s !! i = Some l ->
  itemObjs (objects s) !! l = Some old ->
  attachments (objects s) old e ->
  List.NoDup (List.map fst e) ->
  Js.get "content" response = Ok (JStr content) ->
  Js.get "path" response = Ok path ->
  prepareBinaryData this (Base64.decode content) path = Ok prepared ->
  let s' := attached s i old e (Js.to_string name) prepared c in
  loop this (JStr "file") (JStr "get") (S n) i s
  = (Ok (Some (PrepareOutputData (items s'))), s')
  /\ rest this (JStr "file") (JStr "get") (S n) i s
     = (Ok (PrepareOutputData (items s')), s')
  /\ trace s' = trace s ++ [c]
  /\ (forall k, k <> i -> items s' !! k = items s !! k).
Proof.
  intros Ho Hr Hf Hflag Hname c Hresp Harr Hl Hold Hatt Hnd Hc Hp Hprep s'.
  subst c.
  assert (Hpass : process_item this (JStr "file") (JStr "get") i s
                  = (Ok (Return (PrepareOutputData (items s'))), s')).
  { rewrite (file_get_pass this i s owner repository filePath Ho Hr Hf Hflag).
    rewrite Hresp.
    now rewrite (file_attached this i s owner repository filePath
                   response name path content l old e prepared). }
  assert (Hloop : loop this (JStr "file") (JStr "get") (S n) i s
                  = (Ok (Some (PrepareOutputData (items s'))), s')).
  { simpl. unfold bind, iteration. now rewrite Hpass. }
  repeat split.
  - exact Hloop.
  - unfold rest, bind. now rewrite Hloop.
  - intros k Hk. simpl. apply list_lookup_insert_ne. congruence.
Qed.

(** ** The error policy *)







Lemma bind_inv {A B : Type} (m : M A) (f : A -> M B) (s s' : state) (out : outcome B) :
  bind m f s = (out, s') ->
  (exists e, m s = (Throw e, s') /\ out = Throw e)
  \/ exists a s1, m s = (Ok a, s1) /\ f a s1 = (out, s').
Proof.
  unfold bind. destruct (m s) as [[a|e] s1]; intros H.
  - right. eauto.
  - left. inversion H; subst. eauto.
Qed.



Section ContinueOnFail.

Variable this : IExecuteFunctions.
Variables resource operation : json.







Hypothesis continue : continueOnFail this = true.




End ContinueOnFail.



(** C3: for each paginated operation, with [returnAll] false and a limit
    between 1 and 100 the pass makes exactly one call, a single request
    whose query has [per_page] equal to the limit, and the elements of that
    one page are what is added to the output; with [returnAll] true the one
    call goes to the helper that walks all pages. *)
Theorem one_page_when_limited (this : IExecuteFunctions) (resource operation : string)
    (i : nat) (s : state) (n : Z) (owner repository pullRequestNumber : json)
    (filters : IDataObject) :
  In (resource, operation) paginated ->
  page_parameters this i resource owner repository pullRequestNumber filters ->
  (1 <= n <= 100)%Z ->
  let pass := process_item this (JStr resource) (JStr operation) i s in
  let call_for (all : bool) :=
    page_call resource all (JNum n) owner repository pullRequestNumber filters in
  (getNodeParameter this "returnAll" 0 None = Ok (JBool false) ->
   getNodeParameter this "limit" 0 None = Ok (JNum n) ->
   via (call_for false) = SingleRequest
   /\ Js.get "per_page" (qs (sent (call_for false))) = Ok (JNum n)
   /\ trace (snd pass) = trace s ++ [call_for false]
   /\ forall page,
        respond this (trace s) (call_for false) = Ok (JArr page) ->
        fst pass = Ok Next /\ returnData (snd pass) = returnData s ++ page)
  /\ (getNodeParameter this "returnAll" 0 None = Ok (JBool true) ->
      via (call_for true) = AllItems
      /\ trace (snd pass) = trace s ++ [call_for true]).
Proof.
  intros Hin Hpar Hn pass call_for. subst pass call_for. split.
  - intros Hall Hlimit.
    rewrite (paginated_pass this resource operation i s false (JNum n)
               owner repository pullRequestNumber filters Hin Hpar Hall (fun _ => Hlimit)).
    repeat split.
    + unfold page_call, page_query. simpl. now rewrite lookup_assign_same.
    + destruct (respond this _ _) as [v|]; [destruct (array_like this v)|]; reflexivity.
    + rewrite H. reflexivity.
    + rewrite H. reflexivity.
  - intros Hall.
    rewrite (paginated_pass this resource operation i s true (JNum n)
               owner repository pullRequestNumber filters Hin Hpar Hall
               ltac:(discriminate)).
    split; [reflexivity|].
    destruct (respond this _ _) as [v|]; [destruct (array_like this v)|]; reflexivity.
Qed.

(** C10: [returnAll] and [limit] are read at item 0 only: changing them at
    any later item changes nothing of the run, and the call made for item
    [i] has the mode and the limit of item 0 with the owner, the repository
    and the pull request number of item [i]. *)
Theorem pagination_read_at_first_item (this : IExecuteFunctions)
    (g : string -> nat -> option json -> outcome json) :
  (forall name i fallback,
      i = 0 \/ (name <> "returnAll" /\ name <> "limit") ->
      g name i fallback = getNodeParameter this name i fallback) ->
  execute (with_parameters g this) = execute this
  /\ forall (resource operation : string) (i : nat) (s : state) (all : bool)
            (limit owner repository pullRequestNumber : json) (filters : IDataObject),
      In (resource, operation) paginated ->
      page_parameters this i resource owner repository pullRequestNumber filters ->
      getNodeParameter this "returnAll" 0 None = Ok (JBool all) ->
      (all = false -> getNodeParameter this "limit" 0 None = Ok limit) ->
      trace (snd (process_item (with_parameters g this) (JStr resource)
                    (JStr operation) i s))
      = trace s ++ [page_call resource all limit owner repository
                      pullRequestNumber filters].
Proof.
  intros Hagree. split.
  - now apply execute_agree.
  - intros resource operation i s all limit owner repository pr filters
      Hin Hpar Hall Hlimit.
    rewrite process_item_agree by exact Hagree.
    rewrite (paginated_pass this resource operation i s all limit
               owner repository pr filters Hin Hpar Hall Hlimit).
    destruct (respond this _ _) as [v|]; [destruct (array_like this v)|]; reflexivity.
Qed.

(** C8, as stated, fails: an owner with a slash reaches the endpoint
    unescaped, so the router does not follow the table whose segments are
    percent-encoded. *)
Theorem reserved_characters_not_escaped : ~ router_follows escaped_table.
Proof.
  intros H.
  destruct (H RouteSample.this 0 "repository" "get" "GET"
              (fun o r _ => ("/repos/" ++ Escaping.segment (Js.to_string o) ++ "/"
                               ++ Escaping.segment (Js.to_string r))%string)
              (JStr "octo/cat") (JStr "hello")
              (initial RouteSample.this) (initial RouteSample.this)
              (mkRequest "GET" "/repos/octo/cat/hello" (JObj []) (JObj [])))
    as [_ Hend].
  - unfold escaped_table, routing_table. simpl. tauto.
  - vm_compute. reflexivity.
  - vm_compute in Hend. discriminate Hend.
Qed.

(** ** The stages of a pass *)

Lemma process_item_inv (this : IExecuteFunctions) (resource operation : json)
    (i : nat) (s s' : state) (out : outcome completion) :
  process_item this resource operation i s = (out, s') ->
  (exists e, out = Throw e /\ s' = s
             /\ (getNodeParameter this "owner" i None = Throw e
                 \/ getNodeParameter this "repository" i None = Throw e))
  \/ exists owner repository ro s1,
       (if String.eqb (fullOperation resource operation) "user:invite"
        then owner = JStr ""
        else getNodeParameter this "owner" i None = Ok owner)
       /\ (if String.eqb (fullOperation resource operation) "user:getRepositories"
              || String.eqb (fullOperation resource operation) "user:invite"
           then repository = JStr ""
           else getNodeParameter this "repository" i None = Ok repository)
       /\ route this resource operation owner repository i reset s = (ro, s1)
       /\ pass_end this (fullOperation resource operation) i s1 ro out s'.
Proof.
  unfold process_item. intros H.
  apply bind_inv in H as [(e & H & ->)|(owner & s0 & H1 & H)].
  { left. exists e. split; [reflexivity|].
    unfold param, lift, ret in H. destruct (negb _); inversion H; auto. }
  assert (O : s0 = s
              /\ (if String.eqb (fullOperation resource operation) "user:invite"
                  then owner = JStr ""
                  else getNodeParameter this "owner" i None = Ok owner)).
  { unfold param, lift, ret in H1.
    destruct (String.eqb _ "user:invite"); simpl in H1; inversion H1; auto. }
  destruct O as [-> O]. clear H1.
  apply bind_inv in H as [(e & H & ->)|(repository & s0 & H1 & H)].
  { left. exists e. split; [reflexivity|].
    unfold param, lift, ret in H. destruct (_ && _); inversion H; auto. }
  assert (P : s0 = s
              /\ (if String.eqb (fullOperation resource operation)
                       "user:getRepositories"
                     || String.eqb (fullOperation resource operation) "user:invite"
                  then repository = JStr ""
                  else getNodeParameter this "repository" i None = Ok repository)).
  { unfold param, lift, ret in H1.
    destruct (String.eqb _ "user:getRepositories");
      destruct (String.eqb _ "user:invite"); simpl in H1; inversion H1;
      subst; simpl; auto. }
  destruct P as [-> P]. clear H1. right. exists owner, repository.
  apply bind_inv in H as [(e & H & ->)|(r & s1 & H1 & H)].
  { exists (Throw e), s'. repeat split; auto. constructor. }
  exists (Ok r), s1. split; [exact O|]. split; [exact P|]. split; [exact H1|].
  clear H1 O P.
  apply bind_inv in H as [(e & H & ->)|(all & s2 & H2 & H)]; [discriminate H|].
  inversion H2; subst; clear H2.
  apply bind_inv in H as [(e & H & ->)|(v & s3 & H3 & H)].
  { assert (E : respond this (trace s2) (main_call s2 r) = Throw e /\ s' = requested s2 r).
    { unfold requested, main_call.
      unfold githubApiRequestAllItems, githubApiRequest, issue in H.
      destruct (Js.is_true (returnAll s2)); inversion H; cbv iota; split; reflexivity. }
    destruct E as [E ->]. now constructor. }
  assert (E : respond this (trace s2) (main_call s2 r) = Ok v /\ s3 = requested s2 r).
  { unfold requested, main_call.
    unfold githubApiRequestAllItems, githubApiRequest, issue in H3.
    destruct (Js.is_true (returnAll s2)); inversion H3; cbv iota; split; reflexivity. }
  destruct E as [E ->]. clear H3.
  apply bind_inv in H as [(e & H & ->)|(early & s4 & H4 & H)].
  - destruct (String.eqb_spec (fullOperation resource operation) "file:get")
      as [F|F]; [|discriminate H].
    apply bind_inv in H as [(e' & H & E')|(flag & s5 & H5 & H)].
    + inversion E'; subst e'. unfold param, lift in H.
      inversion H as [[Hp Hs]]. eapply flag_unreadable; eauto.
    + unfold param, lift in H5. inversion H5 as [[Hp Hs]]. subst s5.
      destruct (Js.is_true flag) eqn:T; [|discriminate H].
      apply bind_inv in H as [(e' & H & E')|(o & s6 & H6 & H)]; [|discriminate H].
      inversion E'; subst e'.
      exact (made_binary this _ i s2 r v flag (Throw e) s' E F Hp T H).
  - destruct early as [o|].
    + inversion H; subst; clear H.
      destruct (String.eqb_spec (fullOperation resource operation) "file:get")
        as [F|F]; [|discriminate H4].
      apply bind_inv in H4 as [(e' & H & E')|(flag & s5 & H5 & H)]; [discriminate E'|].
      unfold param, lift in H5. inversion H5 as [[Hp Hs]]. subst s5.
      destruct (Js.is_true flag) eqn:T; [|discriminate H].
      apply bind_inv in H as [(e' & H & E')|(o' & s6 & H6 & H)]; [discriminate E'|].
      inversion H; subst.
      exact (made_binary this _ i s2 r v flag (Ok o) s' E F Hp T H6).
    + assert (G : s4 = requested s2 r
                  /\ (fullOperation resource operation = "file:get" ->
                      exists flag,
                        getNodeParameter this "asBinaryProperty" i None = Ok flag
                        /\ Js.is_true flag = false)).
      { destruct (String.eqb_spec (fullOperation resource operation) "file:get")
          as [F|F].
        - apply bind_inv in H4 as [(e' & H4 & E')|(flag & s5 & H5 & H4)];
            [discriminate E'|].
          unfold param, lift in H5. inversion H5 as [[Hp Hs]]. subst s5.
          destruct (Js.is_true flag) eqn:T.
          + apply bind_inv in H4 as [(e' & H4 & E')|(o' & s6 & H6 & H4)];
              [discriminate E'|discriminate H4].
          + inversion H4. split; [reflexivity|]. intros _. eauto.
        - inversion H4. split; [reflexivity|]. intros F'. contradiction. }
      destruct G as [-> G].
      apply bind_inv in H as [(e & H & ->)|(u & s5 & H5 & H)].
      * exact (accumulated this _ i s2 r v (Throw e) s' E G H).
      * inversion H; subst.
        exact (accumulated this _ i s2 r v (Ok u) s' E G H5).
Qed.

(** ** What the router may change, by operation *)

Section Footprint.

Variable this : IExecuteFunctions.
Variable R : state -> state -> Prop.
(** Whether the relation allows a SHA lookup, and a write of [returnAll]. *)
Variables sends pages : Prop.
Hypothesis R_refl : forall s, R s s.
Hypothesis R_trans : forall a b c, R a b -> R b c -> R a c.
Hypothesis R_lookup :
  sends -> forall s r, R s (with_trace (trace s ++ [mkCall SingleRequest r]) s).
Hypothesis R_returnAll : pages -> forall s v, R s (with_returnAll v s).

Lemma footprint_lift {A : Type} (o : outcome A) : respects R (lift o).
Proof. exact (respects_lift R R_refl o). Qed.

Lemma footprint_ret {A : Type} (a : A) : respects R (ret a).
Proof. apply footprint_lift. Qed.

Lemma footprint_throw {A : Type} (e : error) : respects R (@throw A e).
Proof. apply footprint_lift. Qed.

Lemma footprint_bind {A B : Type} (m : M A) (f : A -> M B) :
  respects R m -> (forall a, respects R (f a)) -> respects R (bind m f).
Proof. exact (respects_bind R R_trans m f). Qed.

Lemma footprint_commit_fields (a : json) (r : request) :
  respects R (commit_fields a r).
Proof. exact (respects_commit_fields R R_refl R_trans a r). Qed.

Lemma footprint_upload_content (i : nat) : respects R (upload_content this i).
Proof. exact (respects_upload_content R R_refl R_trans this i). Qed.

Lemma footprint_getFileSha (o r f b : json) :
  sends -> respects R (getFileSha this o r f b).
Proof.
  intros Hs. unfold getFileSha, githubApiRequest.
  apply footprint_bind.
  - intros s out s' H. inversion H. now apply R_lookup.
  - intros v. apply footprint_bind; [apply footprint_lift|].
    intros sha. destruct (Js.is_undefined sha);
      [apply footprint_throw|apply footprint_ret].
Qed.

Lemma footprint_read_returnAll : pages -> respects R (read_returnAll this).
Proof. intros Hp. exact (respects_read_returnAll R R_refl (R_returnAll Hp) this). Qed.

#[local] Hint Resolve footprint_ret footprint_throw footprint_lift footprint_bind
  footprint_commit_fields footprint_upload_content footprint_getFileSha
  footprint_read_returnAll : footprint.
#[local] Hint Extern 1 (respects _ (match ?x with _ => _ end)) =>
  destruct x : footprint.

(** The router respects [R] for an operation that needs no more than [R]
    allows: a SHA lookup for [file:edit] and [file:delete] only, a write of
    [returnAll] for the paginated operations only. *)
Lemma footprint_route (resource operation : string) (owner repository : json)
    (i : nat) (r : request) :
  (In (resource, operation) looked_up -> sends) ->
  (In (resource, operation) paginated -> pages) ->
  respects R (route this (JStr resource) (JStr operation) owner repository i r).
Proof.
  intros Hs Hp. unfold route, release, repository_. cbn [Js.is_str existsb].
  repeat match goal with
         | |- context [String.eqb ?x ?l] =>
             is_var x; destruct (String.eqb_spec x l); [subst x|]
         end;
    try (assert sends by (apply Hs; simpl; tauto));
    try (assert pages by (apply Hp; simpl; tauto));
    cbn [String.eqb Ascii.eqb Bool.eqb andb orb];
    autounfold with router;
    unfold assign_body, assign_qs, param, param_or;
    cbn [Js.is_str String.eqb Ascii.eqb Bool.eqb andb orb];
    auto 30 with footprint.
Qed.

End Footprint.

(** ** What the later stages of a pass change *)

Lemma as_binary_property_keeps (this : IExecuteFunctions) (v : json) (i : nat)
    (s s' : state) (result : outcome output) :
  as_binary_property this v i s = (result, s') ->
  returnData s' = returnData s /\ returnAll s' = returnAll s /\ trace s' = trace s.
Proof.
  unfold as_binary_property, item_at, alloc_map, alloc_item, alloc_binary, update_map,
    entries_of, set_item, undefined_item.
  unfold_run. intros H.
  crunch H; inversion H; subst; simpl; auto.
Qed.

Lemma as_binary_property_output (this : IExecuteFunctions) (v : json) (i : nat)
    (s s' : state) (o : output) :
  as_binary_property this v i s = (Ok o, s') -> o = PrepareOutputData (items s').
Proof.
  unfold as_binary_property, item_at, alloc_map, alloc_item, alloc_binary, update_map,
    entries_of, set_item, undefined_item.
  unfold_run. intros H.
  crunch H; inversion H; subst; simpl; auto.
Qed.

Lemma accumulate_inv (this : IExecuteFunctions) (full : string) (v : json)
    (s s' : state) (result : outcome unit) :
  accumulate this full v s = (result, s') ->
  objects s' = objects s /\ items s' = items s
  /\ returnAll s' = returnAll s /\ trace s' = trace s
  /\ if Js.includes overwriteDataOperations full
     then result = Ok tt /\ returnData s' = returnData s ++ [v]
     else if Js.includes overwriteDataOperationsArray full
          then match array_like this v with
               | Ok l => result = Ok tt /\ returnData s' = returnData s ++ l
               | Throw e => result = Throw e /\ returnData s' = returnData s
               end
          else result = Ok tt /\ returnData s' = returnData s.
Proof.
  unfold accumulate, push, push_apply. unfold_run. intros H.
  destruct (Js.includes overwriteDataOperations full).
  - inversion H; subst; simpl; repeat split; auto.
  - destruct (Js.includes overwriteDataOperationsArray full).
    + destruct (array_like this v); inversion H; subst; simpl; repeat split; auto.
    + inversion H; subst; simpl; repeat split; auto.
Qed.

(** After the router, a pass leaves [returnAll] alone and sends the one
    request, or none when the router threw. *)
Lemma pass_end_keeps (this : IExecuteFunctions) (full : string) (i : nat)
    (s1 s' : state) (ro : outcome request) (out : outcome completion) :
  pass_end this full i s1 ro out s' ->
  returnAll s' = returnAll s1
  /\ ((exists e, ro = Throw e) /\ trace s' = trace s1
      \/ exists r, ro = Ok r /\ trace s' = trace s1 ++ [main_call s1 r]).
Proof.
  intros H. destruct H as [e|r e E|r v e E F P|r v flag result s' E F P T B
                           |r v result s' E G A].
  - split; [reflexivity|]. left. eauto.
  - split; [reflexivity|]. right. eauto.
  - split; [reflexivity|]. right. eauto.
  - apply as_binary_property_keeps in B as (_ & Hall & Htrace).
    split; [exact Hall|]. right. exists r. split; [reflexivity|exact Htrace].
  - apply accumulate_inv in A as (_ & _ & Hall & Htrace & _).
    split; [exact Hall|]. right. exists r. split; [reflexivity|exact Htrace].
Qed.

(** What a pass adds to [returnData] after the router: the response, for an
    operation of the first list; the response's elements, for one of the
    second; nothing when it throws or returns. *)
Lemma pass_end_returnData (this : IExecuteFunctions) (full : string) (i : nat)
    (s1 s' : state) (ro : outcome request) (out : outcome completion) :
  pass_end this full i s1 ro out s' ->
  match out with
  | Ok Next =>
      if Js.includes overwriteDataOperations full
      then exists v, returnData s' = returnData s1 ++ [v]
      else if Js.includes overwriteDataOperationsArray full
           then exists l, returnData s' = returnData s1 ++ l
           else returnData s' = returnData s1
  | _ => returnData s' = returnData s1
  end.
Proof.
  intros H. destruct H as [e|r e E|r v e E F P|r v flag result s' E F P T B
                           |r v result s' E G A]; try reflexivity.
  - apply as_binary_property_keeps in B as (Hdata & _).
    destruct result; exact Hdata.
  - apply accumulate_inv in A as (_ & _ & _ & _ & A).
    destruct (Js.includes overwriteDataOperations full).
    + destruct A as [-> A]. eauto.
    + destruct (Js.includes overwriteDataOperationsArray full).
      * destruct (array_like this _) as [l|e]; destruct A as [-> A]; eauto.
      * destruct A as [-> A]. exact A.
Qed.

(** A pass of an operation other than [file:get] leaves the items and the
    store as the router left them. *)
Lemma pass_end_objects (this : IExecuteFunctions) (full : string) (i : nat)
    (s1 s' : state) (ro : outcome request) (out : outcome completion) :
  full <> "file:get" ->
  pass_end this full i s1 ro out s' ->
  objects s' = objects s1 /\ items s' = items s1
  /\ forall o, out <> Ok (Return o).
Proof.
  intros Hne H. destruct H as [e|r e E|r v e E F P|r v flag result s' E F P T B
                               |r v result s' E G A]; try contradiction;
    try (repeat split; [discriminate]).
  apply accumulate_inv in A as (Ho & Hi & _).
  repeat split; auto. destruct result; discriminate.
Qed.

(** ** The [catch] block and the loop *)

Lemma iteration_inv (this : IExecuteFunctions) (resource operation : json)
    (i : nat) (s s' : state) (out : outcome completion) :
  iteration this resource operation i s = (out, s') ->
  (exists c, process_item this resource operation i s = (Ok c, s') /\ out = Ok c)
  \/ exists e s1,
       process_item this resource operation i s = (Throw e, s1)
       /\ on_error this (fullOperation resource operation) i e s1 = (out, s').
Proof.
  unfold iteration.
  destruct (process_item this resource operation i s) as [[c|e] s1]; intros H.
  - left. inversion H; subst. eauto.
  - right. eauto.
Qed.

Lemma on_error_keeps (this : IExecuteFunctions) (full : string) (i : nat)
    (e : error) (s s' : state) (out : outcome completion) :
  on_error this full i e s = (out, s') ->
  items s' = items s /\ returnAll s' = returnAll s /\ trace s' = trace s
  /\ (continueOnFail this = false -> out = Throw e /\ s' = s)
  /\ (Js.includes overwriteDataOperations full
      || Js.includes overwriteDataOperationsArray full = true ->
      continueOnFail this = true ->
      out = Ok Next /\ returnData s' = returnData s ++ [error_object e])
  /\ (Js.includes overwriteDataOperations full
      || Js.includes overwriteDataOperationsArray full = false ->
      returnData s' = returnData s).
Proof.
  unfold on_error, set_item_json, item_at, push, undefined_item. unfold_run.
  intros H.
  destruct (continueOnFail this).
  - destruct (_ || _).
    + inversion H; subst; simpl. repeat split; auto; discriminate.
    + crunch H; inversion H; subst; simpl; repeat split; auto; discriminate.
  - inversion H; subst. repeat split; auto; discriminate.
Qed.

Section Loop.

Variable this : IExecuteFunctions.
Variables resource operation : json.
Variable I : nat -> state -> Prop.

(** An invariant of the passes that fall through holds when the loop runs
    to its end. *)
Lemma loop_next :
  (forall i s s',
      I i s -> iteration this resource operation i s = (Ok Next, s') -> I (S i) s') ->
  forall n i s s',
    I i s -> loop this resource operation n i s = (Ok None, s') -> I (i + n) s'.
Proof.
  intros step. induction n as [|n IH]; intros i s s' Hi H; simpl in H.
  - inversion H; subst. now rewrite Nat.add_0_r.
  - unfold bind in H.
    destruct (iteration this resource operation i s) as [[[|o]|e] s1] eqn:E;
      try discriminate H.
    replace (i + S n) with (S i + n) by lia.
    apply (IH (S i) s1 s'); [eapply step; eauto|exact H].
Qed.

(** An invariant of every pass, however it ends, holds however the loop
    ends. *)
Lemma loop_every :
  (forall i s, I i s -> I (S i) s) ->
  (forall i s out s',
      I i s -> iteration this resource operation i s = (out, s') -> I (S i) s') ->
  forall n i s out s',
    I i s -> loop this resource operation n i s = (out, s') -> I (i + n) s'.
Proof.
  intros mono step.
  assert (pad : forall k i s, I i s -> I (i + k) s).
  { induction k as [|k IH]; intros i s H.
    - now rewrite Nat.add_0_r.
    - replace (i + S k) with (S i + k) by lia. apply IH, mono, H. }
  induction n as [|n IH]; intros i s out s' Hi H; simpl in H.
  - inversion H; subst. now rewrite Nat.add_0_r.
  - unfold bind in H.
    destruct (iteration this resource operation i s) as [[[|o]|e] s1] eqn:E.
    + replace (i + S n) with (S i + n) by lia.
      apply (IH (S i) s1 out s'); [eapply step; eauto|exact H].
    + inversion H; subst. replace (i + S n) with (S i + n) by lia.
      apply pad. eapply step; eauto.
    + inversion H; subst. replace (i + S n) with (S i + n) by lia.
      apply pad. eapply step; eauto.
Qed.

(** A loop that ends in a [return] ran a pass that executed it. *)
Lemma loop_return (n : nat) :
  forall i s s' o,
    loop this resource operation n i s = (Ok (Some o), s') ->
    exists k s1, iteration this resource operation k s1 = (Ok (Return o), s').
Proof.
  induction n as [|n IH]; intros i s s' o H; simpl in H; [discriminate H|].
  unfold bind in H.
  destruct (iteration this resource operation i s) as [[[|o']|e] s1] eqn:E;
    try discriminate H.
  - eapply IH; eauto.
  - inversion H; subst. eauto.
Qed.

End Loop.

Lemma execute_inv (this : IExecuteFunctions) (out : outcome output) (s' : state) :
  execute this = (out, s') ->
  (exists e, out = Throw e /\ s' = initial this)
  \/ exists operation resource,
       getNodeParameter this "operation" 0 None = Ok operation
       /\ getNodeParameter this "resource" 0 None = Ok resource
       /\ rest this resource operation (length (snd (getInputData this))) 0
            (initial this) = (out, s').
Proof.
  unfold execute, run. unfold_run.
  destruct (getNodeParameter this "operation" 0 None) as [operation|e].
  - destruct (getNodeParameter this "resource" 0 None) as [resource|e].
    + intros H. right. exists operation, resource. auto.
    + intros H. inversion H. left. eauto.
  - intros H. inversion H. left. eauto.
Qed.

Lemma rest_inv (this : IExecuteFunctions) (resource operation : json) (n i : nat)
    (s s' : state) (out : outcome output) :
  rest this resource operation n i s = (out, s') ->
  (exists e, loop this resource operation n i s = (Throw e, s') /\ out = Throw e)
  \/ (exists o, loop this resource operation n i s = (Ok (Some o), s') /\ out = Ok o)
  \/ (loop this resource operation n i s = (Ok None, s')
      /\ out = Ok (if listed resource operation
                   then ReturnJsonArray (returnData s')
                   else PrepareOutputData (items s'))).
Proof.
  unfold rest, bind, finish, listed.
  destruct (loop this resource operation n i s) as [[[o|]|e] s1]; intros H.
  - inversion H; subst. right. left. eauto.
  - right. right. destruct (_ || _); inversion H; subst; auto.
  - inversion H; subst. left. eauto.
Qed.

(** ** A [return] inside the loop *)

Lemma pass_end_return (this : IExecuteFunctions) (full : string) (i : nat)
    (s1 s' : state) (ro : outcome request) (o : output) :
  pass_end this full i s1 ro (Ok (Return o)) s' ->
  full = "file:get" /\ o = PrepareOutputData (items s').
Proof.
  intros H. inversion H as [| | |r v flag result s2 E F P T B|r v result s2 E G A];
    subst.
  - destruct result as [o'|]; [|discriminate].
    match goal with H : Ok _ = Ok _ |- _ => inversion H; subst end.
    split; [reflexivity|]. eapply as_binary_property_output; eauto.
  - destruct result; discriminate.
Qed.

Lemma iteration_return (this : IExecuteFunctions) (resource operation : json)
    (i : nat) (s s' : state) (o : output) :
  iteration this resource operation i s = (Ok (Return o), s') ->
  fullOperation resource operation = "file:get" /\ o = PrepareOutputData (items s').
Proof.
  intros H. apply iteration_inv in H as [(c & H & E)|(e & s1 & _ & H)].
  - inversion E; subst c.
    apply process_item_inv in H as [(e & E' & _)|(ow & rp & ro & s1 & _ & _ & _ & H)];
      [discriminate E'|].
    eapply pass_end_return; eauto.
  - unfold on_error in H. destruct (continueOnFail this); [|discriminate H].
    unfold bind in H.
    match type of H with
    | context [let (_, _) := ?x in _] => destruct x as [[u|e'] s2]
    end; discriminate H.
Qed.

(** ** One result per item *)

Lemma process_item_returnData (this : IExecuteFunctions) (resource operation : json)
    (i : nat) (s s' : state) (out : outcome completion) :
  process_item this resource operation i s = (out, s') ->
  match out with
  | Ok Next =>
      if Js.includes overwriteDataOperations (fullOperation resource operation)
      then exists v, returnData s' = returnData s ++ [v]
      else if Js.includes overwriteDataOperationsArray
                (fullOperation resource operation)
           then exists l, returnData s' = returnData s ++ l
           else returnData s' = returnData s
  | _ => returnData s' = returnData s
  end.
Proof.
  intros H.
  apply process_item_inv in H as [(e & -> & -> & _)|(ow & rp & ro & s1 & _ & _ & Hr & H)];
    [reflexivity|].
  assert (E : returnData s1 = returnData s).
  { apply (respects_route (fun a b => returnData b = returnData a)) in Hr; auto.
    intros a b c Hab Hbc. congruence. }
  apply pass_end_returnData in H. rewrite E in H. exact H.
Qed.

Lemma iteration_pushes_one (this : IExecuteFunctions) (resource operation : json)
    (i : nat) (s s' : state) :
  In (fullOperation resource operation) overwriteDataOperations ->
  iteration this resource operation i s = (Ok Next, s') ->
  length (returnData s') = S (length (returnData s)).
Proof.
  intros Hin H. apply includes_In in Hin.
  apply iteration_inv in H as [(c & H & E)|(e & s1 & H & Herr)].
  - inversion E; subst c. apply process_item_returnData in H.
    rewrite Hin in H. destruct H as (v & ->). rewrite length_app. simpl. lia.
  - apply process_item_returnData in H.
    apply on_error_keeps in Herr as (_ & _ & _ & Hstop & Hpush & _).
    destruct (continueOnFail this).
    + destruct Hpush as [_ ->]; [now rewrite Hin|reflexivity|].
      rewrite length_app, H. simpl. lia.
    + destruct Hstop as [Hstop _]; [reflexivity|discriminate Hstop].
Qed.

(** ** Operations of neither list *)

Lemma unlisted_not_file_get (resource operation : json) :
  listed resource operation = false ->
  fullOperation resource operation <> "file:get".
Proof.
  unfold listed. intros H E. rewrite E in H. discriminate H.
Qed.

Lemma process_item_unlisted (this : IExecuteFunctions) (resource operation : json)
    (i : nat) (s s' : state) (out : outcome completion) :
  listed resource operation = false ->
  process_item this resource operation i s = (out, s') ->
  objects s' = objects s /\ items s' = items s /\ returnData s' = returnData s.
Proof.
  intros Hl H. pose proof (process_item_returnData _ _ _ _ _ _ _ H) as Hdata.
  apply process_item_inv in H as [(e & -> & -> & _)|(ow & rp & ro & s1 & _ & _ & Hr & H)];
    [auto|].
  assert (E : objects s1 = objects s /\ items s1 = items s).
  { apply (respects_route (fun a b => objects b = objects a /\ items b = items a))
      in Hr; auto.
    intros a b c [? ?] [? ?]. split; congruence. }
  apply pass_end_objects in H as (Ho & Hi & _);
    [|now apply unlisted_not_file_get].
  destruct E as [Eo Ei]. split; [congruence|]. split; [congruence|].
  unfold listed in Hl. apply orb_false_iff in Hl as [L1 L2].
  rewrite L1, L2 in Hdata. destruct out as [[|o]|e]; exact Hdata.
Qed.

Lemma iteration_unlisted (this : IExecuteFunctions) (resource operation : json)
    (i : nat) (s s' : state) (out : outcome completion) :
  listed resource operation = false ->
  iteration this resource operation i s = (out, s') ->
  items s' = items s /\ returnData s' = returnData s
  /\ (continueOnFail this = false -> objects s' = objects s).
Proof.
  intros Hl H. apply iteration_inv in H as [(c & H & E)|(e & s1 & H & Herr)].
  - apply process_item_unlisted in H as (Ho & Hi & Hd); auto.
  - apply process_item_unlisted in H as (Ho & Hi & Hd); [|exact Hl].
    apply on_error_keeps in Herr as (Hi' & _ & _ & Hstop & _ & Hd').
    split; [congruence|]. split; [rewrite Hd'; [exact Hd|exact Hl]|].
    intros Hc. destruct (Hstop Hc) as [_ ->]. exact Ho.
Qed.

(** ** The calls of a pass *)

Lemma process_item_calls (this : IExecuteFunctions) (resource operation : string)
    (i : nat) (s s' : state) (out : outcome completion) :
  ~ In (resource, operation) looked_up ->
  process_item this (JStr resource) (JStr operation) i s = (out, s') ->
  trace s' = trace s \/ exists c, trace s' = trace s ++ [c].
Proof.
  intros Hno H.
  apply process_item_inv in H as [(e & -> & -> & _)|(ow & rp & ro & s1 & _ & _ & Hr & H)];
    [now left|].
  assert (E : trace s1 = trace s).
  { apply (footprint_route this (fun a b => trace b = trace a) False True) in Hr;
      auto; try contradiction.
    intros a b c Hab Hbc. congruence. }
  apply pass_end_keeps in H as (_ & [(_ & H)|(r & _ & H)]); rewrite E in H; eauto.
Qed.

Lemma iteration_calls (this : IExecuteFunctions) (resource operation : string)
    (i : nat) (s s' : state) (out : outcome completion) :
  ~ In (resource, operation) looked_up ->
  iteration this (JStr resource) (JStr operation) i s = (out, s') ->
  length (trace s') <= S (length (trace s)).
Proof.
  intros Hno H.
  assert (G : forall a b : state,
             trace b = trace a \/ (exists c, trace b = trace a ++ [c]) ->
             length (trace b) <= S (length (trace a))).
  { intros a b [->|(c & ->)]; [lia|]. rewrite length_app. simpl. lia. }
  apply iteration_inv in H as [(c & H & E)|(e & s1 & H & Herr)].
  - apply G. eapply process_item_calls; eauto.
  - apply on_error_keeps in Herr as (_ & _ & -> & _).
    apply G. eapply process_item_calls; eauto.
Qed.

(** ** The helper of a pass *)

Lemma process_item_single (this : IExecuteFunctions) (resource operation : string)
    (i : nat) (s s' : state) (out : outcome completion) :
  ~ In (resource, operation) paginated ->
  ~ In (resource, operation) looked_up ->
  process_item this (JStr resource) (JStr operation) i s = (out, s') ->
  single_requests_only s -> single_requests_only s'.
Proof.
  intros Hno Hlook H Hs.
  apply process_item_inv in H
    as [(e & -> & -> & _)|(ow & rp & ro & s1 & _ & _ & Hr & H)];
    [exact Hs|].
  assert (E : single_requests_only s1).
  { apply (footprint_route this
             (fun a b => single_requests_only a -> single_requests_only b)
             False False) in Hr; auto; contradiction. }
  destruct E as [Ea Ef].
  apply pass_end_keeps in H as (Hall & [(_ & H)|(r & _ & H)]);
    split; try congruence.
  rewrite H. apply Forall_app. split; [exact Ef|]. constructor; [|constructor].
  unfold main_call. rewrite Ea. reflexivity.
Qed.

Lemma iteration_single (this : IExecuteFunctions) (resource operation : string)
    (i : nat) (s s' : state) (out : outcome completion) :
  ~ In (resource, operation) paginated ->
  ~ In (resource, operation) looked_up ->
  iteration this (JStr resource) (JStr operation) i s = (out, s') ->
  single_requests_only s -> single_requests_only s'.
Proof.
  intros Hno Hlook H Hs.
  apply iteration_inv in H as [(c & H & E)|(e & s1 & H & Herr)].
  - eapply process_item_single; eauto.
  - apply on_error_keeps in Herr as (_ & Hall & Htrace & _).
    destruct (process_item_single _ _ _ _ _ _ _ Hno Hlook H Hs) as [Ea Ef].
    split; congruence.
Qed.

(** ** Whole runs *)

Lemma iteration_return_flag (this : IExecuteFunctions) (resource operation : json)
    (i : nat) (s s' : state) (o : output) :
  iteration this resource operation i s = (Ok (Return o), s') ->
  exists flag,
    getNodeParameter this "asBinaryProperty" i None = Ok flag
    /\ Js.is_true flag = true.
Proof.
  intros H. apply iteration_inv in H as [(c & H & E)|(e & s1 & _ & H)].
  - inversion E; subst c.
    apply process_item_inv in H as [(e & E' & _)|(ow & rp & ro & s1 & _ & _ & _ & H)];
      [discriminate E'|].
    inversion H as [| | |r v flag result s2 E1 F P T B|r v result s2 E1 G A];
      subst; [eauto|destruct result; discriminate].
  - unfold on_error in H. destruct (continueOnFail this); [|discriminate H].
    unfold bind in H.
    match type of H with
    | context [let (_, _) := ?x in _] => destruct x as [[u|e'] s2]
    end; discriminate H.
Qed.

(** What a pass after which the loop goes on adds to [returnData]. *)
Lemma iteration_contributes (this : IExecuteFunctions) (resource operation : json)
    (i : nat) (s s' : state) :
  s = before_item this resource operation i ->
  iteration this resource operation i s = (Ok Next, s') ->
  exists part,
    returnData s' = returnData s ++ part
    /\ contribution this resource operation i part.
Proof.
  intros Hs H. unfold contribution. rewrite <- Hs. cbv zeta.
  apply iteration_inv in H as [(c & H & E)|(e & s1 & H & Herr)].
  - inversion E; subst c. rewrite H.
    apply process_item_inv in H
      as [(e & E' & _)|(ow & rp & ro & s1 & Eo & Er & Hr & Hend)]; [discriminate E'|].
    assert (D : returnData s1 = returnData s).
    { apply (respects_route (fun a b => returnData b = returnData a)) in Hr; auto.
      intros a b c Hab Hbc. congruence. }
    inversion Hend as [| | |r v flag result s2 E1 F P T B|r v result s2 E1 G A];
      subst; [destruct result; discriminate|].
    destruct result as [[]|]; [|discriminate].
    apply accumulate_inv in A as (_ & _ & _ & _ & A).
    unfold shape_of, reported.
    destruct (Js.includes overwriteDataOperations _).
    + destruct A as [_ A]. eexists. split; [rewrite A, <- D; reflexivity|].
      exists ow, rp, r, s1, v. auto.
    + destruct (Js.includes overwriteDataOperationsArray _).
      * destruct (array_like this _) as [l|e] eqn:El; destruct A as [A1 A];
          [|discriminate A1].
        exists l. split; [rewrite A, <- D; reflexivity|].
        exists ow, rp, r, s1, v. auto.
      * destruct A as [_ A]. exists []. split; [rewrite app_nil_r, A, <- D; reflexivity|].
        exists ow, rp, r, s1, v. auto.
  - rewrite H. apply process_item_returnData in H.
    apply on_error_keeps in Herr as (_ & _ & _ & Hstop & Hpush & Hkeep).
    destruct (continueOnFail this) eqn:C.
    2: { destruct (Hstop eq_refl) as [Hout _]. discriminate Hout. }
    unfold shape_of.
    destruct (Js.includes overwriteDataOperations _) eqn:L1;
      cbn [orb] in Hpush, Hkeep.
    + destruct (Hpush eq_refl eq_refl) as [_ ->]. rewrite H. eauto.
    + destruct (Js.includes overwriteDataOperationsArray _) eqn:L2.
      * destruct (Hpush eq_refl eq_refl) as [_ ->]. rewrite H. eauto.
      * rewrite (Hkeep eq_refl), H. exists []. now rewrite app_nil_r.
Qed.

(** A loop that runs to its end has collected the contributions of the
    items, in their order. *)
Lemma run_collects (this : IExecuteFunctions) (resource operation : json)
    (n : nat) (s' : state) :
  loop this resource operation n 0 (initial this) = (Ok None, s') ->
  exists parts,
    Forall2 (contribution this resource operation) (seq 0 n) parts
    /\ returnData s' = concat parts.
Proof.
  intros H.
  apply (loop_next this resource operation
           (fun k s =>
              s = before_item this resource operation k
              /\ exists parts,
                   Forall2 (contribution this resource operation) (seq 0 k) parts
                   /\ returnData s = concat parts)) in H.
  - apply H.
  - intros i s s2 (Hs & parts & Hparts & Hdata) Hi. split.
    + simpl. rewrite <- Hs, Hi. reflexivity.
    + destruct (iteration_contributes this resource operation i s s2 Hs Hi)
        as (part & Hpart & Hc).
      exists (parts ++ [part]). split.
      * rewrite seq_S. apply Forall2_app; [exact Hparts|]. simpl.
        constructor; [exact Hc|constructor].
      * rewrite concat_app. simpl. rewrite app_nil_r. congruence.
  - split; [reflexivity|]. exists []. split; [constructor|reflexivity].
Qed.

(** Contributions of one entry each give a list with the entry of item
    [a + k] in place [k]. *)
Lemma single_contributions (P : nat -> list json -> Prop) (n : nat) :
  forall (a : nat) (parts : list (list json)),
    (forall k part, P k part -> exists x, part = [x]) ->
    Forall2 P (seq a n) parts ->
    length (concat parts) = n
    /\ forall k entry, concat parts !! k = Some entry -> P (a + k) [entry].
Proof.
  induction n as [|n IH]; intros a parts Hone H; simpl in H.
  - inversion H; subst. split; [reflexivity|]. intros k entry Hk. discriminate Hk.
  - inversion H as [|? part ? more Hp Hmore]; subst.
    destruct (Hone _ _ Hp) as [x ->].
    destruct (IH (S a) more Hone Hmore) as [Hlen Hentry].
    split; [simpl; now rewrite Hlen|].
    intros [|k] entry Hk; simpl in Hk.
    + inversion Hk; subst. now rewrite Nat.add_0_r.
    + replace (a + S k) with (S a + k) by lia. now apply Hentry.
Qed.

(** C5, as stated, fails: [file:get] is in [overwriteDataOperations], yet a
    run of it whose [asBinaryProperty] parameter is set returns the items,
    not the collected results. *)
Theorem file_get_shape_not_by_lists : ~ shape_by_lists_alone.
Proof.
  intros H.
  assert (E : execute FileSample.this
              = (Ok (PrepareOutputData [3; 1; 2]), snd (execute FileSample.this)))
    by (vm_compute; reflexivity).
  specialize (H FileSample.this (JStr "file") (JStr "get") _ _ eq_refl eq_refl E).
  vm_compute in H. discriminate H.
Qed.

(** C5, as amended: no operation is in both lists, and what a run returns
    is fixed by membership in them, whatever the responses are, but for one
    case. The case is [file:get], an operation of the first list, in a run
    where its [asBinaryProperty] parameter is set for some item: that run
    returns the items. Every other run that returns has collected, item by
    item, the response as one entry (first list), the elements of the
    response (second list) or nothing (neither list), and returns the
    collected results for an operation of either list and the items for an
    operation of neither. *)
Theorem response_shape_by_lists (this : IExecuteFunctions)
    (resource operation : json) (out : output) (s' : state) :
  getNodeParameter this "operation" 0 None = Ok operation ->
  getNodeParameter this "resource" 0 None = Ok resource ->
  execute this = (Ok out, s') ->
  let full := fullOperation resource operation in
  (forall op, ~ (In op overwriteDataOperations /\ In op overwriteDataOperationsArray))
  /\ ((full = "file:get"
       /\ out = PrepareOutputData (items s')
       /\ exists i flag,
            getNodeParameter this "asBinaryProperty" i None = Ok flag
            /\ Js.is_true flag = true)
      \/ (out = output_of full s'
          /\ exists parts,
               Forall2 (contribution this resource operation)
                 (seq 0 (length (snd (getInputData this)))) parts
               /\ returnData s' = concat parts)).
Proof.
  intros Hop Hres H full. split; [exact lists_disjoint|].
  apply execute_inv in H as [(e & E & _)|(op & res & Hop' & Hres' & H)];
    [discriminate E|].
  rewrite Hop in Hop'. rewrite Hres in Hres'.
  inversion Hop'; inversion Hres'; subst op res.
  apply rest_inv in H as [(e & _ & E)|[(o & Hl & E)|(Hl & E)]].
  - discriminate E.
  - inversion E; subst o. left.
    apply loop_return in Hl as (k & s1 & Hl).
    destruct (iteration_return _ _ _ _ _ _ _ Hl) as [F Ho].
    destruct (iteration_return_flag _ _ _ _ _ _ _ Hl) as (flag & Hflag & T).
    split; [exact F|]. split; [exact Ho|]. eauto.
  - right. split; [|now apply run_collects].
    inversion E. unfold listed, output_of, shape_of. fold full.
    destruct (Js.includes overwriteDataOperations full);
      [reflexivity|].
    destruct (Js.includes overwriteDataOperationsArray full); reflexivity.
Qed.

(** X1: for an operation of [overwriteDataOperations], a run that returns
    the collected results returns exactly one entry for each input item, in
    the order of the items. The entry of item [k] is what its pass
    contributes: the error object of the error the pass threw or, when it
    fell through, the answer to the request the router built for the item,
    which is the response, whatever it is, and [{success: true}] for
    [release:delete]. *)
Theorem one_result_per_item (this : IExecuteFunctions) (resource operation : json)
    (l : list json) (s' : state) :
  getNodeParameter this "operation" 0 None = Ok operation ->
  getNodeParameter this "resource" 0 None = Ok resource ->
  In (fullOperation resource operation) overwriteDataOperations ->
  execute this = (Ok (ReturnJsonArray l), s') ->
  length l = length (snd (getInputData this))
  /\ forall k entry,
       l !! k = Some entry -> contribution this resource operation k [entry].
Proof.
  intros Hop Hres Hin H.
  apply execute_inv in H as [(e & E & _)|(op & res & Hop' & Hres' & H)];
    [discriminate E|].
  rewrite Hop in Hop'. rewrite Hres in Hres'.
  inversion Hop'; inversion Hres'; subst op res.
  apply rest_inv in H as [(e & _ & E)|[(o & Hl & E)|(Hl & E)]].
  - discriminate E.
  - inversion E; subst o.
    apply loop_return in Hl as (k & s1 & Hl).
    apply iteration_return in Hl as [_ Ho]. discriminate Ho.
  - assert (L : listed resource operation = true).
    { unfold listed. apply includes_In in Hin. now rewrite Hin. }
    rewrite L in E. inversion E; subst l.
    apply run_collects in Hl as (parts & Hparts & ->).
    apply (single_contributions (contribution this resource operation) _ 0);
      [|exact Hparts].
    intros k part. unfold contribution, shape_of.
    apply includes_In in Hin. rewrite Hin.
    destruct (process_item this resource operation k _) as [[[|o]|e] s2].
    + intros (ow & rp & r & s1 & v & _ & _ & _ & _ & ->). eauto.
    + contradiction.
    + intros [_ ->]. eauto.
Qed.

(** X2: for an operation of neither list, a run that returns hands back the
    input item array itself: the responses are dropped, [returnData] stays
    empty, and when continue-on-fail is off no object of the store is
    changed. *)
Theorem unlisted_operation_returns_items (this : IExecuteFunctions)
    (resource operation : json) (out : output) (s' : state) :
  getNodeParameter this "operation" 0 None = Ok operation ->
  getNodeParameter this "resource" 0 None = Ok resource ->
  listed resource operation = false ->
  execute this = (Ok out, s') ->
  out = PrepareOutputData (snd (getInputData this))
  /\ returnData s' = []
  /\ (continueOnFail this = false -> objects s' = fst (getInputData this)).
Proof.
  intros Hop Hres Hl H.
  apply execute_inv in H as [(e & E & _)|(op & res & Hop' & Hres' & H)];
    [discriminate E|].
  rewrite Hop in Hop'. rewrite Hres in Hres'.
  inversion Hop'; inversion Hres'; subst op res.
  apply rest_inv in H as [(e & _ & E)|[(o & Hloop & E)|(Hloop & E)]].
  - discriminate E.
  - apply loop_return in Hloop as (k & s1 & Hloop).
    apply iteration_return in Hloop as [F _].
    now apply unlisted_not_file_get in Hl.
  - rewrite Hl in E. inversion E; subst out.
    apply (loop_next this resource operation
             (fun _ s => items s = snd (getInputData this)
                         /\ returnData s = []
                         /\ (continueOnFail this = false ->
                             objects s = fst (getInputData this)))) in Hloop.
    + destruct Hloop as (Hi & Hd & Ho). rewrite Hi. auto.
    + intros i s s2 (Hi & Hd & Ho) Hs.
      apply iteration_unlisted in Hs as (Hi' & Hd' & Ho'); [|exact Hl].
      split; [congruence|]. split; [congruence|].
      intros Hc. rewrite (Ho' Hc). exact (Ho Hc).
    + simpl. auto.
Qed.

(** X3: a run of any operation but [file:edit] and [file:delete] makes at
    most one API call for each input item, however it ends. *)
Theorem one_call_per_item (this : IExecuteFunctions) (resource operation : string)
    (out : outcome output) (s' : state) :
  getNodeParameter this "operation" 0 None = Ok (JStr operation) ->
  getNodeParameter this "resource" 0 None = Ok (JStr resource) ->
  ~ In (resource, operation) looked_up ->
  execute this = (out, s') ->
  length (trace s') <= length (snd (getInputData this)).
Proof.
  intros Hop Hres Hno H.
  apply execute_inv in H as [(e & _ & ->)|(op & res & Hop' & Hres' & H)];
    [simpl; lia|].
  rewrite Hop in Hop'. rewrite Hres in Hres'.
  inversion Hop'; inversion Hres'; subst op res.
  assert (G : forall early,
             loop this (JStr resource) (JStr operation)
               (length (snd (getInputData this))) 0 (initial this) = (early, s') ->
             length (trace s') <= length (snd (getInputData this))).
  { intros early Hloop.
    apply (loop_every this (JStr resource) (JStr operation)
             (fun k s => length (trace s) <= k)) in Hloop.
    - exact Hloop.
    - intros i s Hi. lia.
    - intros i s o s2 Hi Hs. apply iteration_calls in Hs; [lia|exact Hno].
    - simpl. lia. }
  apply rest_inv in H as [(e & Hl & _)|[(o & Hl & _)|(Hl & _)]]; eapply G; eauto.
Qed.

(** X4: a run of an operation that is not one of the four paginated ones
    never calls [githubApiRequestAllItems]: every request it sends goes
    through [githubApiRequest] ([file:edit] and [file:delete], whose SHA
    lookup is made by another function, apart). *)
Theorem all_items_helper_only_when_paginated (this : IExecuteFunctions)
    (resource operation : string) (out : outcome output) (s' : state) :
  getNodeParameter this "operation" 0 None = Ok (JStr operation) ->
  getNodeParameter this "resource" 0 None = Ok (JStr resource) ->
  ~ In (resource, operation) paginated ->
  ~ In (resource, operation) looked_up ->
  execute this = (out, s') ->
  Forall (fun c => via c = SingleRequest) (trace s').
Proof.
  intros Hop Hres Hno Hlook H.
  apply execute_inv in H as [(e & _ & ->)|(op & res & Hop' & Hres' & H)];
    [constructor|].
  rewrite Hop in Hop'. rewrite Hres in Hres'.
  inversion Hop'; inversion Hres'; subst op res.
  assert (G : forall early,
             loop this (JStr resource) (JStr operation)
               (length (snd (getInputData this))) 0 (initial this) = (early, s') ->
             single_requests_only s').
  { intros early Hloop.
    apply (loop_every this (JStr resource) (JStr operation)
             (fun _ s => single_requests_only s)) in Hloop.
    - exact Hloop.
    - auto.
    - intros i s o s2 Hi Hs. eapply iteration_single; eauto.
    - split; [reflexivity|constructor]. }
  apply rest_inv in H as [(e & Hl & _)|[(o & Hl & _)|(Hl & _)]];
    eapply G in Hl; apply Hl.
Qed.

(** ** Resources and operations without a branch *)

Lemma eqb_not_in (x : string) (l : list string) :
  ~ In x l -> forall y, In y l -> String.eqb x y = false.
Proof.
  intros Hnot y Hy. destruct (String.eqb_spec x y) as [->|]; [contradiction|reflexivity].
Qed.

(** X5: a resource that is none of the six is rejected before anything is
    sent: the pass throws 'The resource "..." is not known!' and leaves the
    state as it was; with continue-on-fail off the run ends in that error
    with no call made. *)
Theorem unknown_resource_rejected (this : IExecuteFunctions)
    (resource operation : json) :
  (forall name, In name resources -> Js.is_str resource name = false) ->
  (forall (i : nat) (s : state) (owner repository : json),
      getNodeParameter this "owner" i None = Ok owner ->
      getNodeParameter this "repository" i None = Ok repository ->
      process_item this resource operation i s
      = (Throw (unknown_resource resource), s))
  /\ (forall owner repository : json,
         getNodeParameter this "operation" 0 None = Ok operation ->
         getNodeParameter this "resource" 0 None = Ok resource ->
         getNodeParameter this "owner" 0 None = Ok owner ->
         getNodeParameter this "repository" 0 None = Ok repository ->
         continueOnFail this = false ->
         snd (getInputData this) <> [] ->
         execute this = (Throw (unknown_resource resource), initial this)).
Proof.
  intros Hnot.
  assert (pass : forall (i : nat) (s : state) (owner repository : json),
             getNodeParameter this "owner" i None = Ok owner ->
             getNodeParameter this "repository" i None = Ok repository ->
             process_item this resource operation i s
             = (Throw (unknown_resource resource), s)).
  { intros i s owner repository Ho Hr.
    unfold process_item, route, unknown_resource.
    rewrite !Hnot by (simpl; tauto).
    unfold_run. rewrite Ho, Hr.
    destruct (negb _); destruct (_ && _); reflexivity. }
  split; [exact pass|].
  intros owner repository Hop Hres Ho Hr Hc Hitems.
  unfold execute, run. unfold_run. rewrite Hop, Hres.
  change (items (initial this)) with (snd (getInputData this)).
  destruct (snd (getInputData this)) as [|l more] eqn:E; [contradiction|].
  unfold rest, bind. simpl. unfold bind, iteration.
  rewrite (pass 0 (initial this) owner repository Ho Hr).
  unfold on_error. now rewrite Hc.
Qed.

(** X6: an operation that has no branch under its resource (such as
    [repository:getProfile]) is not rejected: the router leaves the four
    variables as they were reset, and the pass sends a GET to the empty
    endpoint with an empty body and an empty query. *)
Theorem operation_without_branch_sends_reset_request (this : IExecuteFunctions)
    (resource operation : string) (operations : list string)
    (owner repository : json) (i : nat) (s : state) :
  In (resource, operations) branches ->
  ~ In operation operations ->
  getNodeParameter this "owner" i None = Ok owner ->
  getNodeParameter this "repository" i None = Ok repository ->
  route this (JStr resource) (JStr operation) owner repository i reset s
  = (Ok reset, s)
  /\ trace (snd (process_item this (JStr resource) (JStr operation) i s))
     = trace s
       ++ [mkCall (if Js.is_true (returnAll s) then AllItems else SingleRequest)
             (mkRequest "GET" "" (JObj []) (JObj []))].
Proof.
  intros Hin Hnot Ho Hr.
  assert (Hroute : forall ow rp,
             route this (JStr resource) (JStr operation) ow rp i reset s
             = (Ok reset, s)).
  { intros ow rp. simpl in Hin.
    repeat (destruct Hin as [E|Hin]; [inversion E; subst; clear E|]);
      [..|contradiction];
      unfold route, release, repository_;
      cbn [Js.is_str existsb String.eqb Ascii.eqb Bool.eqb];
      rewrite !(eqb_not_in operation _ Hnot) by (simpl; auto 10);
      reflexivity. }
  split; [apply Hroute|].
  destruct (process_item this (JStr resource) (JStr operation) i s)
    as [out s'] eqn:E.
  apply process_item_inv in E
    as [(e & _ & _ & [E|E])|(ow & rp & ro & s1 & _ & _ & Hr' & H)];
    [congruence|congruence|].
  rewrite Hroute in Hr'. inversion Hr'; subst ro s1.
  apply pass_end_keeps in H as (_ & [((e & E) & _)|(r & E & H)]);
    [discriminate E|].
  inversion E; subst r. exact H.
Qed.

(** ** The release branch *)

(** X7: the release branch tests the operation in five independent [if]s;
    since the tests exclude each other it behaves as an [else if] chain, so
    that one request is built for an item, by the branch of its operation. *)
Theorem release_ifs_act_as_chain (this : IExecuteFunctions)
    (operation owner repository : json) (i : nat) (r : request) (s : state) :
  release this operation owner repository i r s
  = release_chain this operation owner repository i r s.
Proof.
  unfold release, release_chain.
  destruct operation as [| |b|n|o|l|o]; try reflexivity.
  cbn [Js.is_str].
  repeat match goal with
         | |- context [String.eqb o ?l] =>
             destruct (String.eqb_spec o l); [subst o|]
         end;
    cbn [String.eqb Ascii.eqb Bool.eqb];
    unfold bind, ret;
    repeat match goal with
           | |- context [let (_, _) := ?x in _] => destruct x as [[?|?] ?]
           end;
    reflexivity.
Qed.

(** ** Runs in which every pass falls through *)

Lemma loop_collect (this : IExecuteFunctions) (resource operation : json)
    (f : nat -> list json) (bound : nat) :
  (forall i s, i < bound ->
     exists s', iteration this resource operation i s = (Ok Next, s')
                /\ returnData s' = returnData s ++ f i) ->
  forall n i s, i + n <= bound ->
    exists s', loop this resource operation n i s = (Ok None, s')
               /\ returnData s' = returnData s ++ flat_map f (seq i n).
Proof.
  intros step. induction n as [|n IH]; intros i s Hb; simpl.
  - exists s. split; [reflexivity|]. now rewrite app_nil_r.
  - destruct (step i s ltac:(lia)) as (s1 & E1 & D1).
    destruct (IH (S i) s1 ltac:(lia)) as (s2 & E2 & D2).
    exists s2. unfold bind. rewrite E1. split; [exact E2|].
    rewrite D2, D1. now rewrite <- app_assoc.
Qed.

Lemma execute_collect (this : IExecuteFunctions) (resource operation : json)
    (f : nat -> list json) :
  getNodeParameter this "operation" 0 None = Ok operation ->
  getNodeParameter this "resource" 0 None = Ok resource ->
  listed resource operation = true ->
  (forall i s, i < length (snd (getInputData this)) ->
     exists s', iteration this resource operation i s = (Ok Next, s')
                /\ returnData s' = returnData s ++ f i) ->
  fst (execute this)
  = Ok (ReturnJsonArray (flat_map f (seq 0 (length (snd (getInputData this)))))).
Proof.
  intros Hop Hres Hl step.
  unfold execute, run. unfold_run. rewrite Hop, Hres.
  change (items (initial this)) with (snd (getInputData this)).
  destruct (loop_collect this resource operation f _ step
              (length (snd (getInputData this))) 0 (initial this) ltac:(lia))
    as (s' & E & D).
  unfold rest, bind. rewrite E. unfold finish. unfold listed in Hl. rewrite Hl.
  simpl. now rewrite D.
Qed.

Lemma flat_map_constant {A B : Type} (x : B) (l : list A) :
  flat_map (fun _ => [x]) l = repeat x (length l).
Proof. induction l as [|a l IH]; simpl; [|rewrite IH]; reflexivity. Qed.

Lemma release_delete_pass (this : IExecuteFunctions) (i : nat) (s : state)
    (owner repository id : json) :
  getNodeParameter this "owner" i None = Ok owner ->
  getNodeParameter this "repository" i None = Ok repository ->
  getNodeParameter this "release_id" i None = Ok id ->
  let r := mkRequest "DELETE"
             (repos owner repository ++ "/releases/" ++ Js.to_string id)
             (JObj []) (JObj []) in
  process_item this (JStr "release") (JStr "delete") i s
  = match respond this (trace s) (main_call s r) with
    | Ok _ => (Ok Next, with_returnData (returnData s ++ [success]) (requested s r))
    | Throw e => (Throw e, requested s r)
    end.
Proof.
  intros Ho Hr Hid r.
  unfold process_item. rewrite fullOperation_str. simpl.
  autounfold with router.
  unfold githubApiRequest, githubApiRequestAllItems, issue, accumulate, push.
  unfold_run. simpl. rewrite Ho, Hr, Hid. simpl.
  unfold requested, main_call. simpl.
  destruct (Js.is_true (returnAll s)); destruct (respond this _ _); reflexivity.
Qed.

(** X8: [release:delete] never returns what the API answered: when every
    call succeeds, the run returns one [{success: true}] for each input
    item, whatever the responses were. *)
Theorem release_delete_reports_success (this : IExecuteFunctions) :
  getNodeParameter this "operation" 0 None = Ok (JStr "delete") ->
  getNodeParameter this "resource" 0 None = Ok (JStr "release") ->
  (forall i, i < length (snd (getInputData this)) ->
     exists owner repository id,
       getNodeParameter this "owner" i None = Ok owner
       /\ getNodeParameter this "repository" i None = Ok repository
       /\ getNodeParameter this "release_id" i None = Ok id) ->
  (forall made c, exists v, respond this made c = Ok v) ->
  fst (execute this)
  = Ok (ReturnJsonArray (repeat success (length (snd (getInputData this))))).
Proof.
  intros Hop Hres Hpar Hok.
  rewrite (execute_collect this (JStr "release") (JStr "delete") (fun _ => [success]));
    try assumption; try reflexivity.
  - now rewrite flat_map_constant, length_seq.
  - intros i s Hi. destruct (Hpar i Hi) as (owner & repository & id & Ho & Hr & Hid).
    unfold iteration. rewrite (release_delete_pass this i s owner repository id Ho Hr Hid).
    destruct (Hok (trace s) (main_call s (mkRequest "DELETE"
                (repos owner repository ++ "/releases/" ++ Js.to_string id)
                (JObj []) (JObj [])))) as (v & ->).
    eexists. split; reflexivity.
Qed.

(** X9: a paginated operation over several items returns the entries of
    all responses in item order: when the API answers every call with an
    array, the run returns the concatenation of the answers to the calls of
    item 0, 1, 2, ... *)
Theorem paginated_results_concatenated (this : IExecuteFunctions)
    (resource operation : string) (all : bool) (limit : json)
    (owner repository pr : nat -> json) (filters : nat -> IDataObject)
    (answer : call -> list json) :
  In (resource, operation) paginated ->
  getNodeParameter this "operation" 0 None = Ok (JStr operation) ->
  getNodeParameter this "resource" 0 None = Ok (JStr resource) ->
  (forall i, i < length (snd (getInputData this)) ->
     page_parameters this i resource (owner i) (repository i) (pr i) (filters i)) ->
  getNodeParameter this "returnAll" 0 None = Ok (JBool all) ->
  (all = false -> getNodeParameter this "limit" 0 None = Ok limit) ->
  (forall made c, respond this made c = Ok (JArr (answer c))) ->
  fst (execute this)
  = Ok (ReturnJsonArray
          (flat_map
             (fun i => answer (page_call resource all limit (owner i) (repository i)
                                 (pr i) (filters i)))
             (seq 0 (length (snd (getInputData this)))))).
Proof.
  intros Hin Hop Hres Hpar Hall Hlimit Hok.
  apply (execute_collect this (JStr resource) (JStr operation)); try assumption.
  - simpl in Hin.
    destruct Hin as [E|[E|[E|[E|[]]]]]; inversion E; subst; reflexivity.
  - intros i s Hi. unfold iteration.
    rewrite (paginated_pass this resource operation i s all limit
               (owner i) (repository i) (pr i) (filters i) Hin (Hpar i Hi) Hall Hlimit).
    rewrite Hok. simpl. eexists. split; reflexivity.
Qed.

(** ** Uploads: [file:create] *)

Lemma upload_text (this : IExecuteFunctions) (i : nat) (s : state)
    (flag : json) (text : string) :
  getNodeParameter this "binaryData" i None = Ok flag ->
  Js.is_true flag = false ->
  getNodeParameter this "fileContent" i None = Ok (JStr text) ->
  upload_content this i s
  = (Ok (JStr (Base64.encode (list_byte_of_string text))), s).
Proof.
  intros Hflag Hfalse Htext. unfold upload_content. unfold_run.
  rewrite Hflag, Hfalse, Htext. reflexivity.
Qed.

Lemma upload_without_binary (this : IExecuteFunctions) (i : nat) (s : state)
    (flag : json) (l : loc) (item : INodeExecutionData) :
  getNodeParameter this "binaryData" i None = Ok flag ->
  Js.is_true flag = true ->
  items s !! i = Some l ->
  itemObjs (objects s) !! l = Some item ->
  binary item = None ->
  upload_content this i s
  = (Throw (NodeOperationError "No binary data exists on item!"), s).
Proof.
  intros Hflag Htrue Hl Hitem Hnone.
  unfold upload_content, item_at. unfold_run.
  now rewrite Hflag, Htrue, Hl, Hitem, Hnone.
Qed.

(** What the upload of a named attachment finds among the attachments
    [entries] of item [i]. *)
Lemma upload_attachment (this : IExecuteFunctions) (i : nat) (s : state)
    (flag name : json) (l m : loc) (item : INodeExecutionData)
    (entries : IBinaryKeyData) :
  getNodeParameter this "binaryData" i None = Ok flag ->
  Js.is_true flag = true ->
  items s !! i = Some l ->
  itemObjs (objects s) !! l = Some item ->
  binary item = Some m ->
  binaryMaps (objects s) !! m = Some entries ->
  getNodeParameter this "binaryPropertyName" i None = Ok name ->
  upload_content this i s
  = match Js.lookup (Js.to_string name) entries with
    | None =>
        if Js.includes Js.inherited (Js.to_string name) then (Ok JUndefined, s)
        else
          (Throw (NodeOperationError
                    ("No binary data property " ++ Js.dquote
                       ++ Js.to_string name ++ Js.dquote
                       ++ " does not exists on item!")), s)
    | Some d =>
        match binaryObjs (objects s) !! d with
        | Some attachment => (Ok (JStr (data attachment)), s)
        | None => undefined_item s
        end
    end.
Proof.
  intros Hflag Htrue Hl Hitem Hm Hentries Hname.
  unfold upload_content, item_at, entries_of, binary_at. unfold_run.
  rewrite Hflag, Htrue, Hl, Hitem, Hm, Hname, Hentries.
  destruct (Js.lookup (Js.to_string name) entries) as [d|].
  - destruct (binaryObjs (objects s) !! d); reflexivity.
  - destruct (Js.includes Js.inherited (Js.to_string name)); reflexivity.
Qed.

(** The commit fields of an object parameter never throw, and touch no key
    but [author], [committer] and [branch]. *)
Lemma commit_fields_object (ap b : IDataObject) (verb path : string) (q : json)
    (s : state) :
  exists b',
    commit_fields (JObj ap) (mkRequest verb path (JObj b) q) s
    = (Ok (mkRequest verb path (JObj b') q), s)
    /\ forall k, k <> "author" -> k <> "committer" -> k <> "branch" ->
                 Js.lookup k b' = Js.lookup k b.
Proof.
  unfold commit_fields. unfold_run. simpl.
  destruct (Js.lookup "branch" ap) as [branch|]; [destruct branch|]; simpl;
    repeat match goal with
           | |- context [if ?c then _ else _] => destruct c; simpl
           end;
    eexists; (split; [reflexivity|]); intros k K1 K2 K3;
    now rewrite ?lookup_assign_other by assumption.
Qed.

Opaque commit_fields upload_content.

(** The request of [file:create], by what the upload yields. *)
Lemma file_create_steps (this : IExecuteFunctions) (i : nat) (s : state)
    (owner repository filePath commitMessage : json) (ap : IDataObject) :
  getNodeParameter this "filePath" i None = Ok filePath ->
  getNodeParameter this "additionalParameters" i (Some (JObj [])) = Ok (JObj ap) ->
  getNodeParameter this "commitMessage" i None = Ok commitMessage ->
  exists b0,
    Js.lookup "sha" b0 = None
    /\ route this (JStr "file") (JStr "create") owner repository i reset s
       = match upload_content this i s with
         | (Ok content, s1) =>
             (Ok (mkRequest "PUT" (contents owner repository filePath)
                    (JObj (Js.assign "content" content
                             (Js.assign "message" commitMessage b0)))
                    (JObj [])), s1)
         | (Throw e, s1) => (Throw e, s1)
         end.
Proof.
  intros Hpath Hap Hmessage.
  destruct (commit_fields_object ap [] "PUT" "" (JObj []) s) as (b0 & E & Hkeep).
  exists b0. split; [now rewrite Hkeep by discriminate|].
  unfold route. cbn [Js.is_str existsb String.eqb Ascii.eqb Bool.eqb orb].
  unfold file_create_edit. unfold_run. rewrite Hpath, Hap.
  unfold reset, with_method. cbn [requestMethod endpoint body qs].
  rewrite E. cbn [Js.is_str String.eqb Ascii.eqb Bool.eqb body].
  rewrite Hmessage. cbn [Js.set with_body requestMethod endpoint body qs].
  destruct (upload_content this i s) as [[content|e] s1]; reflexivity.
Qed.

(** A pass whose router throws ends there. *)
Lemma process_item_router_throws (this : IExecuteFunctions)
    (resource operation owner repository : json) (i : nat) (s s1 : state)
    (e : error) :
  getNodeParameter this "owner" i None = Ok owner ->
  getNodeParameter this "repository" i None = Ok repository ->
  skipped (fullOperation resource operation) = [] ->
  route this resource operation owner repository i reset s = (Throw e, s1) ->
  process_item this resource operation i s = (Throw e, s1).
Proof.
  intros Ho Hr Hskip Hroute. unfold process_item, skipped in *.
  destruct (String.eqb (fullOperation resource operation) "user:invite");
    [discriminate Hskip|].
  destruct (String.eqb (fullOperation resource operation) "user:getRepositories");
    [discriminate Hskip|].
  unfold_run. cbn [negb andb]. rewrite Ho, Hr, Hroute. reflexivity.
Qed.

(** The call of a pass whose router gives a request. *)
Lemma process_item_routed (this : IExecuteFunctions)
    (resource operation owner repository : json) (i : nat) (s s1 : state)
    (r : request) :
  getNodeParameter this "owner" i None = Ok owner ->
  getNodeParameter this "repository" i None = Ok repository ->
  skipped (fullOperation resource operation) = [] ->
  route this resource operation owner repository i reset s = (Ok r, s1) ->
  trace (snd (process_item this resource operation i s))
  = trace s1 ++ [main_call s1 r].
Proof.
  intros Ho Hr Hskip Hroute.
  destruct (process_item this resource operation i s) as [out s'] eqn:E.
  apply process_item_inv in E
    as [(e & _ & _ & [E|E])|(ow & rp & ro & s2 & Eo & Er & Hr' & H)];
    [congruence|congruence|].
  unfold skipped in Hskip.
  destruct (String.eqb (fullOperation resource operation) "user:invite");
    [discriminate Hskip|].
  destruct (String.eqb (fullOperation resource operation) "user:getRepositories");
    [discriminate Hskip|].
  simpl in Er. rewrite Ho in Eo. rewrite Hr in Er.
  inversion Eo; inversion Er; subst ow rp.
  rewrite Hroute in Hr'. inversion Hr'; subst ro s2.
  apply pass_end_keeps in H as (_ & [((e & E) & _)|(r' & E & H)]);
    [discriminate E|].
  inversion E; subst r'. exact H.
Qed.

(** X10: what [file:create] sends: a PUT to the contents endpoint of the
    file whose body carries the commit message, no [sha], and as [content]
    the text parameter in base64 or, for a binary upload, the [data] of the
    named attachment as it is stored. *)
Theorem file_create_request (this : IExecuteFunctions) (i : nat) (s : state)
    (owner repository filePath commitMessage flag : json) (ap : IDataObject) :
  getNodeParameter this "filePath" i None = Ok filePath ->
  getNodeParameter this "additionalParameters" i (Some (JObj [])) = Ok (JObj ap) ->
  getNodeParameter this "commitMessage" i None = Ok commitMessage ->
  getNodeParameter this "binaryData" i None = Ok flag ->
  let sends (content : string) : Prop :=
    exists b,
      route this (JStr "file") (JStr "create") owner repository i reset s
      = (Ok (mkRequest "PUT" (contents owner repository filePath) (JObj b)
               (JObj [])), s)
      /\ Js.lookup "content" b = Some (JStr content)
      /\ Js.lookup "message" b = Some commitMessage
      /\ Js.lookup "sha" b = None in
  (Js.is_true flag = false ->
   forall text,
     getNodeParameter this "fileContent" i None = Ok (JStr text) ->
     sends (Base64.encode (list_byte_of_string text)))
  /\ (Js.is_true flag = true ->
      forall (name : json) (l m d : loc) (item : INodeExecutionData)
             (entries : IBinaryKeyData) (attachment : IBinaryData),
        getNodeParameter this "binaryPropertyName" i None = Ok name ->
        items s !! i = Some l ->
        itemObjs (objects s) !! l = Some item ->
        binary item = Some m ->
        binaryMaps (objects s) !! m = Some entries ->
        Js.lookup (Js.to_string name) entries = Some d ->
        binaryObjs (objects s) !! d = Some attachment ->
        sends (data attachment)).
Proof.
  intros Hpath Hap Hmessage Hflag sends.
  destruct (file_create_steps this i s owner repository filePath commitMessage ap
              Hpath Hap Hmessage) as (b0 & Hsha & Hroute).
  assert (G : forall content,
             upload_content this i s = (Ok (JStr content), s) -> sends content).
  { intros content Hup. rewrite Hup in Hroute.
    eexists. split; [exact Hroute|].
    autorewrite with objects. repeat split. exact Hsha. }
  split.
  - intros Hfalse text Htext. apply G.
    eapply upload_text; eauto.
  - intros Htrue name l m d item entries attachment Hname Hl Hitem Hm He Hd Ha.
    apply G.
    rewrite (upload_attachment this i s flag name l m item entries) by assumption.
    now rewrite Hd, Ha.
Qed.

(** X11: a binary upload that finds no attachment. The [file:create] pass
    throws 'No binary data exists on item!' when the item has no binary
    data, and 'No binary data property "..." does not exists on item!' when
    its mapping has no attachment of the given name and the name is not one
    that every object inherits; the state is then as it was, so no request
    was made. Under an inherited name, such as [constructor], the check
    passes: the pass sends the PUT, with the commit message and a [content]
    that is undefined. *)
Theorem upload_without_attachment (this : IExecuteFunctions)
    (i : nat) (s : state) (owner repository filePath commitMessage flag : json)
    (ap : IDataObject) (l : loc) (item : INodeExecutionData) :
  getNodeParameter this "owner" i None = Ok owner ->
  getNodeParameter this "repository" i None = Ok repository ->
  getNodeParameter this "filePath" i None = Ok filePath ->
  getNodeParameter this "additionalParameters" i (Some (JObj [])) = Ok (JObj ap) ->
  getNodeParameter this "commitMessage" i None = Ok commitMessage ->
  getNodeParameter this "binaryData" i None = Ok flag ->
  Js.is_true flag = true ->
  items s !! i = Some l ->
  itemObjs (objects s) !! l = Some item ->
  (binary item = None ->
   process_item this (JStr "file") (JStr "create") i s
   = (Throw (NodeOperationError "No binary data exists on item!"), s))
  /\ (forall (name : json) (m : loc) (entries : IBinaryKeyData),
        binary item = Some m ->
        binaryMaps (objects s) !! m = Some entries ->
        getNodeParameter this "binaryPropertyName" i None = Ok name ->
        Js.lookup (Js.to_string name) entries = None ->
        (~ In (Js.to_string name) Js.inherited ->
         process_item this (JStr "file") (JStr "create") i s
         = (Throw (NodeOperationError
                     ("No binary data property " ++ Js.dquote
                        ++ Js.to_string name ++ Js.dquote
                        ++ " does not exists on item!")), s))
        /\ (In (Js.to_string name) Js.inherited ->
            exists b,
              Js.lookup "content" b = Some JUndefined
              /\ Js.lookup "message" b = Some commitMessage
              /\ trace (snd (process_item this (JStr "file") (JStr "create") i s))
                 = trace s
                     ++ [main_call s
                           (mkRequest "PUT" (contents owner repository filePath)
                              (JObj b) (JObj []))])).
Proof.
  intros Ho Hr Hpath Hap Hmessage Hflag Htrue Hl Hitem.
  destruct (file_create_steps this i s owner repository filePath commitMessage ap
              Hpath Hap Hmessage) as (b0 & _ & Hroute).
  split.
  - intros Hnone.
    apply (process_item_router_throws this _ _ owner repository); auto.
    rewrite Hroute.
    now rewrite (upload_without_binary this i s flag l item).
  - intros name m entries Hm He Hname Hmissing.
    rewrite (upload_attachment this i s flag name l m item entries) in Hroute
      by assumption.
    rewrite Hmissing in Hroute. split.
    + intros Hown.
      apply (process_item_router_throws this _ _ owner repository); auto.
      rewrite Hroute.
      destruct (Js.includes Js.inherited (Js.to_string name)) eqn:E;
        [|reflexivity].
      apply includes_In in E. contradiction.
    + intros Hin. apply includes_In in Hin. rewrite Hin in Hroute.
      eexists. split; [|split].
      3: { apply (process_item_routed this _ _ owner repository); auto.
           exact Hroute. }
      * now autorewrite with objects.
      * rewrite lookup_assign_other by discriminate.
        now autorewrite with objects.
Qed.

(** X12: what [file:create] uploads from the text parameter is what
    [file:get] decodes when it attaches a file: the buffer made of the
    uploaded [content] holds the bytes of the text. *)
Theorem text_upload_round_trip (this : IExecuteFunctions) (i : nat) (s : state)
    (flag : json) (text : string) :
  getNodeParameter this "binaryData" i None = Ok flag ->
  Js.is_true flag = false ->
  getNodeParameter this "fileContent" i None = Ok (JStr text) ->
  exists content,
    upload_content this i s = (Ok content, s)
    /\ buffer_base64 this content = Ok (list_byte_of_string text).
Proof.
  intros Hflag Hfalse Htext. eexists. split.
  - eapply upload_text; eauto.
  - simpl. now rewrite decode_encode.
Qed.

Transparent commit_fields upload_content.

(** ** The parameters a pass does not read *)

Section Skipped.

Variable this : IExecuteFunctions.
Variable g : string -> nat -> option json -> outcome json.
Variables resource operation : json.

(** [g] is the accessor of [this] except, possibly, for the skipped
    parameters of the operation. *)
Hypothesis agree :
  forall name i fallback,
    ~ In name (skipped (fullOperation resource operation)) ->
    g name i fallback = getNodeParameter this name i fallback.

Lemma process_item_skips (i : nat) (s : state) :
  process_item (with_parameters g this) resource operation i s
  = process_item this resource operation i s.
Proof.
  unfold process_item.
  unfold skipped in agree.
  destruct (String.eqb (fullOperation resource operation) "user:invite") eqn:E1;
    destruct (String.eqb (fullOperation resource operation) "user:getRepositories")
      eqn:E2;
    cbn [negb andb orb app] in *.
  1: { apply String.eqb_eq in E1, E2. congruence. }
  all: autounfold with router;
    unfold as_binary_property, accumulate, push_apply, array_like, getFileSha,
      upload_content, buffer_utf8, buffer_base64,
      githubApiRequest, githubApiRequestAllItems, issue, param, param_or;
    unfold with_parameters;
    cbn [getInputData getNodeParameter continueOnFail prepareBinaryData respond
         Buffer_from ToLength];
    repeat (rewrite agree
             by (let H := fresh in
                 intros H; repeat (destruct H as [H|H]; [discriminate H|]);
                 exact H));
    reflexivity.
Qed.

Lemma iteration_skips (i : nat) (s : state) :
  iteration (with_parameters g this) resource operation i s
  = iteration this resource operation i s.
Proof.
  unfold iteration. rewrite process_item_skips. reflexivity.
Qed.

Lemma loop_skips (n i : nat) (s : state) :
  loop (with_parameters g this) resource operation n i s
  = loop this resource operation n i s.
Proof.
  revert i s. induction n as [|n IH]; intros i s; simpl; [reflexivity|].
  unfold bind. rewrite iteration_skips.
  destruct (iteration this resource operation i s) as [[[|out]|e] s1]; auto.
Qed.

End Skipped.

(** X13: [owner] is not read for [user:invite], and [repository] is read
    neither for [user:invite] nor for [user:getRepositories]: a run is the
    same whatever the accessor answers for them, an exception included. *)
Theorem skipped_parameters_are_not_read (this : IExecuteFunctions)
    (g : string -> nat -> option json -> outcome json) (resource operation : json) :
  getNodeParameter this "operation" 0 None = Ok operation ->
  getNodeParameter this "resource" 0 None = Ok resource ->
  (forall name i fallback,
      ~ In name (skipped (fullOperation resource operation)) ->
      g name i fallback = getNodeParameter this name i fallback) ->
  execute (with_parameters g this) = execute this.
Proof.
  intros Hop Hres agree.
  assert (N : forall name, name <> "owner" -> name <> "repository" ->
                           ~ In name (skipped (fullOperation resource operation))).
  { intros name H1 H2. unfold skipped.
    destruct (String.eqb _ "user:invite");
      destruct (String.eqb _ "user:getRepositories"); simpl; intuition congruence. }
  unfold execute, run, rest, initial, bind, param, lift.
  unfold with_parameters at 1 2 3 4.
  cbn [getInputData getNodeParameter].
  rewrite !agree by (apply N; discriminate).
  rewrite Hop, Hres.
  fold (with_parameters g this).
  now rewrite (loop_skips this g resource operation agree).
Qed.

(** ** The credential test *)

(** X14: for credential data that is an object the credential test makes
    one request and always comes back with a result; the result is OK
    exactly when the request resolved with a response whose [id] is truthy,
    and an error otherwise, a rejected request and a [null] response
    included. *)
Theorem credential_test_verdict (this : CredentialTest.ICredentialTestFunctions)
    (fields : IDataObject) :
  exists result options,
    CredentialTest.githubApiTest this (CredentialTest.mkCredential (JObj fields))
    = (Ok result, [options])
    /\ (CredentialTest.status result = "OK"
        \/ CredentialTest.status result = "Error")
    /\ (CredentialTest.status result = "OK" <->
        exists response id,
          CredentialTest.request this options = CredentialTest.Resolved response
          /\ Js.get "id" response = Ok id /\ Js.truthy id = true).
Proof.
  unfold CredentialTest.githubApiTest. cbn [CredentialTest.data Js.get].
  set (options := CredentialTest.mkOptions _ _ _ _ _).
  assert (G : forall r : CredentialTest.INodeCredentialTestResult,
             CredentialTest.status r = "Error" ->
             ~ (exists response id,
                   CredentialTest.request this options
                   = CredentialTest.Resolved response
                   /\ Js.get "id" response = Ok id /\ Js.truthy id = true) ->
             exists result options',
               (Ok r, [options]) = (Ok result, [options'])
               /\ (CredentialTest.status result = "OK"
                   \/ CredentialTest.status result = "Error")
               /\ (CredentialTest.status result = "OK" <->
                   exists response id,
                     CredentialTest.request this options'
                     = CredentialTest.Resolved response
                     /\ Js.get "id" response = Ok id /\ Js.truthy id = true)).
  { intros r Hr Hno. exists r, options. split; [reflexivity|].
    split; [now right|]. split; [|contradiction].
    rewrite Hr. discriminate. }
  destruct (CredentialTest.request this options) as [response|text] eqn:R.
  - destruct (Js.get "id" response) as [id|e] eqn:Hid.
    + destruct (Js.truthy id) eqn:T; cbn [negb].
      * eexists _, options. split; [reflexivity|].
        split; [now left|]. split; [|reflexivity]. intros _. eauto.
      * assert (Hno : ~ (exists response0 id0,
                            CredentialTest.Resolved response
                            = CredentialTest.Resolved response0
                            /\ Js.get "id" response0 = Ok id0
                            /\ Js.truthy id0 = true)).
        { intros (response0 & id0 & E & Hid0 & T0).
          inversion E; subst response0. congruence. }
        destruct (Js.get "error" response); apply G; auto.
    + apply G; [reflexivity|].
      intros (response0 & id0 & E & Hid0 & _).
      inversion E; subst response0. congruence.
  - apply G; [reflexivity|].
    intros (response0 & id0 & E & _). discriminate E.
Qed.

(** X15: the one request of the credential test is a GET that goes to the
    [server] of the credential whenever that is set, and to
    [https://api.github.com/user] exactly when it is missing or empty, so
    the address is never empty; it carries the access token in its
    [Authorization] header. Without credential data the test throws a
    [TypeError] before any request is made. *)
Theorem credential_test_address (this : CredentialTest.ICredentialTestFunctions) :
  (forall fields : IDataObject,
      exists result options,
        CredentialTest.githubApiTest this (CredentialTest.mkCredential (JObj fields))
        = (result, [options])
        /\ CredentialTest.method options = "GET"
        /\ Js.truthy (CredentialTest.uri options) = true
        /\ (forall server,
               Js.lookup "server" fields = Some server -> Js.truthy server = true ->
               CredentialTest.uri options = server)
        /\ (forall server,
               Js.lookup "server" fields = Some server -> Js.truthy server = false ->
               CredentialTest.uri options = JStr "https://api.github.com/user")
        /\ (Js.lookup "server" fields = None ->
            CredentialTest.uri options = JStr "https://api.github.com/user")
        /\ forall accessToken,
             Js.get "accessToken" (JObj fields) = Ok accessToken ->
             Js.lookup "Authorization" (CredentialTest.headers options)
             = Some ("token " ++ Js.to_string accessToken)%string)
  /\ exists text,
       CredentialTest.githubApiTest this (CredentialTest.mkCredential JUndefined)
       = (Throw (TypeError text), []).
Proof.
  split.
  - intros fields. unfold CredentialTest.githubApiTest.
    cbn [CredentialTest.data Js.get].
    eexists _, _. split; [reflexivity|].
    cbn [CredentialTest.method CredentialTest.uri CredentialTest.headers].
    split; [reflexivity|].
    assert (A : forall accessToken : json,
               Ok (match Js.lookup "accessToken" fields with
                   | Some x => x
                   | None => JUndefined
                   end) = Ok accessToken ->
               Js.lookup "Authorization"
                 [("User-Agent", "n8n");
                  ("Authorization",
                   ("token "
                      ++ Js.to_string (match Js.lookup "accessToken" fields with
                                       | Some x => x
                                       | None => JUndefined
                                       end))%string)]
               = Some ("token " ++ Js.to_string accessToken)%string).
    { intros v E. inversion E. reflexivity. }
    destruct (Js.lookup "server" fields) as [server|].
    + destruct (Js.truthy server) eqn:T.
      * split; [exact T|]. split; [intros v E _; now inversion E|].
        split; [intros v E F; inversion E; congruence|].
        split; [discriminate|exact A].
      * split; [reflexivity|]. split; [intros v E F; inversion E; congruence|].
        split; [reflexivity|]. split; [reflexivity|exact A].
    + cbn [Js.truthy]. split; [reflexivity|]. split; [discriminate|].
      split; [discriminate|]. split; [reflexivity|exact A].
  - eexists. reflexivity.
Qed.

(** ** The objects of the input *)

Lemma extends_refl (st : store) : extends st st.
Proof. repeat split; exists []; now rewrite app_nil_r. Qed.

Lemma extends_trans (a b c : store) : extends a b -> extends b c -> extends a c.
Proof.
  intros ((i1 & Hi1) & (m1 & Hm1) & (o1 & Ho1)) ((i2 & Hi2) & (m2 & Hm2) & (o2 & Ho2)).
  repeat split.
  - exists (i1 ++ i2). rewrite Hi2, Hi1. now rewrite app_assoc.
  - exists (m1 ++ m2). rewrite Hm2, Hm1. now rewrite app_assoc.
  - exists (o1 ++ o2). rewrite Ho2, Ho1. now rewrite app_assoc.
Qed.

(** Attaching a file writes to the objects it allocates only. *)
Lemma as_binary_property_extends (this : IExecuteFunctions) (v : json) (i : nat)
    (s s' : state) (result : outcome output) :
  as_binary_property this v i s = (result, s') ->
  extends (objects s) (objects s').
Proof.
  unfold as_binary_property, item_at, alloc_map, alloc_item, alloc_binary, update_map,
    entries_of, set_item, undefined_item.
  unfold_run. intros H.
  crunch H; inversion H; subst; simpl;
    rewrite ?insert_at_end;
    repeat split;
    first [ now exists []; rewrite app_nil_r | eexists; reflexivity ].
Qed.

Lemma process_item_extends (this : IExecuteFunctions) (resource operation : json)
    (i : nat) (s s' : state) (out : outcome completion) :
  process_item this resource operation i s = (out, s') ->
  extends (objects s) (objects s').
Proof.
  intros H.
  apply process_item_inv in H
    as [(e & _ & -> & _)|(ow & rp & ro & s1 & _ & _ & Hr & H)];
    [apply extends_refl|].
  apply (respects_route (fun a b => extends (objects a) (objects b))) in Hr;
    try (intros; apply extends_refl).
  2: { intros a b c. apply extends_trans. }
  eapply extends_trans; [exact Hr|].
  destruct H as [e|r e E|r v e E F P|r v flag result s' E F P T B
                 |r v result s' E G A]; try apply extends_refl.
  - apply as_binary_property_extends in B. exact B.
  - apply accumulate_inv in A as (Ho & _). simpl in Ho. rewrite Ho.
    apply extends_refl.
Qed.

Lemma iteration_extends (this : IExecuteFunctions) (resource operation : json)
    (i : nat) (s s' : state) (out : outcome completion) :
  listed resource operation = true ->
  iteration this resource operation i s = (out, s') ->
  extends (objects s) (objects s').
Proof.
  intros Hl H. apply iteration_inv in H as [(c & H & E)|(e & s1 & H & Herr)].
  - eapply process_item_extends; eauto.
  - apply process_item_extends in H.
    unfold on_error, push in Herr. unfold listed in Hl. rewrite Hl in Herr.
    unfold_run_in Herr.
    destruct (continueOnFail this); inversion Herr; subst; exact H.
Qed.

(** X16: a run of an operation of either list never writes to an object of
    the input: whether it returns or throws, every item object, every
    attachment mapping and every attachment of the input store is still at
    its location, unchanged; what the run adds is allocated after them. *)
Theorem listed_operations_keep_the_input (this : IExecuteFunctions)
    (resource operation : json) (out : outcome output) (s' : state) :
  getNodeParameter this "operation" 0 None = Ok operation ->
  getNodeParameter this "resource" 0 None = Ok resource ->
  listed resource operation = true ->
  execute this = (out, s') ->
  extends (fst (getInputData this)) (objects s').
Proof.
  intros Hop Hres Hl H.
  apply execute_inv in H as [(e & _ & ->)|(op & res & Hop' & Hres' & H)];
    [apply extends_refl|].
  rewrite Hop in Hop'. rewrite Hres in Hres'.
  inversion Hop'; inversion Hres'; subst op res.
  assert (G : forall early,
             loop this resource operation
               (length (snd (getInputData this))) 0 (initial this) = (early, s') ->
             extends (fst (getInputData this)) (objects s')).
  { intros early Hloop.
    apply (loop_every this resource operation
             (fun _ s => extends (fst (getInputData this)) (objects s))) in Hloop.
    - exact Hloop.
    - auto.
    - intros i s o s2 Hi Hs. eapply extends_trans; [exact Hi|].
      eapply iteration_extends; eauto.
    - apply extends_refl. }
  apply rest_inv in H as [(e & Hloop & _)|[(o & Hloop & _)|(Hloop & _)]];
    eapply G; eauto.
Qed.

(** ** The operation of a run *)

Section FirstItem.

Variable this : IExecuteFunctions.
Variable g : string -> nat -> option json -> outcome json.

(** [g] is the accessor of [this] except, possibly, for [operation] and
    [resource] at the items after the first. *)
Hypothesis agree :
  forall name i fallback,
    i = 0 \/ (name <> "operation" /\ name <> "resource") ->
    g name i fallback = getNodeParameter this name i fallback.

Lemma process_item_first (resource operation : json) (i : nat) (s : state) :
  process_item (with_parameters g this) resource operation i s
  = process_item this resource operation i s.
Proof.
  unfold process_item. autounfold with router.
  unfold as_binary_property, accumulate, push_apply, array_like, getFileSha,
    upload_content, buffer_utf8, buffer_base64,
    githubApiRequest, githubApiRequestAllItems, issue, param, param_or.
  same_parameters agree.
Qed.

Lemma loop_first (resource operation : json) (n i : nat) (s : state) :
  loop (with_parameters g this) resource operation n i s
  = loop this resource operation n i s.
Proof.
  revert i s. induction n as [|n IH]; intros i s; simpl; [reflexivity|].
  unfold bind, iteration. rewrite process_item_first.
  change (on_error (with_parameters g this)) with (on_error this).
  destruct (process_item this resource operation i s) as [[[|o]|e] s1]; auto.
  destruct (on_error this _ i e s1) as [[[|o]|e'] s2]; auto.
Qed.

End FirstItem.

(** X17: the resource and the operation of the first item apply to every
    item: a run is the same whatever the accessor answers for [operation]
    and [resource] at the other items. *)
Theorem operation_read_at_first_item (this : IExecuteFunctions)
    (g : string -> nat -> option json -> outcome json) :
  (forall name i fallback,
      i = 0 \/ (name <> "operation" /\ name <> "resource") ->
      g name i fallback = getNodeParameter this name i fallback) ->
  execute (with_parameters g this) = execute this.
Proof.
  intros agree.
  unfold execute, run, rest, initial, bind, param, lift.
  unfold with_parameters at 1 2 3 4.
  cbn [getInputData getNodeParameter].
  rewrite !agree by (left; reflexivity).
  destruct (getNodeParameter this "operation" 0 None) as [operation|]; auto.
  destruct (getNodeParameter this "resource" 0 None) as [resource|]; auto.
  fold (with_parameters g this). now rewrite (loop_first this g agree).
Qed.

(** ** Requests that read *)

Opaque commit_fields upload_content getFileSha.

(** X18: a request built with the method GET never carries a body, whatever
    the operation: the body is the empty object of the reset. *)
Theorem get_requests_have_no_body (this : IExecuteFunctions)
    (resource operation : string) (owner repository : json) (i : nat)
    (s s' : state) (r : request) :
  route this (JStr resource) (JStr operation) owner repository i reset s = (Ok r, s') ->
  requestMethod r = "GET" ->
  body r = JObj [].
Proof.
  unfold route, release, repository_. cbn [Js.is_str existsb].
  repeat match goal with
         | |- context [String.eqb ?x ?l] =>
             is_var x; destruct (String.eqb_spec x l); [subst x|]
         end;
    cbn [String.eqb Ascii.eqb Bool.eqb andb orb];
    intros H;
    autounfold with router in H; unfold_run_in H;
    cbn [Js.is_str String.eqb Ascii.eqb Bool.eqb andb orb] in H;
    crunch H; inversion H; subst; simpl;
    repeat match goal with
           | E : commit_fields _ _ _ = (Ok _, _) |- _ =>
               apply commit_fields_keeps in E; simpl in E;
               destruct E as (? & ? & ? & ?)
           end;
    intros G; try discriminate G; try congruence; reflexivity.
Qed.

Transparent commit_fields upload_content getFileSha.

(** ** Responses that are not arrays *)

Lemma array_like_nothing (this : IExecuteFunctions) (v : json) :
  spreads_to_nothing v -> array_like this v = Ok [].
Proof.
  destruct v; simpl; try contradiction; auto.
  intros ->. reflexivity.
Qed.

Lemma array_operation_facts (full : string) :
  In full overwriteDataOperationsArray ->
  Js.includes overwriteDataOperations full = false
  /\ Js.includes overwriteDataOperationsArray full = true
  /\ String.eqb full "release:delete" = false.
Proof.
  intros H. simpl in H.
  repeat (destruct H as [<-|H]; [repeat split; reflexivity|]). contradiction.
Qed.

(** X19: an operation that spreads its responses (such as [file:list])
    returns nothing for a response that is not an array but a single object
    without a [length], [null] or [undefined]: when every call is answered
    so and continue-on-fail is off, a run that returns returns the empty
    list, although every request succeeded. *)
Theorem single_object_answers_are_dropped (this : IExecuteFunctions)
    (resource operation : json) (out : output) (s' : state) :
  getNodeParameter this "operation" 0 None = Ok operation ->
  getNodeParameter this "resource" 0 None = Ok resource ->
  In (fullOperation resource operation) overwriteDataOperationsArray ->
  (forall made c v, respond this made c = Ok v -> spreads_to_nothing v) ->
  continueOnFail this = false ->
  execute this = (Ok out, s') ->
  out = ReturnJsonArray [].
Proof.
  intros Hop Hres Hin Hanswer Hstop H.
  destruct (array_operation_facts _ Hin) as (L1 & L2 & L3).
  apply execute_inv in H as [(e & E & _)|(op & res & Hop' & Hres' & H)];
    [discriminate E|].
  rewrite Hop in Hop'. rewrite Hres in Hres'.
  inversion Hop'; inversion Hres'; subst op res.
  apply rest_inv in H as [(e & _ & E)|[(o & Hloop & E)|(Hloop & E)]].
  - discriminate E.
  - apply loop_return in Hloop as (k & s1 & Hloop).
    apply iteration_return in Hloop as [F _].
    rewrite F in L3. rewrite F in L1. discriminate L1.
  - unfold listed in E. rewrite L1, L2 in E. inversion E; subst out. f_equal.
    apply (loop_next this resource operation (fun _ s => returnData s = []))
      in Hloop; [exact Hloop| |reflexivity].
    intros i s s2 Hi Hs. rewrite <- Hi.
    apply iteration_inv in Hs as [(c & Hs & Ec)|(e & s1 & _ & Herr)].
    + inversion Ec; subst c.
      apply process_item_inv in Hs
        as [(e & E' & _)|(ow & rp & ro & s1 & _ & _ & Hr & Hs)]; [discriminate E'|].
      assert (D : returnData s1 = returnData s).
      { apply (respects_route (fun a b => returnData b = returnData a)) in Hr; auto.
        intros a b c Hab Hbc. congruence. }
      rewrite <- D.
      inversion Hs as [| | |r v flag result s3 E' F P T B|r v result s3 E' G A];
        subst.
      * destruct result; discriminate.
      * destruct result as [[]|]; [|discriminate].
        rewrite L3 in A. apply accumulate_inv in A as (_ & _ & _ & _ & A).
        rewrite L1, L2 in A.
        rewrite (array_like_nothing this v (Hanswer _ _ _ E')) in A.
        destruct A as [_ ->]. simpl. now rewrite app_nil_r.
    + apply on_error_keeps in Herr as (_ & _ & _ & Hthrow & _).
      destruct (Hthrow Hstop) as [E' _]. discriminate E'.
Qed.

(** * The theorems at sample runs *)

Lemma file_get_as_binary_property_witness :
  let this := FileSample.lines in
  let pass := process_item this (JStr "file") (JStr "get") 1 (initial this) in
  process_item FileSample.folder (JStr "file") (JStr "get") 1 (initial FileSample.folder)
  = (Throw (NodeOperationError "File Path is a folder, not a file."),
     called (initial FileSample.folder) (JStr "octo") (JStr "hello")
       (JStr "docs/read me.txt"))
  /\ fst pass = Ok (Return (PrepareOutputData [0; 3; 2]))
  /\ binaryMaps (objects (snd pass)) = [[("readme", 0)]; [("readme", 0); ("data", 1)]]
  /\ binaryObjs (objects (snd pass)) !! 1 = Some FileSample.prepared.
Proof.
  intros this pass. split.
  - apply (file_get_as_binary_property FileSample.folder 1 (initial FileSample.folder)
             (JStr "octo") (JStr "hello") (JStr "docs/read me.txt")
             (JArr [FileSample.file]));
      reflexivity.
  - destruct (file_get_as_binary_property this 1 (initial this)
                (JStr "octo") (JStr "hello") (JStr "docs/read me.txt")
                FileSample.in_lines eq_refl eq_refl eq_refl eq_refl eq_refl)
      as [_ H].
    destruct (H (JStr "data") (JStr "docs/read me.txt")
                ("aGVs" ++ String "010" ("bG8=" ++ String "010" EmptyString))%string
                (list_byte_of_string "hello") 1
                (mkItem (JObj [("id", JNum 2)]) (Some 0)) [("readme", 0)]
                FileSample.prepared) as [Hpass _].
    + reflexivity.
    + reflexivity.
    + reflexivity.
    + reflexivity.
    + reflexivity.
    + repeat constructor. simpl. tauto.
    + reflexivity.
    + vm_compute. reflexivity.
    + reflexivity.
    + vm_compute. reflexivity.
    + unfold pass. rewrite Hpass. vm_compute. auto.
Defined.

Lemma binary_return_ends_run_witness :
  fst (rest FileSample.this (JStr "file") (JStr "get") 3 0 (initial FileSample.this))
  = Ok (PrepareOutputData [3; 1; 2])
  /\ length (trace (snd (rest FileSample.this (JStr "file") (JStr "get") 3 0
                           (initial FileSample.this)))) = 1.
Proof.
  destruct (binary_return_ends_run FileSample.this 0 2 (initial FileSample.this)
              (JStr "octo") (JStr "hello") (JStr "docs/read me.txt") FileSample.file
              (JStr "data") (JStr "docs/read me.txt") "aGVsbG8=" 0
              (mkItem (JObj [("id", JNum 1)]) None) [] FileSample.prepared)
    as (_ & Hrest & _).
  - reflexivity.
  - reflexivity.
  - reflexivity.
  - reflexivity.
  - reflexivity.
  - reflexivity.
  - reflexivity.
  - reflexivity.
  - reflexivity.
  - reflexivity.
  - constructor.
  - reflexivity.
  - reflexivity.
  - vm_compute. reflexivity.
  - rewrite Hrest. split; reflexivity.
Defined.


Lemma one_page_when_limited_witness :
  let this := PageSample.this in
  let pass := process_item this (JStr "review") (JStr "getAll") 0 (initial this) in
  trace (snd pass)
  = [mkCall SingleRequest
       (mkRequest "GET" "/repos/octo/hello/pulls/7/reviews" (JObj [])
          (JObj [("per_page", JNum 50)]))]
  /\ returnData (snd pass) = PageSample.page.
Proof.
  intros this pass.
  destruct (one_page_when_limited this "review" "getAll" 0 (initial this) 50
              (JStr "octo") (JStr "hello") (JNum 7) [])
    as [Hlimited _].
  - simpl. tauto.
  - repeat split; intros; try reflexivity; discriminate.
  - lia.
  - destruct (Hlimited eq_refl eq_refl) as (_ & _ & Htrace & Hpage).
    destruct (Hpage PageSample.page eq_refl) as [_ Hdata].
    split.
    + etransitivity; [exact Htrace|]. vm_compute. reflexivity.
    + etransitivity; [exact Hdata|]. reflexivity.
Defined.

Lemma sha_lookup_before_mutation_witness :
  let this := EditSample.this in
  let lookup :=
    sha_lookup (JStr "octo") (JStr "hello") (JStr "docs/a.txt") (JStr "dev") in
  let sends (operation verb : string) : Prop :=
    exists mutation,
      trace (snd (process_item this (JStr "file") (JStr operation) 0 (initial this)))
      = [lookup; mutation]
      /\ requestMethod (sent mutation) = verb
      /\ Js.get "sha" (body (sent mutation)) = Ok (JStr "3f5a")
      /\ Js.get "branch" (body (sent mutation)) = Ok (JStr "dev") in
  sends "edit" "PUT" /\ sends "delete" "DELETE".
Proof.
  intros this lookup sends.
  assert (G : forall operation,
             operation = "edit" \/ operation = "delete" ->
             sends operation (mutating_verb operation)).
  { intros operation Hop.
    set (pass := process_item this (JStr "file") (JStr operation) 0 (initial this)).
    destruct (sha_lookup_before_mutation this operation 0 (initial this) (snd pass)
                (fst pass) (JStr "octo") (JStr "hello") (JStr "docs/a.txt")
                [("branch", JObj [("branch", JStr "dev")])] Hop)
      as (more & Htrace & Hcases).
    - reflexivity.
    - reflexivity.
    - reflexivity.
    - reflexivity.
    - intros _. exists (JStr "update"). reflexivity.
    - apply surjective_pairing.
    - change (respond this (trace (initial this))
                (sha_lookup (JStr "octo") (JStr "hello") (JStr "docs/a.txt")
                   (commit_branch [("branch", JObj [("branch", JStr "dev")])])))
        with (@Ok json (JObj [("sha", JStr "3f5a")])) in Hcases.
      cbn [Js.get Js.lookup String.eqb Ascii.eqb Bool.eqb Js.is_undefined] in Hcases.
      destruct Hcases
        as [(_ & _ & e & Hout & _)|(mutation & -> & Hverb & _ & Hsha & Hb)].
      + destruct Hop as [-> | ->]; vm_compute in Hout; discriminate Hout.
      + exists mutation. split; [exact Htrace|]. split; [exact Hverb|].
        split; [exact Hsha|exact Hb]. }
  split; [exact (G "edit" (or_introl eq_refl))|exact (G "delete" (or_intror eq_refl))].
Defined.

Lemma review_create_event_witness :
  exists b,
    route ReviewSample.this (JStr "review") (JStr "create") (JStr "octo") (JStr "hello")
      0 reset (initial ReviewSample.this)
    = (Ok (mkRequest "POST" (reviews (JStr "octo") (JStr "hello") (JNum 7)) (JObj b)
             (JObj [])),
       initial ReviewSample.this)
    /\ Js.lookup "event" b = Some (JStr "REQUEST_CHANGES")
    /\ Js.lookup "body" b = Some (JStr "please fix").
Proof.
  apply (review_create_event ReviewSample.this (JStr "octo") (JStr "hello") 0
           (initial ReviewSample.this) (JNum 7) (JObj [("commitId", JStr "3f5a")])
           (JStr "please fix") "requestChanges").
  - simpl. tauto.
  - reflexivity.
  - reflexivity.
  - reflexivity.
  - reflexivity.
  - intros _. reflexivity.
Defined.

Lemma issue_labels_assignees_flattened_witness :
  route IssueSample.this (JStr "issue") (JStr "create") (JStr "octo") (JStr "hello")
    0 reset (initial IssueSample.this)
  = (Ok (mkRequest "POST" (repos (JStr "octo") (JStr "hello") ++ "/issues")
           (JObj [("title", JStr "Crash"); ("body", JStr "It crashes");
                  ("labels", JArr [JStr "a"; JStr "b"]);
                  ("assignees", JArr [JStr "ann"])])
           (JObj [])),
     initial IssueSample.this)
  /\ exists b,
       fst (route IssueSample.this (JStr "issue") (JStr "edit") (JStr "octo")
              (JStr "hello") 0 reset (initial IssueSample.this))
       = Ok (mkRequest "PATCH"
               (repos (JStr "octo") (JStr "hello") ++ "/issues/" ++ Js.to_string (JNum 5))
               (JObj b) (JObj []))
       /\ Js.lookup "labels" b = Some (JArr [JStr "bug"])
       /\ Js.lookup "assignees" b = None
       /\ Js.lookup "title" b = Some (JStr "Crash on start").
Proof.
  destruct (issue_labels_assignees_flattened IssueSample.this (JStr "octo") (JStr "hello")
              0 (initial IssueSample.this)) as [Hcreate Hedit].
  split.
  - apply (Hcreate (JStr "Crash") (JStr "It crashes") [JStr "a"; JStr "b"] [JStr "ann"]);
      reflexivity.
  - destruct (Hedit (JNum 5)
                [("title", JStr "Crash on start");
                 ("labels", JArr [JObj [("label", JStr "bug")]])]
                (Some [JStr "bug"]) None eq_refl eq_refl eq_refl eq_refl)
      as (b & Hroute & Hlabels & Hassignees & Hother).
    exists b. repeat split.
    + now rewrite Hroute.
    + exact Hlabels.
    + exact Hassignees.
    + rewrite Hother by discriminate. reflexivity.
Defined.

Lemma router_follows_verbatim_table_witness :
  (exists r,
      fst (route RouteSample.this (JStr "repository") (JStr "get") (JStr "octo/cat")
             (JStr "hello") 0 reset (initial RouteSample.this)) = Ok r
      /\ requestMethod r = "GET" /\ endpoint r = "/repos/octo/cat/hello")
  /\ exists r,
       fst (route RouteSample.numbered (JStr "issue") (JStr "get") (JStr "octo")
              (JStr "hello") 0 reset (initial RouteSample.numbered)) = Ok r
       /\ requestMethod r = "GET" /\ endpoint r = "/repos/octo/hello/issues/1e+21".
Proof.
  split.
  - exists (mkRequest "GET" "/repos/octo/cat/hello" (JObj []) (JObj [])).
    split; [vm_compute; reflexivity|].
    apply (router_follows_verbatim_table RouteSample.this 0 "repository" "get" "GET"
             (fun o r _ => ("/repos/" ++ Js.to_string o ++ "/" ++ Js.to_string r)%string)
             (JStr "octo/cat") (JStr "hello")
             (initial RouteSample.this) (initial RouteSample.this)).
    + unfold verbatim_table, routing_table. simpl. tauto.
    + vm_compute. reflexivity.
  - exists (mkRequest "GET" "/repos/octo/hello/issues/1e+21" (JObj []) (JObj [])).
    split; [vm_compute; reflexivity|].
    destruct (router_follows_verbatim_table RouteSample.numbered 0 "issue" "get" "GET"
                (fun o r p => (("/repos/" ++ Js.to_string o ++ "/" ++ Js.to_string r)
                                 ++ "/issues/" ++ Js.to_string (p "issueNumber"))%string)
                (JStr "octo") (JStr "hello")
                (initial RouteSample.numbered) (initial RouteSample.numbered)
                (mkRequest "GET" "/repos/octo/hello/issues/1e+21" (JObj []) (JObj [])))
      as [Hverb Hend].
    + unfold verbatim_table, routing_table. do 8 right. left. reflexivity.
    + vm_compute. reflexivity.
    + split; [exact Hverb|]. rewrite Hend. vm_compute. reflexivity.
Defined.

Lemma response_shape_by_lists_witness :
  let this := ReleaseSample.this in
  ReturnJsonArray [success; success; success]
  = output_of "release:delete" (snd (execute this))
  /\ exists parts,
       Forall2 (contribution this (JStr "release") (JStr "delete")) [0; 1; 2] parts
       /\ returnData (snd (execute this)) = concat parts.
Proof.
  intros this.
  destruct (response_shape_by_lists this (JStr "release") (JStr "delete")
              (ReturnJsonArray [success; success; success]) (snd (execute this))
              eq_refl eq_refl)
    as [_ [(F & _)|H]].
  - vm_compute. reflexivity.
  - vm_compute in F. discriminate F.
  - exact H.
Defined.

Lemma pagination_read_at_first_item_witness :
  execute (with_parameters PageSample.uniform PageSample.this) = execute PageSample.this.
Proof.
  apply (pagination_read_at_first_item PageSample.this PageSample.uniform).
  intros name i fallback [->|[Hall Hlimit]].
  - reflexivity.
  - unfold PageSample.uniform. destruct (Nat.eqb i 0); [reflexivity|].
    destruct (String.eqb_spec name "returnAll"); [contradiction|].
    destruct (String.eqb_spec name "limit"); [contradiction|]. reflexivity.
Defined.

Lemma one_result_per_item_witness :
  let this := IssueSample.this in
  fst (execute this) = Ok (ReturnJsonArray [JObj []; JObj []; JObj []])
  /\ length [JObj []; JObj []; JObj []] = length (snd (getInputData this))
  /\ contribution this (JStr "issue") (JStr "create") 1 [JObj []].
Proof.
  intros this.
  assert (E : execute this
              = (Ok (ReturnJsonArray [JObj []; JObj []; JObj []]), snd (execute this)))
    by (vm_compute; reflexivity).
  split; [now rewrite E|].
  destruct (one_result_per_item this (JStr "issue") (JStr "create")
              [JObj []; JObj []; JObj []] (snd (execute this)) eq_refl eq_refl)
    as [Hlength Hentry].
  - apply includes_In. vm_compute. reflexivity.
  - exact E.
  - split; [exact Hlength|]. exact (Hentry 1 (JObj []) eq_refl).
Defined.

Lemma unlisted_operation_returns_items_witness :
  let this := LockSample.this in
  fst (execute this) = Ok (PrepareOutputData [0; 1; 2])
  /\ returnData (snd (execute this)) = []
  /\ objects (snd (execute this)) = Sample.stored.
Proof.
  intros this.
  destruct (unlisted_operation_returns_items this (JStr "issue") (JStr "lock")
              (PrepareOutputData [0; 1; 2]) (snd (execute this)) eq_refl eq_refl)
    as (_ & Hdata & Hobjects).
  - vm_compute. reflexivity.
  - vm_compute. reflexivity.
  - split; [vm_compute; reflexivity|]. split; [exact Hdata|].
    exact (Hobjects eq_refl).
Defined.

Lemma one_call_per_item_witness :
  length (trace (snd (execute IssueSample.this))) <= 3.
Proof.
  apply (one_call_per_item IssueSample.this "issue" "create"
           (fst (execute IssueSample.this)) (snd (execute IssueSample.this))
           eq_refl eq_refl).
  - simpl. intros [H|[H|[]]]; discriminate H.
  - apply surjective_pairing.
Defined.

Lemma all_items_helper_only_when_paginated_witness :
  Forall (fun c => via c = SingleRequest) (trace (snd (execute LockSample.this))).
Proof.
  apply (all_items_helper_only_when_paginated LockSample.this "issue" "lock"
           (fst (execute LockSample.this)) (snd (execute LockSample.this))
           eq_refl eq_refl).
  - simpl. intros [H|[H|[H|[H|[]]]]]; discriminate H.
  - simpl. intros [H|[H|[]]]; discriminate H.
  - apply surjective_pairing.
Defined.

Lemma unknown_resource_rejected_witness :
  execute GistSample.this
  = (Throw (unknown_resource (JStr "gist")), initial GistSample.this).
Proof.
  refine (proj2 (unknown_resource_rejected GistSample.this (JStr "gist") (JStr "get") _)
            (JStr "octo") (JStr "hello") eq_refl eq_refl eq_refl eq_refl eq_refl _).
  - intros name Hname. simpl in Hname.
    repeat (destruct Hname as [<-|Hname]; [reflexivity|]). contradiction.
  - discriminate.
Defined.

Lemma operation_without_branch_sends_reset_request_witness :
  let this := RouteSample.this in
  trace (snd (process_item this (JStr "repository") (JStr "getProfile") 0 (initial this)))
  = [mkCall SingleRequest (mkRequest "GET" "" (JObj []) (JObj []))].
Proof.
  intros this.
  refine (proj2 (operation_without_branch_sends_reset_request this
                   "repository" "getProfile"
                   ["listPopularPaths"; "listReferrers"; "get"; "getLicense"; "getIssues"]
                   (JStr "octo/cat") (JStr "hello") 0 (initial this) _ _ eq_refl eq_refl)).
  - simpl. tauto.
  - simpl. intros [H|[H|[H|[H|[H|[]]]]]]; discriminate H.
Defined.

Lemma release_delete_reports_success_witness :
  fst (execute ReleaseSample.this)
  = Ok (ReturnJsonArray [success; success; success]).
Proof.
  apply (release_delete_reports_success ReleaseSample.this eq_refl eq_refl).
  - intros i Hi.
    exists (JStr "octo"), (JStr "hello"), (JNum (40 + Z.of_nat i)).
    repeat split.
  - intros made c. eexists. reflexivity.
Defined.

Lemma paginated_results_concatenated_witness :
  fst (execute PageSample.this)
  = Ok (ReturnJsonArray (PageSample.page ++ PageSample.page ++ PageSample.page)).
Proof.
  apply (paginated_results_concatenated PageSample.this "review" "getAll" false
           (JNum 50) (fun _ => JStr "octo") (fun _ => JStr "hello")
           (fun i => JNum (7 + Z.of_nat i)) (fun _ => []) (fun _ => PageSample.page)).
  - simpl. tauto.
  - reflexivity.
  - reflexivity.
  - intros i Hi. repeat split; intros; try reflexivity; discriminate.
  - reflexivity.
  - reflexivity.
  - reflexivity.
Defined.

Lemma file_create_request_witness :
  let this := EditSample.this in
  exists b,
    route this (JStr "file") (JStr "create") (JStr "octo") (JStr "hello") 0 reset
      (initial this)
    = (Ok (mkRequest "PUT" (contents (JStr "octo") (JStr "hello") (JStr "docs/a.txt"))
             (JObj b) (JObj [])), initial this)
    /\ Js.lookup "content" b = Some (JStr "aGVsbG8=")
    /\ Js.lookup "message" b = Some (JStr "update")
    /\ Js.lookup "sha" b = None.
Proof.
  intros this.
  exact (proj1 (file_create_request this 0 (initial this) (JStr "octo") (JStr "hello")
                  (JStr "docs/a.txt") (JStr "update") (JBool false)
                  [("branch", JObj [("branch", JStr "dev")])]
                  eq_refl eq_refl eq_refl eq_refl)
           eq_refl "hello" eq_refl).
Defined.

Lemma upload_without_attachment_witness :
  let this := UploadSample.this in
  let named := UploadSample.by_constructor in
  process_item this (JStr "file") (JStr "create") 0 (initial this)
  = (Throw (NodeOperationError "No binary data exists on item!"), initial this)
  /\ process_item this (JStr "file") (JStr "create") 1 (initial this)
     = (Throw (NodeOperationError
                 ("No binary data property " ++ Js.dquote ++ "data" ++ Js.dquote
                    ++ " does not exists on item!")),
        initial this)
  /\ exists b,
       Js.lookup "content" b = Some JUndefined
       /\ Js.lookup "message" b = Some (JStr "add")
       /\ trace (snd (process_item named (JStr "file") (JStr "create") 1
                        (initial named)))
          = [main_call (initial named)
               (mkRequest "PUT"
                  (contents (JStr "octo") (JStr "hello") (JStr "docs/a.txt"))
                  (JObj b) (JObj []))].
Proof.
  intros this named. split; [|split].
  - exact (proj1 (upload_without_attachment this 0 (initial this)
                    (JStr "octo") (JStr "hello") (JStr "docs/a.txt") (JStr "add")
                    (JBool true) [] 0 (mkItem (JObj [("id", JNum 1)]) None)
                    eq_refl eq_refl eq_refl eq_refl eq_refl eq_refl eq_refl
                    eq_refl eq_refl)
             eq_refl).
  - apply (proj2 (upload_without_attachment this 1 (initial this)
                    (JStr "octo") (JStr "hello") (JStr "docs/a.txt") (JStr "add")
                    (JBool true) [] 1 (mkItem (JObj [("id", JNum 2)]) (Some 0))
                    eq_refl eq_refl eq_refl eq_refl eq_refl eq_refl eq_refl
                    eq_refl eq_refl)
             (JStr "data") 0 [("readme", 0)] eq_refl eq_refl eq_refl eq_refl).
    simpl. intuition discriminate.
  - apply (proj2 (upload_without_attachment named 1 (initial named)
                    (JStr "octo") (JStr "hello") (JStr "docs/a.txt") (JStr "add")
                    (JBool true) [] 1 (mkItem (JObj [("id", JNum 2)]) (Some 0))
                    eq_refl eq_refl eq_refl eq_refl eq_refl eq_refl eq_refl
                    eq_refl eq_refl)
             (JStr "constructor") 0 [("readme", 0)] eq_refl eq_refl eq_refl eq_refl).
    simpl. tauto.
Defined.

Lemma text_upload_round_trip_witness :
  let this := EditSample.this in
  exists content,
    upload_content this 0 (initial this) = (Ok content, initial this)
    /\ buffer_base64 this content = Ok (list_byte_of_string "hello").
Proof.
  intros this.
  exact (text_upload_round_trip this 0 (initial this) (JBool false) "hello"
           eq_refl eq_refl eq_refl).
Defined.

Lemma skipped_parameters_are_not_read_witness :
  execute (with_parameters InviteSample.with_owner InviteSample.this)
  = execute InviteSample.this.
Proof.
  apply (skipped_parameters_are_not_read InviteSample.this InviteSample.with_owner
           (JStr "user") (JStr "invite") eq_refl eq_refl).
  intros name i fallback Hname. unfold InviteSample.with_owner.
  destruct (String.eqb_spec name "owner") as [->|_];
    [exfalso; apply Hname; vm_compute; tauto|].
  destruct (String.eqb_spec name "repository") as [->|_];
    [exfalso; apply Hname; vm_compute; tauto|].
  reflexivity.
Defined.

Lemma listed_operations_keep_the_input_witness :
  extends Sample.stored (objects (snd (execute FileSample.this)))
  /\ length (itemObjs (objects (snd (execute FileSample.this)))) = 4.
Proof.
  split; [|vm_compute; reflexivity].
  apply (listed_operations_keep_the_input FileSample.this (JStr "file") (JStr "get")
           (fst (execute FileSample.this)) (snd (execute FileSample.this))
           eq_refl eq_refl).
  - vm_compute. reflexivity.
  - apply surjective_pairing.
Defined.

Lemma operation_read_at_first_item_witness :
  execute (with_parameters LockSample.drifting LockSample.this)
  = execute LockSample.this.
Proof.
  apply (operation_read_at_first_item LockSample.this LockSample.drifting).
  intros name i fallback [->|[Hop _]]; unfold LockSample.drifting.
  - reflexivity.
  - destruct (Nat.eqb i 0); [reflexivity|].
    destruct (String.eqb_spec name "operation"); [contradiction|reflexivity].
Defined.

Lemma get_requests_have_no_body_witness :
  let this := RouteSample.this in
  let r := mkRequest "GET" "/repos/octo/hello/issues/1" (JObj []) (JObj []) in
  route this (JStr "issue") (JStr "get") (JStr "octo") (JStr "hello") 0 reset
    (initial this) = (Ok r, initial this)
  /\ body r = JObj [].
Proof.
  intros this r.
  assert (E : route this (JStr "issue") (JStr "get") (JStr "octo") (JStr "hello") 0
                reset (initial this) = (Ok r, initial this))
    by (vm_compute; reflexivity).
  split; [exact E|].
  exact (get_requests_have_no_body this "issue" "get" (JStr "octo") (JStr "hello") 0
           (initial this) (initial this) r E eq_refl).
Defined.

Lemma single_object_answers_are_dropped_witness :
  execute ListSample.this
  = (Ok (ReturnJsonArray []), snd (execute ListSample.this)).
Proof.
  assert (E : exists out, execute ListSample.this
                          = (Ok out, snd (execute ListSample.this)))
    by (eexists; vm_compute; reflexivity).
  destruct E as (out & E). rewrite E at 1. f_equal. f_equal.
  apply (single_object_answers_are_dropped ListSample.this (JStr "file") (JStr "list")
           out (snd (execute ListSample.this)) eq_refl eq_refl).
  - apply includes_In. vm_compute. reflexivity.
  - intros made c v Hv. inversion Hv. reflexivity.
  - reflexivity.
  - exact E.
Defined.
